(** * LSASM: the two-pass assemblers of the gate computer

    A shallow embedding of the three assemblers of this repository:
    - [V1]: [lsasm.c], the 16-bit-word assembler;
    - [V2]: [lsasm_v2.c], the 32-bit-word assembler that splits every word
      into an ALPHA (upper half) and a BETA (lower half) ROM bank;
    - [AssemblerTool]: the class of that name in [gate_computer_toolset.cpp],
      the 32-bit assembler with register aliases and a catalogue.

    C strings are [string]s, machine integers are [Z] with the casts written
    out ([u8], [u16], [u32]), [int*] out-parameters become extra results, and
    the source file is the list of buffers that successive [fgets] calls
    deliver.  A [%s] conversion is not bounded, as in the source: a token
    that overflows the buffer it is scanned into ([char x[16]],
    [char mnemonic[32]]) is undefined behaviour in C, and the statements
    that depend on a scan are made for lines whose tokens fit
    ([tokens_fit]).  [long] has 64 bits and [int] 32, as [gcc] has them on
    64-bit Linux. *)

From Stdlib Require Import ZArith NArith String Ascii List Bool Lia.
From Stdlib Require Import DecimalString.
Import ListNotations.

Open Scope string_scope.
Open Scope Z_scope.

(** ** The part of the C library the assemblers use *)

Module CLib.

Definition code (c : ascii) : Z := Z.of_N (N_of_ascii c).

(** [isspace] in the C locale: space, and [\t \n \v \f \r]. *)
Definition isspace (c : ascii) : bool :=
  (code c =? 32) || ((9 <=? code c) && (code c <=? 13)).

Definition isupper (c : ascii) : bool := (65 <=? code c) && (code c <=? 90).
Definition islower (c : ascii) : bool := (97 <=? code c) && (code c <=? 122).
Definition isalpha (c : ascii) : bool := isupper c || islower c.
Definition isdigit (c : ascii) : bool := (48 <=? code c) && (code c <=? 57).

Definition toupper (c : ascii) : ascii :=
  if islower c then ascii_of_N (Z.to_N (code c - 32)) else c.

Fixpoint map_string (f : ascii -> ascii) (s : string) : string :=
  match s with
  | EmptyString => EmptyString
  | String c s' => String (f c) (map_string f s')
  end.

(** The loop that advances [p] while it points at white space. *)
Fixpoint skip_spaces (s : string) : string :=
  match s with
  | EmptyString => EmptyString
  | String c s' => if isspace c then skip_spaces s' else s
  end.

(** The loop that advances [p] while it points at a non-space character. *)
Fixpoint skip_nonspaces (s : string) : string :=
  match s with
  | EmptyString => EmptyString
  | String c s' => if isspace c then s else skip_nonspaces s'
  end.

(** The characters a [%s] conversion stores: the maximal run of
    non-space characters at the head of [s]. *)
Fixpoint take_nonspaces (s : string) : string :=
  match s with
  | EmptyString => EmptyString
  | String c s' => if isspace c then EmptyString else String c (take_nonspaces s')
  end.

(** [sscanf(s, "%s %s ... %s", ...)] with [n] conversions: the tokens that
    were stored, in order.  The C return value is their number (or [EOF] when
    there is none; the callers only compare it with the number they want).
    [%s] has no field width in the source, so a token is stored whole
    whatever its length; the buffers of the callers hold 16 bytes (32 for
    the mnemonic), and a call that stores a longer token writes past its
    buffer, which is undefined behaviour: the function gives what the C
    call does for tokens that fit. *)
Fixpoint sscanf_s (n : nat) (s : string) : list string :=
  match n with
  | O => []
  | S n' =>
      match skip_spaces s with
      | EmptyString => []
      | String c r =>
          take_nonspaces (String c r) :: sscanf_s n' (skip_nonspaces (String c r))
      end
  end.

(** Index of the first occurrence of [c], as [strchr] finds it. *)
Fixpoint strchr (s : string) (c : ascii) : option nat :=
  match s with
  | EmptyString => None
  | String d s' =>
      if Ascii.eqb d c then Some O
      else match strchr s' c with Some i => Some (S i) | None => None end
  end.

(** [strncpy(dst, src, n); dst[n] = 0]: the first [n] characters. *)
Fixpoint strncpy (n : nat) (s : string) : string :=
  match n, s with
  | S n', String c s' => String c (strncpy n' s')
  | _, _ => EmptyString
  end.

(** Value of a digit in the given base, if it is one. *)
Definition digit_val (base : Z) (c : ascii) : option Z :=
  let v :=
    if isdigit c then code c - 48
    else if islower c then code c - 97 + 10
    else if isupper c then code c - 65 + 10
    else 99 in
  if v <? base then Some v else None.

Fixpoint digits (base : Z) (acc : Z) (s : string) : Z :=
  match s with
  | EmptyString => acc
  | String c s' =>
      match digit_val base c with
      | Some d => digits base (acc * base + d) s'
      | None => acc
      end
  end.

(** The number that [strtol] reads: leading white space, an optional sign,
    for base 16 an optional [0x] prefix, then the digits. *)
Definition strtol_value (s : string) (base : Z) : Z :=
  let unprefixed t :=
    if base =? 16 then
      match t with
      | String "0" (String "x" r) => r
      | String "0" (String "X" r) => r
      | _ => t
      end
    else t in
  match skip_spaces s with
  | String "-" r => - digits base 0 (unprefixed r)
  | String "+" r => digits base 0 (unprefixed r)
  | t => digits base 0 (unprefixed t)
  end.

Definition LONG_MAX : Z := 9223372036854775807.
Definition LONG_MIN : Z := -9223372036854775808.

(** [strtol(s, NULL, base)] for base 2, 10 and 16: the number read, or
    [LONG_MAX] or [LONG_MIN] when it is out of the range of [long]. *)
Definition strtol (s : string) (base : Z) : Z :=
  let value := strtol_value s base in
  if LONG_MAX <? value then LONG_MAX
  else if value <? LONG_MIN then LONG_MIN
  else value.

(** [(int)x] for a [long] [x]: the low 32 bits, as a signed number. *)
Definition to_int (x : Z) : Z :=
  (x + 2147483648) mod 4294967296 - 2147483648.

(** [atoi(s)], which is [(int)strtol(s, NULL, 10)]. *)
Definition atoi (s : string) : Z := to_int (strtol s 10).

Definition u8 (x : Z) : Z := x mod 256.
Definition u16 (x : Z) : Z := x mod 65536.
Definition u32 (x : Z) : Z := x mod 4294967296.

(** [s + 1] for a non-empty C string. *)
Definition tail (s : string) : string :=
  match s with
  | EmptyString => EmptyString
  | String _ s' => s'
  end.

(** [s[0]], the terminating NUL when [s] is empty. *)
Definition head (s : string) : ascii :=
  match s with
  | EmptyString => zero
  | String c _ => c
  end.

Definition is_empty (s : string) : bool :=
  match s with
  | EmptyString => true
  | _ => false
  end.

(** [fgets(buf, n + 1, stream)] on a stream that is not at its end: the
    buffer, at most [n] characters long and cut after the first newline, and
    what is left of the stream. *)
Fixpoint fgets (n : nat) (stream : string) : string * string :=
  match n, stream with
  | S n', String c stream' =>
      if Ascii.eqb c "010" then (String c EmptyString, stream')
      else let (buf, rest) := fgets n' stream' in (String c buf, rest)
  | _, _ => (EmptyString, stream)
  end.

End CLib.
Import CLib.

(** ** Code shared verbatim by [lsasm.c] and [lsasm_v2.c] *)

Definition MAX_LINE : nat := 256.

(** The buffers that the loop [while (fgets(line, MAX_LINE, script) ...)]
    sees, one per iteration, until [fgets] reports the end of the file.
    Every call takes at least one character, so as many calls as the file
    has characters reach its end ([read_lines_exhausts]). *)
Fixpoint read_from (calls : nat) (script : string) : list string :=
  match calls, script with
  | S calls', String _ _ =>
      let (line, rest) := fgets (MAX_LINE - 1) script in
      line :: read_from calls' rest
  | _, _ => []
  end.

Definition read_lines (script : string) : list string :=
  read_from (String.length script) script.

(** [strip_comments(line, &inMultiline)]: the stripped line and the new
    value of the flag.  The C loop copies within the buffer, reading index
    [i] and writing index [j <= i]; here the read position is the argument
    and the written characters are the result. *)
Fixpoint strip_comments (line : string) (inMultiline : bool) : string * bool :=
  match line with
  | EmptyString => (EmptyString, inMultiline)
  | String c rest =>
      if inMultiline then
        match rest with
        | String d rest' =>
            if Ascii.eqb c "*" && Ascii.eqb d "/" then strip_comments rest' false
            else strip_comments rest true
        | EmptyString => strip_comments rest true
        end
      else
        match rest with
        | String d rest' =>
            if Ascii.eqb c "/" && Ascii.eqb d "*" then strip_comments rest' true
            else if Ascii.eqb c "/" && Ascii.eqb d "/" then (EmptyString, false)
            else let (out, st) := strip_comments rest false in (String c out, st)
        | EmptyString =>
            let (out, st) := strip_comments rest false in (String c out, st)
        end
  end.

(** [is_label(line)]: after leading white space the line has a colon, at
    most 31 characters before it, and starts with a letter or underscore. *)
Definition is_label (line : string) : bool :=
  let line := skip_spaces line in
  if is_empty line then false
  else
    match strchr line ":" with
    | None => false
    | Some len =>
        if (Z.of_nat len <=? 0) || (32 <=? Z.of_nat len) then false
        else if negb (isalpha (head line)) && negb (Ascii.eqb (head line) "_")
        then false
        else true
    end.

(** The copy loop of [parse_label]: up to the colon, at most [n] characters. *)
Fixpoint copy_label (n : nat) (line : string) : string :=
  match n, line with
  | S n', String c line' =>
      if Ascii.eqb c ":" then EmptyString else String c (copy_label n' line')
  | _, _ => EmptyString
  end.

Definition parse_label (line : string) : string :=
  copy_label 31 (skip_spaces line).

(** [Label] and [SymbolTable]: the table is the list of its first [count]
    entries, in the order they were added. *)
Record Label := { name : string; address : Z }.

Definition SymbolTable := list Label.

Definition count (table : SymbolTable) : Z := Z.of_nat (List.length table).

Definition symbol_table_init : SymbolTable := [].

Section Symbols.

Variable MAX_LABELS : Z.

(** The new table and the returned status ([-1] when the table is full). *)
Definition symbol_table_add (table : SymbolTable) (nm : string) (addr : Z)
  : SymbolTable * Z :=
  if MAX_LABELS <=? count table then (table, -1)
  else ((table ++ [ {| name := strncpy 31 nm; address := addr |} ])%list, 0).

End Symbols.

(** The address of the first entry with that name, [-1] when there is none. *)
Fixpoint symbol_table_lookup (table : SymbolTable) (nm : string) : Z :=
  match table with
  | [] => -1
  | l :: table' =>
      if String.eqb l.(name) nm then l.(address)
      else symbol_table_lookup table' nm
  end.

(** [parse_register], declared to return [uint8_t]: the [-1] of the error returns is
    converted to the return type, hence [u8 (-1)]. *)
Definition parse_register (str : string) : Z :=
  if negb (Ascii.eqb (head str) "X") && negb (Ascii.eqb (head str) "x")
  then u8 (-1)
  else
    let reg := atoi (tail str) in
    if (reg <? 0) || (7 <? reg) then u8 (-1) else u8 reg.

(** [str[0] == 'X' || str[0] == 'x'] *)
Definition starts_with_X (str : string) : bool :=
  Ascii.eqb (head str) "X" || Ascii.eqb (head str) "x".

(** The two passes of [main], which the two C files share but for the
    table capacity and the instruction parser.  [parse_instruction] returns
    the word together with the final value of its [error] out-parameter. *)
Section Passes.

Variable MAX_INSTR : Z.
Variable MAX_LABELS : Z.
Variable parse_instruction : string -> SymbolTable -> Z * bool.

(** Pass 1, from the current line on: the final [pc] and symbol table.
    The status that [symbol_table_add] returns is dropped, as in [main]. *)
Fixpoint pass1 (lines : list string) (inMultiline : bool) (pc : Z)
    (symTable : SymbolTable) : Z * SymbolTable :=
  match lines with
  | [] => (pc, symTable)
  | line :: lines' =>
      if pc <? MAX_INSTR then
        let (line, inMultiline) := strip_comments line inMultiline in
        let linePtr := skip_spaces line in
        if is_empty linePtr then pass1 lines' inMultiline pc symTable
        else if is_label linePtr then
          let labelName := parse_label linePtr in
          pass1 lines' inMultiline pc
            (fst (symbol_table_add MAX_LABELS symTable labelName (u8 pc)))
        else pass1 lines' inMultiline (pc + 1) symTable
      else (pc, symTable)
  end.

(** Pass 2, from the current line on: the emitted words
    ([instructions[0 .. instr_count-1]]) and what was printed on [stderr]. *)
Fixpoint pass2 (symTable : SymbolTable) (lines : list string)
    (inMultiline : bool) (instructions : list Z) (stderr : list string)
  : list Z * list string :=
  match lines with
  | [] => (instructions, stderr)
  | line :: lines' =>
      let instr_count := Z.of_nat (List.length instructions) in
      if instr_count <? MAX_INSTR then
        let (line, inMultiline) := strip_comments line inMultiline in
        let (instr, error) := parse_instruction line symTable in
        if error then
          pass2 symTable lines' inMultiline instructions
            (stderr ++ [("Warning: Failed to parse line: " ++ line)%string])%list
        else
          let linePtr := skip_spaces line in
          if negb (is_empty linePtr) && negb (is_label linePtr) then
            pass2 symTable lines' inMultiline (instructions ++ [instr])%list stderr
          else pass2 symTable lines' inMultiline instructions stderr
      else (instructions, stderr)
  end.

End Passes.

(** [branch_condition], the same enumeration in both files. *)
Inductive branch_condition :=
  | B_UNCOND | B_EQ | B_NE | B_LT | B_LE | B_GT | B_GE | B_CS
  | B_CC | B_MI | B_PL | B_VS | B_VC | B_HI | B_LS.

Definition branch_condition_val (c : branch_condition) : Z :=
  match c with
  | B_UNCOND => 0 | B_EQ => 1 | B_NE => 2 | B_LT => 3 | B_LE => 4
  | B_GT => 5 | B_GE => 6 | B_CS => 7 | B_CC => 8 | B_MI => 9
  | B_PL => 10 | B_VS => 11 | B_VC => 12 | B_HI => 13 | B_LS => 14
  end.

(** The chain of [strcmp]s on a branch mnemonic, [None] when none matches. *)
Definition branch_of_mnemonic (mnemonic : string) : option branch_condition :=
  if String.eqb mnemonic "B" then Some B_UNCOND
  else if String.eqb mnemonic "BEQ" then Some B_EQ
  else if String.eqb mnemonic "BNE" then Some B_NE
  else if String.eqb mnemonic "BLT" then Some B_LT
  else if String.eqb mnemonic "BLE" then Some B_LE
  else if String.eqb mnemonic "BGT" then Some B_GT
  else if String.eqb mnemonic "BGE" then Some B_GE
  else if String.eqb mnemonic "BCS" then Some B_CS
  else if String.eqb mnemonic "BCC" then Some B_CC
  else if String.eqb mnemonic "BMI" then Some B_MI
  else if String.eqb mnemonic "BPL" then Some B_PL
  else if String.eqb mnemonic "BVS" then Some B_VS
  else if String.eqb mnemonic "BVC" then Some B_VC
  else if String.eqb mnemonic "BHI" then Some B_HI
  else if String.eqb mnemonic "BLS" then Some B_LS
  else None.

(** ** [lsasm.c]: the 16-bit assembler *)

Module V1.

Definition MAX_INSTR : Z := 256.
Definition MAX_LABELS : Z := 128.

Inductive opcode :=
  | ALU_AND | ALU_OR | ALU_XOR | ALU_NOT | ALU_ADD | ALU_SUB | ALU_LSL
  | ALU_LSR | MOVE | MEMORY | B | CMP | MEMI | EXIT_OP.

Definition opcode_val (op : opcode) : Z :=
  match op with
  | ALU_AND => 0 | ALU_OR => 1 | ALU_XOR => 2 | ALU_NOT => 3 | ALU_ADD => 4
  | ALU_SUB => 5 | ALU_LSL => 6 | ALU_LSR => 7 | MOVE => 8 | MEMORY => 9
  | B => 10 | CMP => 11 | MEMI => 12 | EXIT_OP => 15
  end.

(** [uint8_t parse_constant(const char* str)] *)
Definition parse_constant (str : string) : Z :=
  let value :=
    if Ascii.eqb (head str) "0" && negb (is_empty (tail str)) then
      if Ascii.eqb (head (tail str)) "x" || Ascii.eqb (head (tail str)) "X"
      then to_int (strtol str 16)
      else if Ascii.eqb (head (tail str)) "b" || Ascii.eqb (head (tail str)) "B"
      then to_int (strtol (tail (tail str)) 2)
      else atoi str
    else atoi str in
  if (value <? 0) || (255 <? value) then u8 (-1) else u8 value.

(** [instr |= e] on a [uint16_t]. *)
Definition or16 (instr e : Z) : Z := u16 (Z.lor instr e).

Definition encode_alu (op : opcode) (dst src1 src2 : Z) (altBit : bool) : Z :=
  let instr := 0 in
  let instr := or16 instr (Z.land (opcode_val op) 0xF) in
  let instr := if altBit then or16 instr 0x0080 else instr in
  let instr := or16 instr (Z.shiftl (Z.land dst 0x7) 4) in
  if negb altBit then
    let instr := or16 instr (Z.shiftl (Z.land src1 0x7) 8) in
    let instr := or16 instr (Z.shiftl (Z.land src2 0x7) 12) in
    instr
  else
    let instr := or16 instr (Z.shiftl (Z.land src1 0xFF) 8) in
    instr.

Definition encode_move (dst src : Z) (altBit : bool) : Z :=
  let instr := 0 in
  let instr := or16 instr (opcode_val MOVE) in
  let instr := or16 instr (Z.shiftl (Z.land dst 0x7) 4) in
  let instr := if altBit then or16 instr 0x0080 else instr in
  if negb altBit then or16 instr (Z.shiftl (Z.land src 0x7) 8)
  else or16 instr (Z.shiftl (Z.land src 0xFF) 8).

Definition encode_memory (dst addr : Z) (altBit : bool) : Z :=
  let instr := 0 in
  let instr := or16 instr (opcode_val MEMORY) in
  let instr := or16 instr (Z.shiftl (Z.land dst 0x7) 4) in
  let instr := if altBit then or16 instr 0x0080 else instr in
  or16 instr (Z.shiftl (Z.land addr 0xFF) 8).

Definition encode_cmp (src1 src2 : Z) (altBit : bool) : Z :=
  let instr := 0 in
  let instr := or16 instr (opcode_val CMP) in
  let instr := or16 instr (Z.shiftl (Z.land src1 0x7) 4) in
  let instr := if altBit then or16 instr 0x0080 else instr in
  if negb altBit then or16 instr (Z.shiftl (Z.land src2 0x7) 8)
  else or16 instr (Z.shiftl (Z.land src2 0xFF) 8).

Definition encode_memi (dataReg addrReg : Z) (altBit : bool) : Z :=
  let instr := 0 in
  let instr := or16 instr (opcode_val MEMI) in
  let instr := or16 instr (Z.shiftl (Z.land dataReg 0x7) 4) in
  let instr := if altBit then or16 instr 0x0080 else instr in
  or16 instr (Z.shiftl (Z.land addrReg 0x7) 8).

Definition encode_b (condition target : Z) : Z :=
  let instr := 0 in
  let instr := or16 instr (opcode_val B) in
  let instr := or16 instr (Z.shiftl (Z.land condition 0xF) 4) in
  or16 instr (Z.shiftl (Z.land target 0xFF) 8).

(** The word and the final value of [*error] (which the caller has cleared). *)
Definition parse_alu_instruction (op : opcode) (operands : string) : Z * bool :=
  match sscanf_s 3 operands with
  | [dst_str; src1_str; src2_str] =>
      let dst := parse_register dst_str in
      let src1 := parse_register src1_str in
      let src2 := parse_register src2_str in
      (encode_alu op dst src1 src2 false, false)
  | _ =>
      match sscanf_s 2 operands with
      | [dst_str; src1_str] =>
          let dst := parse_register dst_str in
          if starts_with_X src1_str then
            let src2 := parse_register src1_str in
            (encode_alu op dst dst src2 false, false)
          else
            let src1 := parse_constant src1_str in
            (encode_alu op dst src1 0 true, false)
      | _ => (0, true)
      end
  end.

(** [READ] and [WRITE] differ only in the ALT bit they pass on. *)
Definition parse_memory (operands : string) (altBit : bool) : Z * bool :=
  match sscanf_s 2 operands with
  | [dst_str; addr_str] =>
      let dst := parse_register dst_str in
      if dst =? -1 then (0, true)
      else if starts_with_X addr_str then
        let addr := parse_register addr_str in
        if addr =? -1 then (0, true) else (encode_memi dst addr altBit, false)
      else
        let addr := parse_constant addr_str in
        if addr =? -1 then (0, true) else (encode_memory dst addr altBit, false)
  | _ => (0, true)
  end.

(** The second half of [parse_instruction]: the chain of [strcmp]s on the
    upper-cased mnemonic, with the operand text that follows it. *)
Definition dispatch (mnemonic operands : string) (symTable : SymbolTable)
  : Z * bool :=
    if String.eqb mnemonic "EXIT" then (opcode_val EXIT_OP, false)
    else if String.eqb mnemonic "AND" then parse_alu_instruction ALU_AND operands
    else if String.eqb mnemonic "OR" then parse_alu_instruction ALU_OR operands
    else if String.eqb mnemonic "XOR" then parse_alu_instruction ALU_XOR operands
    else if String.eqb mnemonic "NOT" then
      match sscanf_s 1 operands with
      | [dst_str] =>
          let dst := parse_register dst_str in
          (encode_alu ALU_NOT dst 0 0 false, false)
      | _ => (0, true)
      end
    else if String.eqb mnemonic "ADD" then parse_alu_instruction ALU_ADD operands
    else if String.eqb mnemonic "SUB" then parse_alu_instruction ALU_SUB operands
    else if String.eqb mnemonic "LSL" then parse_alu_instruction ALU_LSL operands
    else if String.eqb mnemonic "LSR" then parse_alu_instruction ALU_LSR operands
    else if String.eqb mnemonic "CMP" then
      match sscanf_s 2 operands with
      | [src1_str; src2_str] =>
          let src1 := parse_register src1_str in
          if src1 =? -1 then (0, true)
          else if starts_with_X src2_str then
            let src2 := parse_register src2_str in
            if src2 =? -1 then (0, true) else (encode_cmp src1 src2 false, false)
          else
            let src2 := parse_constant src2_str in
            if src2 =? -1 then (0, true) else (encode_cmp src1 src2 true, false)
      | _ => (0, true)
      end
    else if String.eqb mnemonic "MOV" then
      match sscanf_s 2 operands with
      | [dst_str; src_str] =>
          let dst := parse_register dst_str in
          if starts_with_X src_str then
            let src := parse_register src_str in
            (encode_move dst src false, false)
          else
            let src := parse_constant src_str in
            (encode_move dst src true, false)
      | _ => (0, true)
      end
    else if String.eqb mnemonic "READ" then parse_memory operands false
    else if String.eqb mnemonic "WRITE" then parse_memory operands true
    else if Ascii.eqb (head mnemonic) "B" then
      match sscanf_s 1 operands with
      | [target_str] =>
          match branch_of_mnemonic mnemonic with
          | None => (0, true)
          | Some condition =>
              let addr :=
                if isdigit (head target_str) then atoi target_str
                else symbol_table_lookup symTable target_str in
              if (addr <? 0) || (255 <? addr) then (0, true)
              else (encode_b (branch_condition_val condition) (u8 addr), false)
          end
      | _ => (0, true)
      end
    else (0, true).

(** [parse_instruction(line, symTable, &error)]: the word and the final
    value of [error]. *)
Definition parse_instruction (line : string) (symTable : SymbolTable) : Z * bool :=
  let line := skip_spaces line in
  if is_empty line || Ascii.eqb (head line) ";" || Ascii.eqb (head line) "#"
  then (0, false)
  else if is_label line then (0, false)
  else
    let mnemonic := map_string toupper (take_nonspaces line) in
    let operands := skip_spaces (skip_nonspaces line) in
    dispatch mnemonic operands symTable.

(** Both passes of [main] over the buffers [fgets] delivers: the emitted
    words and [stderr]. *)
Definition assemble (lines : list string) : list Z * list string :=
  let symTable := symbol_table_init in
  let '(pc, symTable) :=
    pass1 MAX_INSTR MAX_LABELS lines false 0 symTable in
  pass2 MAX_INSTR parse_instruction symTable lines false [] [].

(** [main] on the contents of the input file, up to the output loop. *)
Definition main (script : string) : list Z * list string :=
  assemble (read_lines script).

End V1.

(** ** [lsasm_v2.c]: the 32-bit assembler *)

Module V2.

Definition MAX_INSTR : Z := 256.
Definition MAX_LABELS : Z := 256.

Inductive opcode :=
  | ALU_AND | ALU_OR | ALU_XOR | ALU_NOT | ALU_ADD | ALU_SUB | ALU_LSL
  | ALU_LSR | ALU_BCD_LOW | ALU_BCD_HIGH
  | MOVE | MOVE_I | CMP | CMP_I | B | B_I
  | READ | READ_I | WRITE | WRITE_I
  | PRINT_REG | PRINT_REG_I | PRINT_CONST | PRINT_CONST_I
  | EXIT_OP.

Definition opcode_val (op : opcode) : Z :=
  match op with
  | ALU_AND => 0x00 | ALU_OR => 0x01 | ALU_XOR => 0x02 | ALU_NOT => 0x03
  | ALU_ADD => 0x04 | ALU_SUB => 0x05 | ALU_LSL => 0x06 | ALU_LSR => 0x07
  | ALU_BCD_LOW => 0x08 | ALU_BCD_HIGH => 0x09
  | MOVE => 0x20 | MOVE_I => 0x21 | CMP => 0x22 | CMP_I => 0x23
  | B => 0x24 | B_I => 0x25
  | READ => 0x26 | READ_I => 0x27 | WRITE => 0x28 | WRITE_I => 0x29
  | PRINT_REG => 0x2A | PRINT_REG_I => 0x2B
  | PRINT_CONST => 0x2C | PRINT_CONST_I => 0x2D
  | EXIT_OP => 0xFFFF
  end.

(** [uint16_t parse_constant(const char* str)]; a character read past the
    terminating NUL of a short token is taken to be NUL. *)
Definition parse_constant (str : string) : Z :=
  if Ascii.eqb (head str) "'" && Ascii.eqb (head (tail (tail str))) "'"
     && is_empty (tail (tail (tail str)))
  then u16 (code (head (tail str)))
  else
    let value :=
      if Ascii.eqb (head str) "0" && negb (is_empty (tail str)) then
        if Ascii.eqb (head (tail str)) "x" || Ascii.eqb (head (tail str)) "X"
        then to_int (strtol str 16)
        else if Ascii.eqb (head (tail str)) "b" || Ascii.eqb (head (tail str)) "B"
        then to_int (strtol (tail (tail str)) 2)
        else atoi str
      else atoi str in
    if (value <? 0) || (65535 <? value) then u16 (-1) else u16 value.

(** [instr |= e] on a [uint32_t]. *)
Definition or32 (instr e : Z) : Z := u32 (Z.lor instr e).

Definition encode_alu (op : opcode) (dst src1 src2 : Z) (altBit : bool) : Z :=
  let instr := 0 in
  let actual_opcode :=
    u8 (if altBit then Z.lor (opcode_val op) 0x10 else opcode_val op) in
  let instr := or32 instr actual_opcode in
  let instr := or32 instr (Z.shiftl (Z.land dst 0x7) 8) in
  if negb altBit then
    let instr := or32 instr (Z.shiftl (Z.land src1 0x7) 12) in
    let instr := or32 instr (Z.shiftl (Z.land src2 0x7) 16) in
    instr
  else
    let instr := or32 instr (Z.shiftl (Z.land src1 0x7) 12) in
    let instr := or32 instr (Z.shiftl (Z.land src2 0xFFFF) 16) in
    instr.

Definition encode_move (dst src_or_imm : Z) (altBit : bool) : Z :=
  let instr := 0 in
  let instr :=
    if altBit then or32 instr (opcode_val MOVE_I)
    else or32 instr (opcode_val MOVE) in
  let instr := or32 instr (Z.shiftl (Z.land dst 0x7) 8) in
  if negb altBit then or32 instr (Z.shiftl (Z.land src_or_imm 0x7) 12)
  else or32 instr (Z.shiftl (Z.land src_or_imm 0xFFFF) 16).

Definition encode_cmp (src1 src2 : Z) (altBit : bool) : Z :=
  let instr := 0 in
  let actual_opcode := u8 (if altBit then opcode_val CMP_I else opcode_val CMP) in
  let instr := or32 instr actual_opcode in
  if negb altBit then
    let instr := or32 instr (Z.shiftl (Z.land src1 0x7) 12) in
    let instr := or32 instr (Z.shiftl (Z.land src2 0x7) 16) in
    instr
  else
    let instr := or32 instr (Z.shiftl (Z.land src1 0x7) 12) in
    let instr := or32 instr (Z.shiftl (Z.land src2 0xFFFF) 16) in
    instr.

Definition parse_branch_condition (mnemonic : string) : Z :=
  match branch_of_mnemonic mnemonic with
  | Some c => branch_condition_val c
  | None => -1
  end.

Definition encode_branch (condition target : Z) (is_immediate : bool) : Z :=
  let instr := 0 in
  if is_immediate then
    let instr := or32 instr (opcode_val B_I) in
    let instr := or32 instr (Z.shiftl (Z.land condition 0xF) 8) in
    let instr := or32 instr (Z.shiftl (Z.land target 0xFFFF) 16) in
    instr
  else
    let instr := or32 instr (opcode_val B) in
    let instr := or32 instr (Z.shiftl (Z.land condition 0xF) 8) in
    let instr := or32 instr (Z.shiftl (Z.land target 0x7) 16) in
    instr.

Definition encode_read (dst addr_reg : Z) : Z :=
  let instr := 0 in
  let instr := or32 instr (opcode_val READ) in
  let instr := or32 instr (Z.shiftl (Z.land dst 0x7) 8) in
  or32 instr (Z.shiftl (Z.land addr_reg 0x7) 16).

Definition encode_read_i (dst addr_imm : Z) : Z :=
  let instr := 0 in
  let instr := or32 instr (opcode_val READ_I) in
  let instr := or32 instr (Z.shiftl (Z.land dst 0x7) 8) in
  or32 instr (Z.shiftl (Z.land addr_imm 0xF) 16).

Definition encode_write (data_reg addr_reg : Z) : Z :=
  let instr := 0 in
  let instr := or32 instr (opcode_val WRITE) in
  let instr := or32 instr (Z.shiftl (Z.land data_reg 0x7) 12) in
  or32 instr (Z.shiftl (Z.land addr_reg 0x7) 16).

Definition encode_write_i (data_reg addr_imm : Z) : Z :=
  let instr := 0 in
  let instr := or32 instr (opcode_val WRITE_I) in
  let instr := or32 instr (Z.shiftl (Z.land data_reg 0x7) 12) in
  or32 instr (Z.shiftl (Z.land addr_imm 0xF) 16).

Definition encode_print_reg (data_reg pos_reg : Z) : Z :=
  let instr := 0 in
  let instr := or32 instr (opcode_val PRINT_REG) in
  let instr := or32 instr (Z.shiftl (Z.land data_reg 0x7) 12) in
  or32 instr (Z.shiftl (Z.land pos_reg 0x7) 16).

Definition encode_print_reg_i (data_reg pos_imm : Z) : Z :=
  let instr := 0 in
  let instr := or32 instr (opcode_val PRINT_REG_I) in
  let instr := or32 instr (Z.shiftl (Z.land data_reg 0x7) 12) in
  or32 instr (Z.shiftl (Z.land pos_imm 0xFF) 24).

Definition encode_print_const (data_const pos_reg : Z) : Z :=
  let instr := 0 in
  let instr := or32 instr (opcode_val PRINT_CONST) in
  let instr := or32 instr (Z.shiftl (Z.land data_const 0x7) 12) in
  or32 instr (Z.shiftl (Z.land pos_reg 0x7) 16).

Definition encode_print_const_i (data_const pos_imm : Z) : Z :=
  let instr := 0 in
  let instr := or32 instr (opcode_val PRINT_CONST_I) in
  let instr := or32 instr (Z.shiftl (Z.land data_const 0xFF) 16) in
  or32 instr (Z.shiftl (Z.land pos_imm 0xFF) 24).

(** The 16-bit [encode_b] that the file still carries. *)
Definition encode_b (condition target : Z) : Z :=
  let instr := 0 in
  let instr := u16 (Z.lor instr (opcode_val B)) in
  let instr := u16 (Z.lor instr (Z.shiftl (Z.land condition 0xF) 4)) in
  u16 (Z.lor instr (Z.shiftl (Z.land target 0xFF) 8)).

(** The loop that turns every comma of the operand copy into a space. *)
Definition commas_to_spaces (operands : string) : string :=
  map_string (fun c => if Ascii.eqb c "," then " "%char else c)
    (strncpy 255 operands).

Definition parse_alu_instruction (op : opcode) (operands : string) : Z * bool :=
  let temp_operands := commas_to_spaces operands in
  match sscanf_s 3 temp_operands with
  | [dst_str; src1_str; src2_str] =>
      let dst := parse_register dst_str in
      let src1 := parse_register src1_str in
      if starts_with_X src2_str then
        let src2 := parse_register src2_str in
        (encode_alu op dst src1 src2 false, false)
      else
        let src2 := parse_constant src2_str in
        (encode_alu op dst src1 src2 true, false)
  | _ =>
      match sscanf_s 2 temp_operands with
      | [dst_str; src1_str] =>
          let dst := parse_register dst_str in
          if starts_with_X src1_str then
            let src2 := parse_register src1_str in
            (encode_alu op dst dst src2 false, false)
          else
            let src1 := parse_constant src1_str in
            (encode_alu op dst src1 0 true, false)
      | _ => (0, true)
      end
  end.

Definition parse_print (operands : string) : Z * bool :=
  let temp_operands := commas_to_spaces operands in
  match sscanf_s 2 temp_operands with
  | [addr_str; code_str] =>
      let is_addr_reg := starts_with_X addr_str in
      let is_code_reg := starts_with_X code_str in
      if is_addr_reg && is_code_reg then
        let addr_reg := parse_register addr_str in
        let code_reg := parse_register code_str in
        if (addr_reg =? -1) || (code_reg =? -1) then (0, true)
        else (encode_print_reg code_reg addr_reg, false)
      else if negb is_addr_reg && is_code_reg then
        let addr_imm := parse_constant addr_str in
        let code_reg := parse_register code_str in
        if (addr_imm =? -1) || (code_reg =? -1) then (0, true)
        else if 255 <? addr_imm then (0, true)
        else (encode_print_reg_i code_reg (u8 addr_imm), false)
      else if is_addr_reg && negb is_code_reg then
        let addr_reg := parse_register addr_str in
        let code_const := parse_constant code_str in
        if (addr_reg =? -1) || (code_const =? -1) then (0, true)
        else if 7 <? code_const then (0, true)
        else (encode_print_const (u8 code_const) addr_reg, false)
      else
        let addr_imm := parse_constant addr_str in
        let code_const := parse_constant code_str in
        if (addr_imm =? -1) || (code_const =? -1) then (0, true)
        else if (255 <? addr_imm) || (255 <? code_const) then (0, true)
        else (encode_print_const_i code_const (u8 addr_imm), false)
  | _ => (0, true)
  end.

(** The second half of [parse_instruction]: the chain of [strcmp]s on the
    upper-cased mnemonic, with the operand text that follows it. *)
Definition dispatch (mnemonic operands : string) (symTable : SymbolTable)
  : Z * bool :=
    if String.eqb mnemonic "EXIT" then (0xFFFF, false)
    else if String.eqb mnemonic "AND" then parse_alu_instruction ALU_AND operands
    else if String.eqb mnemonic "OR" then parse_alu_instruction ALU_OR operands
    else if String.eqb mnemonic "XOR" then parse_alu_instruction ALU_XOR operands
    else if String.eqb mnemonic "NOT" then
      match sscanf_s 1 operands with
      | [dst_str] =>
          let dst := parse_register dst_str in
          (encode_alu ALU_NOT dst 0 0 false, false)
      | _ => (0, true)
      end
    else if String.eqb mnemonic "ADD" then parse_alu_instruction ALU_ADD operands
    else if String.eqb mnemonic "SUB" then parse_alu_instruction ALU_SUB operands
    else if String.eqb mnemonic "LSL" then parse_alu_instruction ALU_LSL operands
    else if String.eqb mnemonic "LSR" then parse_alu_instruction ALU_LSR operands
    else if String.eqb mnemonic "CMP" then
      match sscanf_s 2 operands with
      | [src1_str; src2_str] =>
          let src1 := parse_register src1_str in
          if src1 =? -1 then (0, true)
          else if starts_with_X src2_str then
            let src2 := u16 (parse_register src2_str) in
            if src2 =? -1 then (0, true) else (encode_cmp src1 src2 false, false)
          else
            let src2 := parse_constant src2_str in
            if src2 =? -1 then (0, true) else (encode_cmp src1 src2 true, false)
      | _ => (0, true)
      end
    else if String.eqb mnemonic "MOV" then
      match sscanf_s 2 operands with
      | [dst_str; src_str] =>
          let dst := parse_register dst_str in
          if starts_with_X src_str then
            let src := u16 (parse_register src_str) in
            (encode_move dst src false, false)
          else
            let src := parse_constant src_str in
            (encode_move dst src true, false)
      | _ => (0, true)
      end
    else
      let condition := parse_branch_condition mnemonic in
      if 0 <=? condition then
        match sscanf_s 1 operands with
        | [target_str] =>
            if starts_with_X target_str then
              let reg := atoi (tail target_str) in
              if (reg <? 0) || (7 <? reg) then (0, true)
              else
                let target := u16 reg in
                (encode_branch (u8 condition) target false, false)
            else
              let target := u16 (atoi target_str) in
              if (target =? 0) && negb (Ascii.eqb (head target_str) "0") then
                let addr := symbol_table_lookup symTable target_str in
                if addr <? 0 then (0, true)
                else
                  let target := u16 addr in
                  if 65535 <? target then (0, true)
                  else (encode_branch (u8 condition) target true, false)
              else if 65535 <? target then (0, true)
              else (encode_branch (u8 condition) target true, false)
        | _ => (0, true)
        end
      else if String.eqb mnemonic "READ" then
        match sscanf_s 2 operands with
        | [dst_str; addr_str] =>
            let dst := parse_register dst_str in
            if dst =? -1 then (0, true)
            else if starts_with_X addr_str then
              let addr_reg := parse_register addr_str in
              if addr_reg =? -1 then (0, true)
              else (encode_read dst addr_reg, false)
            else
              let addr_imm := atoi addr_str in
              if (addr_imm <? 0) || (15 <? addr_imm) then (0, true)
              else (encode_read_i dst (u8 addr_imm), false)
        | _ => (0, true)
        end
      else if String.eqb mnemonic "WRITE" then
        match sscanf_s 2 operands with
        | [data_str; addr_str] =>
            let data_reg := parse_register data_str in
            if data_reg =? -1 then (0, true)
            else if starts_with_X addr_str then
              let addr_reg := parse_register addr_str in
              if addr_reg =? -1 then (0, true)
              else (encode_write data_reg addr_reg, false)
            else
              let addr_imm := atoi addr_str in
              if (addr_imm <? 0) || (15 <? addr_imm) then (0, true)
              else (encode_write_i data_reg (u8 addr_imm), false)
        | _ => (0, true)
        end
      else if String.eqb mnemonic "PRINT" then parse_print operands
      else if Ascii.eqb (head mnemonic) "B" then
        match sscanf_s 1 operands with
        | [target_str] =>
            match branch_of_mnemonic mnemonic with
            | None => (0, true)
            | Some condition =>
                let addr :=
                  if isdigit (head target_str) then atoi target_str
                  else symbol_table_lookup symTable target_str in
                if (addr <? 0) || (255 <? addr) then (0, true)
                else (encode_b (branch_condition_val condition) (u8 addr), false)
            end
        | _ => (0, true)
        end
      else (0, true).

(** [parse_instruction(line, symTable, &error)]: the word and the final
    value of [error]. *)
Definition parse_instruction (line : string) (symTable : SymbolTable) : Z * bool :=
  let line := skip_spaces line in
  if is_empty line || Ascii.eqb (head line) ";" || Ascii.eqb (head line) "#"
  then (0, false)
  else if is_label line then (0, false)
  else
    let mnemonic := map_string toupper (take_nonspaces line) in
    let operands := skip_spaces (skip_nonspaces line) in
    dispatch mnemonic operands symTable.

(** [rom[i] = v] for an index inside the array. *)
Fixpoint store (i : nat) (v : Z) (rom : list Z) : list Z :=
  match rom, i with
  | [], _ => []
  | _ :: rom', O => v :: rom'
  | x :: rom', S i' => x :: store i' v rom'
  end.

(** The splitting loop of [main] with [n] iterations left, at index [i]. *)
Fixpoint split_loop (n : nat) (i : nat) (instructions : list Z)
    (alpha_rom beta_rom : list Z) : list Z * list Z :=
  match n with
  | O => (alpha_rom, beta_rom)
  | S n' =>
      let w := nth i instructions 0 in
      let alpha_rom := store i (u16 (Z.land (Z.shiftr w 16) 0xFFFF)) alpha_rom in
      let beta_rom := store i (u16 (Z.land w 0xFFFF)) beta_rom in
      split_loop n' (S i) instructions alpha_rom beta_rom
  end.

(** [alpha_rom] and [beta_rom] as [main] hands them to [write_rom_file]. *)
Definition split (instructions : list Z) : list Z * list Z :=
  let alpha_rom := repeat 0 256 in
  let beta_rom := repeat 0 256 in
  split_loop (List.length instructions) 0 instructions alpha_rom beta_rom.

(** Both passes of [main] over the buffers [fgets] delivers: the emitted
    words and [stderr]. *)
Definition assemble (lines : list string) : list Z * list string :=
  let symTable := symbol_table_init in
  let '(pc, symTable) :=
    pass1 MAX_INSTR MAX_LABELS lines false 0 symTable in
  pass2 MAX_INSTR parse_instruction symTable lines false [] [].

(** [main] on the contents of the input file, up to the two
    [write_rom_file] calls: the ALPHA bank, the BETA bank and [stderr]. *)
Definition main (script : string) : list Z * list Z * list string :=
  let (instructions, stderr) := assemble (read_lines script) in
  (split instructions, stderr).

End V2.


(** ** [IsaSpec.hpp]: the instruction catalogue

    The types of the namespace [IsaSpec] and the catalogue that
    [generateISASpec()] builds.  Of [ISA_SPEC] the fields that the tools read
    are kept ([version], [instructions_tech], [branch_conditions]); the
    documentation table, the two lookup maps and the [architecture] numbers
    are left out, and of an [ALUDef] entry the technical suffix and the
    mnemonic.  The two structs both have a field [mnemonic] and, as [Label]
    has, a field [name]: those of [BranchCondition] carry its name in
    front. *)

Module IsaSpec.

Inductive InstructionType :=
  | TYPE_ALU | TYPE_FPU | TYPE_MOVE | TYPE_CMP | TYPE_BRANCH | TYPE_MEMORY
  | TYPE_PRINT_REG | TYPE_PRINT_CONST | TYPE_SERVICE.

(** The value of each enumerator. *)
Definition InstructionType_val (t : InstructionType) : Z :=
  match t with
  | TYPE_ALU => 0 | TYPE_FPU => 1 | TYPE_MOVE => 2 | TYPE_CMP => 3
  | TYPE_BRANCH => 4 | TYPE_MEMORY => 5 | TYPE_PRINT_REG => 6
  | TYPE_PRINT_CONST => 7 | TYPE_SERVICE => 8
  end.

(** [==] on [InstructionType]. *)
Definition InstructionType_eqb (a b : InstructionType) : bool :=
  match a, b with
  | TYPE_ALU, TYPE_ALU | TYPE_FPU, TYPE_FPU | TYPE_MOVE, TYPE_MOVE
  | TYPE_CMP, TYPE_CMP | TYPE_BRANCH, TYPE_BRANCH | TYPE_MEMORY, TYPE_MEMORY
  | TYPE_PRINT_REG, TYPE_PRINT_REG | TYPE_PRINT_CONST, TYPE_PRINT_CONST
  | TYPE_SERVICE, TYPE_SERVICE => true
  | _, _ => false
  end.

(** [enum class Format { R, I, J, JI }] *)
Inductive Format := R | I | J | JI.

Record InstructionFlags := {
  VALID : bool;
  TRY_WRITE : bool;
  TRY_READ_A : bool;
  TRY_READ_B : bool;
  OVERRIDE_B : bool;
  OVERRIDE_WRITE : bool;
  IMMEDIATE : bool
}.

Record InstructionTech := {
  technical_name : string;
  mnemonic : string;
  opcode : Z;
  format : Format;
  type : InstructionType;
  flags : InstructionFlags
}.

Record BranchCondition := {
  branch_mnemonic : string;
  code : Z;
  branch_name : string;
  description : string
}.

Record ISA_SPEC := {
  version : string;
  instructions_tech : list InstructionTech;
  branch_conditions : list BranchCondition
}.

(** [std::to_string] of a non-negative [int]. *)
Definition to_string (x : Z) : string :=
  NilEmpty.string_of_uint (N.to_uint (Z.to_N x)).

(** [instructions_tech.emplace_back(tech_name, mnem, op, fmt, typ, flg)],
    with the conversion of [op] to the [uint8_t] parameter. *)
Definition emplace_back (instructions_tech : list InstructionTech)
    (tech_name mnem : string) (op : Z) (fmt : Format) (typ : InstructionType)
    (flg : InstructionFlags) : list InstructionTech :=
  instructions_tech
  ++ [ {| technical_name := tech_name; mnemonic := mnem; opcode := u8 op;
          format := fmt; type := typ; flags := flg |} ].

(** [branch_conditions.emplace_back(mnem, c, n, desc)] *)
Definition emplace_back_branch (branch_conditions : list BranchCondition)
    (mnem : string) (c : Z) (n desc : string) : list BranchCondition :=
  branch_conditions
  ++ [ {| branch_mnemonic := mnem; code := u8 c; branch_name := n;
          description := desc |} ].

(** The flag sets that [generateISASpec] declares. *)
Definition aluRegFlags : InstructionFlags :=
  {| VALID := true; TRY_WRITE := true; TRY_READ_A := true; TRY_READ_B := true;
     OVERRIDE_B := false; OVERRIDE_WRITE := false; IMMEDIATE := false |}.

Definition aluImmFlags : InstructionFlags :=
  {| VALID := true; TRY_WRITE := true; TRY_READ_A := true; TRY_READ_B := false;
     OVERRIDE_B := true; OVERRIDE_WRITE := false; IMMEDIATE := true |}.

Definition fpuRegFlags : InstructionFlags :=
  {| VALID := true; TRY_WRITE := true; TRY_READ_A := true; TRY_READ_B := true;
     OVERRIDE_B := false; OVERRIDE_WRITE := false; IMMEDIATE := false |}.

Definition fpuImmFlags : InstructionFlags :=
  {| VALID := true; TRY_WRITE := true; TRY_READ_A := true; TRY_READ_B := false;
     OVERRIDE_B := true; OVERRIDE_WRITE := false; IMMEDIATE := true |}.

Definition moveRegFlags : InstructionFlags :=
  {| VALID := true; TRY_WRITE := true; TRY_READ_A := true; TRY_READ_B := true;
     OVERRIDE_B := false; OVERRIDE_WRITE := false; IMMEDIATE := false |}.

Definition moveImmFlags : InstructionFlags :=
  {| VALID := true; TRY_WRITE := true; TRY_READ_A := true; TRY_READ_B := false;
     OVERRIDE_B := true; OVERRIDE_WRITE := true; IMMEDIATE := true |}.

Definition cmpRegFlags : InstructionFlags :=
  {| VALID := true; TRY_WRITE := false; TRY_READ_A := true; TRY_READ_B := true;
     OVERRIDE_B := false; OVERRIDE_WRITE := false; IMMEDIATE := false |}.

Definition cmpImmFlags : InstructionFlags :=
  {| VALID := true; TRY_WRITE := false; TRY_READ_A := true; TRY_READ_B := false;
     OVERRIDE_B := true; OVERRIDE_WRITE := false; IMMEDIATE := true |}.

Definition branchRegFlags : InstructionFlags :=
  {| VALID := true; TRY_WRITE := false; TRY_READ_A := false; TRY_READ_B := true;
     OVERRIDE_B := false; OVERRIDE_WRITE := false; IMMEDIATE := false |}.

Definition branchImmFlags : InstructionFlags :=
  {| VALID := true; TRY_WRITE := false; TRY_READ_A := false; TRY_READ_B := false;
     OVERRIDE_B := true; OVERRIDE_WRITE := false; IMMEDIATE := true |}.

Definition readRegFlags : InstructionFlags :=
  {| VALID := true; TRY_WRITE := true; TRY_READ_A := false; TRY_READ_B := true;
     OVERRIDE_B := false; OVERRIDE_WRITE := false; IMMEDIATE := false |}.

Definition readImmFlags : InstructionFlags :=
  {| VALID := true; TRY_WRITE := true; TRY_READ_A := false; TRY_READ_B := false;
     OVERRIDE_B := true; OVERRIDE_WRITE := false; IMMEDIATE := true |}.

Definition writeRegFlags : InstructionFlags :=
  {| VALID := true; TRY_WRITE := false; TRY_READ_A := true; TRY_READ_B := true;
     OVERRIDE_B := false; OVERRIDE_WRITE := false; IMMEDIATE := false |}.

Definition writeImmFlags : InstructionFlags :=
  {| VALID := true; TRY_WRITE := false; TRY_READ_A := true; TRY_READ_B := false;
     OVERRIDE_B := true; OVERRIDE_WRITE := false; IMMEDIATE := true |}.

Definition printRegRegFlags : InstructionFlags :=
  {| VALID := true; TRY_WRITE := false; TRY_READ_A := true; TRY_READ_B := true;
     OVERRIDE_B := false; OVERRIDE_WRITE := false; IMMEDIATE := false |}.

Definition printRegImmFlags : InstructionFlags :=
  {| VALID := true; TRY_WRITE := false; TRY_READ_A := true; TRY_READ_B := false;
     OVERRIDE_B := true; OVERRIDE_WRITE := false; IMMEDIATE := true |}.

Definition printConstRegFlags : InstructionFlags :=
  {| VALID := true; TRY_WRITE := false; TRY_READ_A := false; TRY_READ_B := true;
     OVERRIDE_B := false; OVERRIDE_WRITE := true; IMMEDIATE := false |}.

Definition printConstImmFlags : InstructionFlags :=
  {| VALID := true; TRY_WRITE := false; TRY_READ_A := false; TRY_READ_B := false;
     OVERRIDE_B := true; OVERRIDE_WRITE := true; IMMEDIATE := true |}.

Definition exitFlags : InstructionFlags :=
  {| VALID := true; TRY_WRITE := false; TRY_READ_A := false; TRY_READ_B := false;
     OVERRIDE_B := false; OVERRIDE_WRITE := false; IMMEDIATE := false |}.

(** [aluOps]: [tech_suffix] and [mnemonic] of the sixteen entries. *)
Definition aluOps : list (string * string) :=
  [("AND", "AND"); ("OR", "OR"); ("XOR", "XOR"); ("NOT", "NOT");
   ("ADD", "ADD"); ("SUB", "SUB"); ("LSL", "LSL"); ("LSR", "LSR");
   ("BCDL", "BCDL"); ("BCDH", "BCDH"); ("UMUL_L", "UMUL_L");
   ("UMUL_H", "UMUL_H"); ("MUL_L", "MUL_L"); ("MUL_H", "MUL_H");
   ("NUL0E", "NUL0E"); ("NUL0F", "NUL0F")].

(** The loop that generates the ALU instructions, with [n] iterations
    left, at index [i]. *)
Fixpoint alu_loop (n : nat) (i : nat) (instructions_tech : list InstructionTech)
  : list InstructionTech :=
  match n with
  | O => instructions_tech
  | S n' =>
      let tech_suffix := fst (nth i aluOps (EmptyString, EmptyString)) in
      let mnem := snd (nth i aluOps (EmptyString, EmptyString)) in
      let techNameReg := ("ALU_" ++ tech_suffix)%string in
      let instructions_tech :=
        emplace_back instructions_tech techNameReg mnem (0x00 + Z.of_nat i)
          R TYPE_ALU aluRegFlags in
      let techNameImm := ("ALU_" ++ tech_suffix ++ "_I")%string in
      let instructions_tech :=
        emplace_back instructions_tech techNameImm mnem (0x10 + Z.of_nat i)
          I TYPE_ALU aluImmFlags in
      alu_loop n' (S i) instructions_tech
  end.

(** The loop that generates the FPU placeholders. *)
Fixpoint fpu_loop (n : nat) (i : nat) (instructions_tech : list InstructionTech)
  : list InstructionTech :=
  match n with
  | O => instructions_tech
  | S n' =>
      let techNameReg := ("FPU_NUL" ++ to_string (0x20 + Z.of_nat i))%string in
      let mnemonicReg := ("FNUL" ++ to_string (Z.of_nat i))%string in
      let instructions_tech :=
        emplace_back instructions_tech techNameReg mnemonicReg
          (0x20 + Z.of_nat i) R TYPE_FPU fpuRegFlags in
      let techNameImm :=
        ("FPU_NUL" ++ to_string (0x30 + Z.of_nat i) ++ "_I")%string in
      let mnemonicImm := ("FNUL" ++ to_string (Z.of_nat i))%string in
      let instructions_tech :=
        emplace_back instructions_tech techNameImm mnemonicImm
          (0x30 + Z.of_nat i) I TYPE_FPU fpuImmFlags in
      fpu_loop n' (S i) instructions_tech
  end.

Definition generateISASpec : ISA_SPEC :=
  let tech := [] in
  let tech := alu_loop 16 0 tech in
  let tech := fpu_loop 16 0 tech in
  let tech := emplace_back tech "MOVE" "MOV" 0x40 R TYPE_MOVE moveRegFlags in
  let tech := emplace_back tech "MOVE_I" "MOV" 0x41 I TYPE_MOVE moveImmFlags in
  let tech := emplace_back tech "CMP" "CMP" 0x42 R TYPE_CMP cmpRegFlags in
  let tech := emplace_back tech "CMP_I" "CMP" 0x43 I TYPE_CMP cmpImmFlags in
  let tech :=
    emplace_back tech "BRANCH" "B" 0x44 J TYPE_BRANCH branchRegFlags in
  let tech :=
    emplace_back tech "BRANCH_I" "B" 0x45 JI TYPE_BRANCH branchImmFlags in
  let tech := emplace_back tech "READ" "READ" 0x46 R TYPE_MEMORY readRegFlags in
  let tech :=
    emplace_back tech "READ_I" "READ" 0x47 I TYPE_MEMORY readImmFlags in
  let tech :=
    emplace_back tech "WRITE" "WRITE" 0x48 R TYPE_MEMORY writeRegFlags in
  let tech :=
    emplace_back tech "WRITE_I" "WRITE" 0x49 I TYPE_MEMORY writeImmFlags in
  let tech :=
    emplace_back tech "PRINT_REG" "PRINT" 0x4A R TYPE_PRINT_REG
      printRegRegFlags in
  let tech :=
    emplace_back tech "PRINT_REG_I" "PRINT" 0x4B I TYPE_PRINT_REG
      printRegImmFlags in
  let tech :=
    emplace_back tech "PRINT_CNS" "PRINT" 0x4C R TYPE_PRINT_CONST
      printConstRegFlags in
  let tech :=
    emplace_back tech "PRINT_CNS_I" "PRINT" 0x4D I TYPE_PRINT_CONST
      printConstImmFlags in
  let tech := emplace_back tech "EXIT" "EXIT" 0xFF R TYPE_SERVICE exitFlags in
  let branches := [] in
  let branches := emplace_back_branch branches "B" 0 "Unconditional" "Always branch" in
  let branches :=
    emplace_back_branch branches "BEQ" 1 "Equal" "Branch if equal (Z set)" in
  let branches :=
    emplace_back_branch branches "BNE" 2 "Not Equal"
      "Branch if not equal (Z clear)" in
  let branches :=
    emplace_back_branch branches "BLT" 3 "Less Than" "Branch if less than (N set)" in
  let branches :=
    emplace_back_branch branches "BLE" 4 "Less or Equal"
      "Branch if less than or equal (N set or Z set)" in
  let branches :=
    emplace_back_branch branches "BGT" 5 "Greater Than"
      "Branch if greater than (N clear and Z clear)" in
  let branches :=
    emplace_back_branch branches "BGE" 6 "Greater or Equal"
      "Branch if greater than or equal (N clear)" in
  let branches :=
    emplace_back_branch branches "BCS" 7 "Carry Set" "Branch if carry set (C set)" in
  let branches :=
    emplace_back_branch branches "BCC" 8 "Carry Clear"
      "Branch if carry clear (C clear)" in
  let branches :=
    emplace_back_branch branches "BMI" 9 "Minus" "Branch if negative (N set)" in
  let branches :=
    emplace_back_branch branches "BPL" 10 "Plus" "Branch if positive (N clear)" in
  let branches :=
    emplace_back_branch branches "BVS" 11 "Overflow Set"
      "Branch if overflow set (V set)" in
  let branches :=
    emplace_back_branch branches "BVC" 12 "Overflow Clear"
      "Branch if overflow clear (V clear)" in
  let branches :=
    emplace_back_branch branches "BHI" 13 "Higher" "Branch if higher (unsigned)" in
  let branches :=
    emplace_back_branch branches "BLS" 14 "Lower or Same"
      "Branch if lower or same (unsigned)" in
  {| version := "2.0"; instructions_tech := tech; branch_conditions := branches |}.

End IsaSpec.

(** ** [gate_computer_toolset.cpp]: the assembler of the interactive tool

    [class AssemblerTool].  Its methods read the member [isaSpec], which the
    constructor sets to [IsaSpec::generateISASpec()] and nothing changes:
    the two tables of that member are the arguments [instructions_tech] and
    [branch_conditions] of the methods below, and [isaSpec] is the value the
    constructor gives them.  [std::string]s are [string]s, [int] results
    keep their sign, and the conversions to the [uint8_t] and [uint16_t]
    parameters of the encoders are written at the calls. *)

Module AssemblerTool.

(** [struct RegisterAlias] *)
Record RegisterAlias := { alias : string; registerName : string }.

Section Catalogue.

Variable instructions_tech : list IsaSpec.InstructionTech.
Variable branch_conditions : list IsaSpec.BranchCondition.

Fixpoint isAluOperation_in (table : list IsaSpec.InstructionTech)
    (mnem : string) : bool :=
  match table with
  | [] => false
  | instr :: table' =>
      if String.eqb instr.(IsaSpec.mnemonic) mnem
         && IsaSpec.InstructionType_eqb instr.(IsaSpec.type) IsaSpec.TYPE_ALU
      then true
      else isAluOperation_in table' mnem
  end.

Definition isAluOperation (mnem : string) : bool :=
  isAluOperation_in instructions_tech mnem.

Fixpoint findOpcode_in (table : list IsaSpec.InstructionTech) (mnem : string)
    (immediate : bool) : Z :=
  match table with
  | [] => 0xFF
  | instr :: table' =>
      if String.eqb instr.(IsaSpec.mnemonic) mnem
         && Bool.eqb instr.(IsaSpec.flags).(IsaSpec.IMMEDIATE) immediate
      then u8 instr.(IsaSpec.opcode)
      else findOpcode_in table' mnem immediate
  end.

Definition findOpcode (mnem : string) (immediate : bool) : Z :=
  findOpcode_in instructions_tech mnem immediate.

Fixpoint findOpcodeByType_in (table : list IsaSpec.InstructionTech) (mnem : string)
    (ty : IsaSpec.InstructionType) (immediate : bool) : Z :=
  match table with
  | [] => 0xFF
  | instr :: table' =>
      if String.eqb instr.(IsaSpec.mnemonic) mnem
         && IsaSpec.InstructionType_eqb instr.(IsaSpec.type) ty
         && Bool.eqb instr.(IsaSpec.flags).(IsaSpec.IMMEDIATE) immediate
      then u8 instr.(IsaSpec.opcode)
      else findOpcodeByType_in table' mnem ty immediate
  end.

Definition findOpcodeByType (mnem : string) (ty : IsaSpec.InstructionType)
    (immediate : bool) : Z :=
  findOpcodeByType_in instructions_tech mnem ty immediate.

Fixpoint findBranchCondition_in (table : list IsaSpec.BranchCondition)
    (mnem : string) : Z :=
  match table with
  | [] => -1
  | branch :: table' =>
      if String.eqb branch.(IsaSpec.branch_mnemonic) mnem
      then branch.(IsaSpec.code)
      else findBranchCondition_in table' mnem
  end.

Definition findBranchCondition (mnem : string) : Z :=
  findBranchCondition_in branch_conditions mnem.

Definition parseBranchCondition (mnem : string) : Z := findBranchCondition mnem.

Definition isalnum (c : ascii) : bool := isalpha c || isdigit c.

Definition reserved : list string :=
  ["MOV"; "CMP"; "B"; "BEQ"; "BNE"; "BLT"; "BLE"; "BGT"; "BGE";
   "BCS"; "BCC"; "BMI"; "BPL"; "BVS"; "BVC"; "BHI"; "BLS";
   "READ"; "WRITE"; "PRINT"; "EXIT"; "NOT"].

Fixpoint all_alnum (nm : string) : bool :=
  match nm with
  | EmptyString => true
  | String c nm' =>
      if negb (isalnum c) && negb (Ascii.eqb c "_") then false else all_alnum nm'
  end.

Definition isValidAliasName (nm : string) : bool :=
  if is_empty nm then false
  else if negb (all_alnum nm) then false
  else if isAluOperation nm then false
  else if existsb (String.eqb nm) reserved then false
  else true.

Fixpoint resolveAlias (aliasTable : list RegisterAlias) (str : string) : string :=
  match aliasTable with
  | [] => str
  | a :: aliasTable' =>
      if String.eqb a.(alias) str then a.(registerName)
      else resolveAlias aliasTable' str
  end.

(** [int parseRegister(const std::string&)] *)
Definition parseRegister (aliasTable : list RegisterAlias) (str : string) : Z :=
  let resolved := resolveAlias aliasTable str in
  if (String.length resolved <? 2)%nat then -1
  else if negb (Ascii.eqb (head resolved) "X") && negb (Ascii.eqb (head resolved) "x")
  then -1
  else
    let reg := atoi (tail resolved) in
    if (reg <? 0) || (7 <? reg) then -1 else reg.

(** [int parseConstant(const std::string&)] *)
Definition parseConstant (str : string) : Z :=
  if is_empty str then -1
  else if (String.length str =? 3)%nat && Ascii.eqb (head str) "'"
          && Ascii.eqb (head (tail (tail str))) "'"
  then CLib.code (head (tail str))
  else
    let value :=
      if (2 <? String.length str)%nat && Ascii.eqb (head str) "0" then
        if Ascii.eqb (head (tail str)) "x" || Ascii.eqb (head (tail str)) "X"
        then to_int (strtol str 16)
        else if Ascii.eqb (head (tail str)) "b" || Ascii.eqb (head (tail str)) "B"
        then to_int (strtol (tail (tail str)) 2)
        else atoi str
      else atoi str in
    if (value <? 0) || (65535 <? value) then -1 else value.

(** The loop of [stripComments] from the current character on, with the
    [result] built so far. *)
Fixpoint stripComments_loop (rest : string) (inMultiline : bool)
    (result : string) : string * bool :=
  match rest with
  | EmptyString => (result, inMultiline)
  | String c rest1 =>
      if inMultiline then
        match rest1 with
        | String d rest2 =>
            if Ascii.eqb c "*" && Ascii.eqb d "/"
            then stripComments_loop rest2 false result
            else stripComments_loop rest1 true result
        | EmptyString => stripComments_loop rest1 true result
        end
      else
        match rest1 with
        | String d rest2 =>
            if Ascii.eqb c "/" && Ascii.eqb d "*"
            then stripComments_loop rest2 true result
            else if Ascii.eqb c "/" && Ascii.eqb d "/"
            then (result, inMultiline)
            else stripComments_loop rest1 false (result ++ String c EmptyString)
        | EmptyString =>
            stripComments_loop rest1 false (result ++ String c EmptyString)
        end
  end.

(** [stripComments(line, inMultiline)]: the new [line] and flag. *)
Definition stripComments (line : string) (inMultiline : bool) : string * bool :=
  stripComments_loop line inMultiline EmptyString.

(** [line.find_first_not_of(" \t")] and the [substr] from there: [None]
    for [npos]. *)
Fixpoint trim_blanks (line : string) : option string :=
  match line with
  | EmptyString => None
  | String c line' =>
      if Ascii.eqb c " " || Ascii.eqb c "009" then trim_blanks line'
      else Some line
  end.

Fixpoint before_colon (line : string) : option string :=
  match line with
  | EmptyString => None
  | String c line' =>
      if Ascii.eqb c ":" then Some EmptyString
      else match before_colon line' with
           | Some s => Some (String c s)
           | None => None
           end
  end.

Definition isLabel (line : string) : bool :=
  match before_colon line with
  | None => false
  | Some labelName =>
      match trim_blanks labelName with
      | None => false
      | Some labelName =>
          if is_empty labelName then false
          else if negb (isalpha (head labelName))
                  && negb (Ascii.eqb (head labelName) "_")
                  && negb (Ascii.eqb (head labelName) ".")
          then false
          else true
      end
  end.

(** [parseLabel], called on lines that [isLabel] accepts. *)
Definition parseLabel (line : string) : string :=
  match before_colon line with
  | None => line
  | Some labelName =>
      match trim_blanks labelName with
      | Some trimmed => trimmed
      | None => labelName
      end
  end.

Fixpoint lookupLabel (symbolTable : SymbolTable) (nm : string) : Z :=
  match symbolTable with
  | [] => -1
  | label :: symbolTable' =>
      if String.eqb label.(name) nm then label.(address)
      else lookupLabel symbolTable' nm
  end.

Definition encodeAlu (op dst src1 src2 : Z) (isImmediate : bool) : Z :=
  let instr := 0 in
  let actualOpcode := u8 (if isImmediate then Z.lor op 0x10 else op) in
  let instr := V2.or32 instr actualOpcode in
  let instr := V2.or32 instr (Z.shiftl (Z.land dst 0x7) 8) in
  if negb isImmediate then
    let instr := V2.or32 instr (Z.shiftl (Z.land src1 0x7) 12) in
    let instr := V2.or32 instr (Z.shiftl (Z.land src2 0x7) 16) in
    instr
  else
    let instr := V2.or32 instr (Z.shiftl (Z.land src1 0x7) 12) in
    let instr := V2.or32 instr (Z.shiftl (Z.land src2 0xFFFF) 16) in
    instr.

Definition encodeMove (dst srcOrImm : Z) (isImmediate : bool) : Z :=
  let instr := 0 in
  let moveOp := findOpcode "MOV" isImmediate in
  let instr := V2.or32 instr moveOp in
  let instr := V2.or32 instr (Z.shiftl (Z.land dst 0x7) 8) in
  if negb isImmediate then V2.or32 instr (Z.shiftl (Z.land srcOrImm 0x7) 12)
  else V2.or32 instr (Z.shiftl (Z.land srcOrImm 0xFFFF) 16).

Definition encodeCmp (src1 src2 : Z) (isImmediate : bool) : Z :=
  let instr := 0 in
  let cmpOp := findOpcode "CMP" isImmediate in
  let instr := V2.or32 instr cmpOp in
  if negb isImmediate then
    let instr := V2.or32 instr (Z.shiftl (Z.land src1 0x7) 12) in
    let instr := V2.or32 instr (Z.shiftl (Z.land src2 0x7) 16) in
    instr
  else
    let instr := V2.or32 instr (Z.shiftl (Z.land src1 0x7) 12) in
    let instr := V2.or32 instr (Z.shiftl (Z.land src2 0xFFFF) 16) in
    instr.

Definition encodeBranch (condition target : Z) (isImmediate : bool) : Z :=
  let instr := 0 in
  let branchOp := findOpcode "B" isImmediate in
  let instr := V2.or32 instr branchOp in
  if isImmediate then
    let instr := V2.or32 instr (Z.shiftl (Z.land condition 0xF) 8) in
    let instr := V2.or32 instr (Z.shiftl (Z.land target 0xFFFF) 16) in
    instr
  else
    let instr := V2.or32 instr (Z.shiftl (Z.land condition 0xF) 8) in
    let instr := V2.or32 instr (Z.shiftl (Z.land target 0xF) 16) in
    instr.

Definition encodeRead (dst addrReg : Z) : Z :=
  let instr := 0 in
  let readOp := findOpcode "READ" false in
  let instr := V2.or32 instr readOp in
  let instr := V2.or32 instr (Z.shiftl (Z.land dst 0x7) 8) in
  V2.or32 instr (Z.shiftl (Z.land addrReg 0x7) 16).

Definition encodeReadI (dst addrImm : Z) : Z :=
  let instr := 0 in
  let readOp := findOpcode "READ" true in
  let instr := V2.or32 instr readOp in
  let instr := V2.or32 instr (Z.shiftl (Z.land dst 0x7) 8) in
  V2.or32 instr (Z.shiftl (Z.land addrImm 0xFFFF) 16).

Definition encodeWrite (dataReg addrReg : Z) : Z :=
  let instr := 0 in
  let writeOp := findOpcode "WRITE" false in
  let instr := V2.or32 instr writeOp in
  let instr := V2.or32 instr (Z.shiftl (Z.land dataReg 0x7) 12) in
  V2.or32 instr (Z.shiftl (Z.land addrReg 0x7) 16).

Definition encodeWriteI (dataReg addrImm : Z) : Z :=
  let instr := 0 in
  let writeOp := findOpcode "WRITE" true in
  let instr := V2.or32 instr writeOp in
  let instr := V2.or32 instr (Z.shiftl (Z.land dataReg 0x7) 12) in
  V2.or32 instr (Z.shiftl (Z.land addrImm 0xFFFF) 16).

Definition encodePrintReg (dataReg posReg : Z) : Z :=
  let instr := 0 in
  let printOp := findOpcodeByType "PRINT" IsaSpec.TYPE_PRINT_REG false in
  let instr := V2.or32 instr printOp in
  let instr := V2.or32 instr (Z.shiftl (Z.land dataReg 0x7) 12) in
  V2.or32 instr (Z.shiftl (Z.land posReg 0x7) 16).

Definition encodePrintRegI (dataReg posImm : Z) : Z :=
  let instr := 0 in
  let printOp := findOpcodeByType "PRINT" IsaSpec.TYPE_PRINT_REG true in
  let instr := V2.or32 instr printOp in
  let instr := V2.or32 instr (Z.shiftl (Z.land dataReg 0x7) 12) in
  V2.or32 instr (Z.shiftl (Z.land posImm 0xFF) 16).

Definition encodePrintConst (dataConst posReg : Z) : Z :=
  let instr := 0 in
  let printOp := findOpcodeByType "PRINT" IsaSpec.TYPE_PRINT_CONST false in
  let instr := V2.or32 instr printOp in
  let instr := V2.or32 instr (Z.shiftl (Z.land posReg 0x7) 16) in
  V2.or32 instr (Z.shiftl (Z.land dataConst 0xFF) 24).

Definition encodePrintConstI (dataConst posImm : Z) : Z :=
  let instr := 0 in
  let printOp := findOpcodeByType "PRINT" IsaSpec.TYPE_PRINT_CONST true in
  let instr := V2.or32 instr printOp in
  let instr := V2.or32 instr (Z.shiftl (Z.land posImm 0xFF) 16) in
  V2.or32 instr (Z.shiftl (Z.land dataConst 0xFF) 24).

(** The loop of [tokenize] from the current character on, with the token
    [current] read so far. *)
Fixpoint tokenize_loop (str : string) (current : string) : list string :=
  match str with
  | EmptyString => if is_empty current then [] else [current]
  | String c str' =>
      if Ascii.eqb c "," || isspace c then
        if negb (is_empty current) then current :: tokenize_loop str' EmptyString
        else tokenize_loop str' current
      else tokenize_loop str' (current ++ String c EmptyString)
  end.

Definition tokenize (str : string) : list string :=
  tokenize_loop str EmptyString.

(** [trimmed.find_first_of(" \t")]: the text before the first blank and,
    when there is one, the text after it. *)
Fixpoint split_at_blank (trimmed : string) : string * option string :=
  match trimmed with
  | EmptyString => (EmptyString, None)
  | String c trimmed' =>
      if Ascii.eqb c " " || Ascii.eqb c "009" then (EmptyString, Some trimmed')
      else
        let (before, after) := split_at_blank trimmed' in
        (String c before, after)
  end.

Section Tables.

Variable symbolTable : SymbolTable.
Variable aliasTable : list RegisterAlias.

(** The part of [parseInstruction] that follows the tokenizing. *)
Definition dispatch (mnem : string) (tokens : list string)
    (instructionNumber : Z) : Z * bool :=
  if String.eqb mnem "LR" then
    match tokens with
    | [t0] =>
        let dst := parseRegister aliasTable t0 in
        if dst =? -1 then (0, true)
        else if instructionNumber =? -1 then (0, true)
        else (encodeMove (u8 dst) (u16 instructionNumber) true, false)
    | _ => (0, true)
    end
  else if String.eqb mnem "EXIT" then (0xFFFFFFFF, false)
  else if isAluOperation mnem then
    let op := findOpcode mnem false in
    match tokens with
    | [t0; t1; t2] =>
        let dst := parseRegister aliasTable t0 in
        let src1 := parseRegister aliasTable t1 in
        if (dst =? -1) || (src1 =? -1) then (0, true)
        else
          let src2Reg := parseRegister aliasTable t2 in
          if negb (src2Reg =? -1)
          then (encodeAlu op (u8 dst) (u16 src1) (u16 src2Reg) false, false)
          else
            let src2Const := parseConstant t2 in
            if src2Const =? -1 then (0, true)
            else (encodeAlu op (u8 dst) (u16 src1) (u16 src2Const) true, false)
    | [t0; t1] =>
        let dst := parseRegister aliasTable t0 in
        if dst =? -1 then (0, true)
        else
          let srcReg := parseRegister aliasTable t1 in
          if negb (srcReg =? -1)
          then (encodeAlu op (u8 dst) (u16 srcReg) 0 false, false)
          else
            let srcConst := parseConstant t1 in
            if srcConst =? -1 then (0, true)
            else (encodeAlu op (u8 dst) (u16 srcConst) 0 true, false)
    | _ => (0, true)
    end
  else if String.eqb mnem "NOT" then
    match tokens with
    | [t0] =>
        let dst := parseRegister aliasTable t0 in
        if dst =? -1 then (0, true)
        else
          let notOp := findOpcode "NOT" false in
          (encodeAlu notOp (u8 dst) 0 0 false, false)
    | _ => (0, true)
    end
  else if String.eqb mnem "MOV" then
    match tokens with
    | [t0; t1] =>
        let dst := parseRegister aliasTable t0 in
        if dst =? -1 then (0, true)
        else
          let srcReg := parseRegister aliasTable t1 in
          if negb (srcReg =? -1) then (encodeMove (u8 dst) (u16 srcReg) false, false)
          else
            let srcConst := parseConstant t1 in
            if srcConst =? -1 then (0, true)
            else (encodeMove (u8 dst) (u16 srcConst) true, false)
    | _ => (0, true)
    end
  else if String.eqb mnem "CMP" then
    match tokens with
    | [t0; t1] =>
        let src1 := parseRegister aliasTable t0 in
        if src1 =? -1 then (0, true)
        else
          let src2Reg := parseRegister aliasTable t1 in
          if negb (src2Reg =? -1) then (encodeCmp (u8 src1) (u16 src2Reg) false, false)
          else
            let src2Const := parseConstant t1 in
            if src2Const =? -1 then (0, true)
            else (encodeCmp (u8 src1) (u16 src2Const) true, false)
    | _ => (0, true)
    end
  else
    let condition := parseBranchCondition mnem in
    if 0 <=? condition then
      match tokens with
      | [t0] =>
          let targetReg := parseRegister aliasTable t0 in
          if negb (targetReg =? -1)
          then (encodeBranch (u8 condition) (u16 targetReg) false, false)
          else
            let target := parseConstant t0 in
            if (target =? 0) && negb (String.eqb t0 "0") then
              let target := lookupLabel symbolTable t0 in
              if target <? 0 then (0, true)
              else if (target <? 0) || (65535 <? target) then (0, true)
              else (encodeBranch (u8 condition) (u16 target) true, false)
            else if (target <? 0) || (65535 <? target) then (0, true)
            else (encodeBranch (u8 condition) (u16 target) true, false)
      | _ => (0, true)
      end
    else if String.eqb mnem "READ" then
      match tokens with
      | [t0; t1] =>
          let dst := parseRegister aliasTable t0 in
          if dst =? -1 then (0, true)
          else
            let addrReg := parseRegister aliasTable t1 in
            if negb (addrReg =? -1) then (encodeRead (u8 dst) (u8 addrReg), false)
            else
              let addrImm := parseConstant t1 in
              if (addrImm <? 0) || (65535 <? addrImm) then (0, true)
              else (encodeReadI (u8 dst) (u16 addrImm), false)
      | _ => (0, true)
      end
    else if String.eqb mnem "WRITE" then
      match tokens with
      | [t0; t1] =>
          let dataReg := parseRegister aliasTable t0 in
          if dataReg =? -1 then (0, true)
          else
            let addrReg := parseRegister aliasTable t1 in
            if negb (addrReg =? -1) then (encodeWrite (u8 dataReg) (u8 addrReg), false)
            else
              let addrImm := parseConstant t1 in
              if (addrImm <? 0) || (65535 <? addrImm) then (0, true)
              else (encodeWriteI (u8 dataReg) (u16 addrImm), false)
      | _ => (0, true)
      end
    else if String.eqb mnem "PRINT" then
      match tokens with
      | [t0; t1] =>
          let isAddrReg := negb (parseRegister aliasTable t0 =? -1) in
          let isCodeReg := negb (parseRegister aliasTable t1 =? -1) in
          if isAddrReg && isCodeReg then
            let addrReg := parseRegister aliasTable t0 in
            let codeReg := parseRegister aliasTable t1 in
            (encodePrintReg (u8 codeReg) (u8 addrReg), false)
          else if negb isAddrReg && isCodeReg then
            let addrImm := parseConstant t0 in
            let codeReg := parseRegister aliasTable t1 in
            if (addrImm <? 0) || (255 <? addrImm) then (0, true)
            else (encodePrintRegI (u8 codeReg) (u8 addrImm), false)
          else if isAddrReg && negb isCodeReg then
            let addrReg := parseRegister aliasTable t0 in
            let codeConst := parseConstant t1 in
            if (codeConst <? 0) || (255 <? codeConst) then (0, true)
            else (encodePrintConst (u8 codeConst) (u8 addrReg), false)
          else
            let addrImm := parseConstant t0 in
            let codeConst := parseConstant t1 in
            if (addrImm <? 0) || (255 <? addrImm) || (codeConst <? 0)
               || (255 <? codeConst)
            then (0, true)
            else (encodePrintConstI (u16 codeConst) (u8 addrImm), false)
      | _ => (0, true)
      end
    else (0, true).

(** [parseInstruction(line, error, instructionNumber)]: the word and the
    final value of [error].  (The message that the [LR] case prints when
    it is called without an instruction number is not kept.) *)
Definition parseInstruction (line : string) (instructionNumber : Z) : Z * bool :=
  match trim_blanks line with
  | None => (0, false)
  | Some trimmed =>
      if is_empty trimmed || Ascii.eqb (head trimmed) ";"
         || Ascii.eqb (head trimmed) "#"
      then (0, false)
      else if isLabel trimmed then (0, false)
      else
        let (mnem, rest) := split_at_blank trimmed in
        let mnem := map_string toupper mnem in
        let operands := match rest with Some r => r | None => EmptyString end in
        let tokens := tokenize operands in
        dispatch mnem tokens instructionNumber
  end.

End Tables.

(** The loop that looks the alias up, overwrites its register when it is
    there and appends it when it is not. *)
Fixpoint upsertAlias (aliasTable : list RegisterAlias)
    (aliasName regName : string) : list RegisterAlias :=
  match aliasTable with
  | [] => [ {| alias := aliasName; registerName := regName |} ]
  | a :: aliasTable' =>
      if String.eqb a.(alias) aliasName
      then {| alias := a.(alias); registerName := regName |} :: aliasTable'
      else a :: upsertAlias aliasTable' aliasName regName
  end.

(** [trimmed.substr(n)] *)
Fixpoint substr_from (n : nat) (s : string) : string :=
  match n, s with
  | S n', String _ s' => substr_from n' s'
  | _, _ => s
  end.

(** The state of pass 1: the flag, the program counter, the two tables,
    and what was printed on [std::cerr]. *)
Record Pass1 := {
  p1_inMultiline : bool;
  p1_pc : Z;
  p1_symbolTable : SymbolTable;
  p1_aliasTable : list RegisterAlias;
  p1_cerr : list string
}.

(** The body of the first loop of [execute] for one line. *)
Definition pass1_line (st : Pass1) (line : string) : Pass1 :=
  let (line, inMultiline) := stripComments line st.(p1_inMultiline) in
  let st := {| p1_inMultiline := inMultiline; p1_pc := st.(p1_pc);
               p1_symbolTable := st.(p1_symbolTable);
               p1_aliasTable := st.(p1_aliasTable); p1_cerr := st.(p1_cerr) |} in
  match trim_blanks line with
  | None => st
  | Some trimmed =>
      if is_empty trimmed then st
      else if (6 <? String.length trimmed)%nat
              && String.eqb (strncpy 6 trimmed) "#ALIAS" then
        let words := sscanf_s 2 (substr_from 6 trimmed) in
        let regName := nth 0 words EmptyString in
        let aliasName := nth 1 words EmptyString in
        let regNum :=
          if (2 <=? String.length regName)%nat && starts_with_X regName
          then atoi (tail regName) else -1 in
        if (regNum <? 0) || (7 <? regNum) then
          {| p1_inMultiline := inMultiline; p1_pc := st.(p1_pc);
             p1_symbolTable := st.(p1_symbolTable);
             p1_aliasTable := st.(p1_aliasTable);
             p1_cerr := (st.(p1_cerr)
                         ++ [("Error: Invalid register in #ALIAS: " ++ regName)%string])%list |}
        else if negb (isValidAliasName aliasName) then
          {| p1_inMultiline := inMultiline; p1_pc := st.(p1_pc);
             p1_symbolTable := st.(p1_symbolTable);
             p1_aliasTable := st.(p1_aliasTable);
             p1_cerr := (st.(p1_cerr)
                         ++ [("Error: Invalid alias name: " ++ aliasName)%string;
                             "       Alias names must be alphanumeric with underscores only,";
                             "       and must not conflict with instruction mnemonics."])%list |}
        else
          {| p1_inMultiline := inMultiline; p1_pc := st.(p1_pc);
             p1_symbolTable := st.(p1_symbolTable);
             p1_aliasTable := upsertAlias st.(p1_aliasTable) aliasName regName;
             p1_cerr := st.(p1_cerr) |}
      else if isLabel trimmed then
        {| p1_inMultiline := inMultiline; p1_pc := st.(p1_pc);
           p1_symbolTable :=
             (st.(p1_symbolTable)
              ++ [ {| name := parseLabel trimmed; address := u8 st.(p1_pc) |} ])%list;
           p1_aliasTable := st.(p1_aliasTable); p1_cerr := st.(p1_cerr) |}
      else
        {| p1_inMultiline := inMultiline; p1_pc := st.(p1_pc) + 1;
           p1_symbolTable := st.(p1_symbolTable);
           p1_aliasTable := st.(p1_aliasTable); p1_cerr := st.(p1_cerr) |}
  end.

(** The first loop of [execute], over the lines [std::getline] delivers. *)
Fixpoint pass1 (lines : list string) (st : Pass1) : Pass1 :=
  match lines with
  | [] => st
  | line :: lines' =>
      if st.(p1_pc) <? 256 then pass1 lines' (pass1_line st line) else st
  end.

(** The second loop of [execute]: the words and what was printed. *)
Fixpoint pass2 (symbolTable : SymbolTable) (aliasTable : list RegisterAlias)
    (lines : list string) (inMultiline : bool) (instructions : list Z)
    (cerr : list string) : list Z * list string :=
  match lines with
  | [] => (instructions, cerr)
  | line :: lines' =>
      if (List.length instructions <? 256)%nat then
        let (line, inMultiline) := stripComments line inMultiline in
        let (instr, error) :=
          parseInstruction symbolTable aliasTable line
            (Z.of_nat (List.length instructions)) in
        if error then
          pass2 symbolTable aliasTable lines' inMultiline instructions
            (cerr ++ [("Warning: Failed to parse line: " ++ line)%string])%list
        else
          match trim_blanks line with
          | Some trimmed =>
              if negb (is_empty trimmed) && negb (isLabel trimmed)
                 && negb (Ascii.eqb (head trimmed) "#")
              then pass2 symbolTable aliasTable lines' inMultiline
                     (instructions ++ [instr])%list cerr
              else pass2 symbolTable aliasTable lines' inMultiline
                     instructions cerr
          | None =>
              pass2 symbolTable aliasTable lines' inMultiline instructions cerr
          end
      else (instructions, cerr)
  end.

End Catalogue.

(** The constructor: [isaSpec = IsaSpec::generateISASpec()]. *)
Definition isaSpec : IsaSpec.ISA_SPEC := IsaSpec.generateISASpec.

(** The lines [std::getline] delivers: the text between newlines, and the
    text after the last one when there is some. *)
Fixpoint getlines_loop (input : string) (line : string) : list string :=
  match input with
  | EmptyString => if is_empty line then [] else [line]
  | String c input' =>
      if Ascii.eqb c "010" then line :: getlines_loop input' EmptyString
      else getlines_loop input' (line ++ String c EmptyString)
  end.

Definition getlines (input : string) : list string :=
  getlines_loop input EmptyString.

(** The splitting loop of [execute]: [alphaData] and [betaData]. *)
Fixpoint split_loop (n : nat) (i : nat) (instructions : list Z)
    (alphaData betaData : list Z) : list Z * list Z :=
  match n with
  | O => (alphaData, betaData)
  | S n' =>
      let w := nth i instructions 0 in
      let alphaData := V2.store i (u16 (Z.land (Z.shiftr w 16) 0xFFFF)) alphaData in
      let betaData := V2.store i (u16 (Z.land w 0xFFFF)) betaData in
      split_loop n' (S i) instructions alphaData betaData
  end.

Definition split (instructions : list Z) : list Z * list Z :=
  let alphaData := repeat 0 256 in
  let betaData := repeat 0 256 in
  split_loop (List.length instructions) 0 instructions alphaData betaData.

(** [execute] on the contents of the input file, up to the writing of the
    banks: [alphaData], [betaData] and [std::cerr]. *)
Definition execute (instructions_tech : list IsaSpec.InstructionTech)
    (branch_conditions : list IsaSpec.BranchCondition) (input : string)
  : list Z * list Z * list string :=
  let lines := getlines input in
  let st :=
    pass1 instructions_tech lines
      {| p1_inMultiline := false; p1_pc := 0; p1_symbolTable := [];
         p1_aliasTable := []; p1_cerr := [] |} in
  let (instructions, cerr) :=
    pass2 instructions_tech branch_conditions st.(p1_symbolTable)
      st.(p1_aliasTable) lines false [] st.(p1_cerr) in
  (split instructions, cerr).

End AssemblerTool.

(** ** The conversions of [fprintf] that the writers use *)

Module Stdio.

(** The character with the given code. *)
Definition chr (x : Z) : ascii := ascii_of_N (Z.to_N x).

(** The digits of the unsigned [x] in the given base, most significant
    first and upper case beyond 9, put in front of [acc]: at least one
    digit, and no more than [fuel] (an [unsigned int] has at most 32). *)
Fixpoint unsigned_digits (fuel : nat) (base x : Z) (acc : string) : string :=
  match fuel with
  | O => acc
  | S fuel' =>
      let d := x mod base in
      let acc := String (chr (if d <? 10 then 48 + d else 65 + (d - 10))) acc in
      if x / base =? 0 then acc else unsigned_digits fuel' base (x / base) acc
  end.

Fixpoint zeros (n : nat) : string :=
  match n with
  | O => EmptyString
  | S n' => String "0" (zeros n')
  end.

(** [%04X] *)
Definition fprintf_04X (x : Z) : string :=
  let digits := unsigned_digits 32 16 x EmptyString in
  zeros (4 - String.length digits) ++ digits.

(** [%u] *)
Definition fprintf_u (x : Z) : string := unsigned_digits 32 10 x EmptyString.

(** [%d] *)
Definition fprintf_d (x : Z) : string :=
  if x <? 0 then String "-" (unsigned_digits 32 10 (- x) EmptyString)
  else unsigned_digits 32 10 x EmptyString.

End Stdio.

(** ** [rom_writer.c]: the ROM files

    [write_rom_file], which [lsasm_v2.c] and the ROM generators call, and
    the loop of the same text at the end of [main] in [lsasm.c] and in
    [RomWriter::writeToFile]. *)

Module RomWriter.

Inductive rom_format := ROM_HEX | ROM_UINT | ROM_INT | ROM_BINARY.

(** [(int16_t)x] for a [uint16_t] value. *)
Definition i16 (x : Z) : Z := if u16 x <? 32768 then u16 x else u16 x - 65536.

(** The loop that writes the bits [n - 1] down to [0] of [w], one [fputc]
    of ['1'] or ['0'] each. *)
Fixpoint fputc_bits (n : nat) (w : Z) : string :=
  match n with
  | O => EmptyString
  | S b =>
      String (if Z.land (Z.shiftr w (Z.of_nat b)) 1 =? 0 then "0"%char else "1"%char)
             (fputc_bits b w)
  end.

(** The body of the writing loop: the text written for the entry [w]. *)
Definition write_entry (format : rom_format) (w : Z) : string :=
  match format with
  | ROM_HEX => Stdio.fprintf_04X w ++ String "010" EmptyString
  | ROM_UINT => Stdio.fprintf_u w ++ String "010" EmptyString
  | ROM_INT => Stdio.fprintf_d (i16 w) ++ String "010" EmptyString
  | ROM_BINARY => fputc_bits 16 w ++ String "010" EmptyString
  end.

(** The writing loop with [n] iterations left, at index [i]. *)
Fixpoint write_loop (n : nat) (i : nat) (data : list Z) (format : rom_format)
  : string :=
  match n with
  | O => EmptyString
  | S n' => write_entry format (nth i data 0) ++ write_loop n' (S i) data format
  end.

(** [write_rom_file(filename, data, size, format)] for a file name that can
    be opened: the text of the file, or [None] for the return value [-1].
    The callers pass the length of [data] as [size]. *)
Definition write_rom_file (data : list Z) (size : Z) (format : rom_format)
  : option string :=
  if size <=? 0 then None
  else Some (write_loop (Z.to_nat size) 0 data format).

(** The class [RomWriter]: its [data], [set], [get] and [writeToFile]. *)
Definition ROM_SIZE : nat := 256.

Definition new : list Z := repeat 0 ROM_SIZE.

Definition set (data : list Z) (address value : Z) : list Z :=
  V2.store (Z.to_nat (u8 address)) (u16 value) data.

Definition get (data : list Z) (address : Z) : Z :=
  nth (Z.to_nat (u8 address)) data 0.

Definition writeToFile (data : list Z) (format : rom_format) : string :=
  write_loop ROM_SIZE 0 data format.

End RomWriter.

(** The output loop of [main] in [lsasm.c], over the emitted words. *)
Definition lsasm_output (instructions : list Z)
    (COMPILE_FORMAT : RomWriter.rom_format) : string :=
  RomWriter.write_loop (List.length instructions) 0 instructions COMPILE_FORMAT.

(** The C operators on [int] truth values that the ROM generators use. *)
Module COps.

Definition lnot (x : Z) : Z := if x =? 0 then 1 else 0.
Definition ne (x y : Z) : Z := if x =? y then 0 else 1.
Definition eq (x y : Z) : Z := if x =? y then 1 else 0.
Definition lor (x y : Z) : Z := if negb (x =? 0) || negb (y =? 0) then 1 else 0.
Definition land (x y : Z) : Z := if negb (x =? 0) && negb (y =? 0) then 1 else 0.

End COps.

(** ** [branch_condition_rom.c] and [BranchConditionRomTool::execute] *)

Module BranchConditionRom.

(** The body of the loop for one address: the final [should_branch]. *)
Definition should_branch (addr : Z) : Z :=
  let nzcv := u8 (Z.land (Z.shiftr addr 4) 0xF) in
  let flag_N := u8 (Z.land (Z.shiftr nzcv 3) 1) in
  let flag_Z := u8 (Z.land (Z.shiftr nzcv 2) 1) in
  let flag_C := u8 (Z.land (Z.shiftr nzcv 1) 1) in
  let flag_V := u8 (Z.land nzcv 1) in
  let condition := u8 (Z.land addr 0xF) in
  if condition =? 0 then 1
  else if condition =? 1 then flag_Z
  else if condition =? 2 then COps.lnot flag_Z
  else if condition =? 3 then COps.ne flag_N flag_V
  else if condition =? 4 then COps.lor flag_Z (COps.ne flag_N flag_V)
  else if condition =? 5 then COps.land (COps.lnot flag_Z) (COps.eq flag_N flag_V)
  else if condition =? 6 then COps.eq flag_N flag_V
  else if condition =? 7 then flag_C
  else if condition =? 8 then COps.lnot flag_C
  else if condition =? 9 then flag_N
  else if condition =? 10 then COps.lnot flag_N
  else if condition =? 11 then flag_V
  else if condition =? 12 then COps.lnot flag_V
  else if condition =? 13 then COps.land flag_C (COps.lnot flag_Z)
  else if condition =? 14 then COps.lor (COps.lnot flag_C) flag_Z
  else 0.

(** The loop over the addresses, with [n] iterations left, at [addr]. *)
Fixpoint fill (n : nat) (addr : nat) (rom_data : list Z) : list Z :=
  match n with
  | O => rom_data
  | S n' =>
      let value := if should_branch (Z.of_nat addr) =? 0 then 0x0000 else 0xFFFF in
      fill n' (S addr) (V2.store addr value rom_data)
  end.

Definition rom_data : list Z := fill 256 0 (repeat 0 256).

End BranchConditionRom.

(** ** [hex_display_ROM.c] and [HexDisplayRomTool] *)

Module HexDisplayRom.

Definition nibble_to_ascii_upper (nibble : Z) : Z :=
  if nibble <? 10 then u8 (48 + nibble) else u8 (65 + (nibble - 10)).

Definition nibble_to_ascii_lower (nibble : Z) : Z :=
  if nibble <? 10 then u8 (48 + nibble) else u8 (97 + (nibble - 10)).

(** The first loop, with [n] iterations left, at index [i]. *)
Fixpoint fill_4 (n : nat) (i : nat) (hex_4_data : list Z) : list Z :=
  match n with
  | O => hex_4_data
  | S n' =>
      let value :=
        if (i <? 16)%nat then nibble_to_ascii_upper (u8 (Z.of_nat i)) else 0x00 in
      fill_4 n' (S i) (V2.store i value hex_4_data)
  end.

(** The second loop: the lower-case and the upper-case table. *)
Fixpoint fill_8 (n : nat) (addr : nat) (hex_8_lower_data hex_8_upper_data : list Z)
  : list Z * list Z :=
  match n with
  | O => (hex_8_lower_data, hex_8_upper_data)
  | S n' =>
      let lower_nibble := u8 (Z.land (Z.of_nat addr) 0xF) in
      let upper_nibble := u8 (Z.land (Z.shiftr (Z.of_nat addr) 4) 0xF) in
      let lower :=
        u16 (Z.lor (Z.shiftl (u16 (nibble_to_ascii_lower upper_nibble)) 8)
                   (nibble_to_ascii_lower lower_nibble)) in
      let upper :=
        u16 (Z.lor (Z.shiftl (u16 (nibble_to_ascii_upper upper_nibble)) 8)
                   (nibble_to_ascii_upper lower_nibble)) in
      fill_8 n' (S addr) (V2.store addr lower hex_8_lower_data)
        (V2.store addr upper hex_8_upper_data)
  end.

Definition hex_4_data : list Z := fill_4 256 0 (repeat 0 256).

Definition hex_8_lower_data : list Z :=
  fst (fill_8 256 0 (repeat 0 256) (repeat 0 256)).

Definition hex_8_upper_data : list Z :=
  snd (fill_8 256 0 (repeat 0 256) (repeat 0 256)).

End HexDisplayRom.

(** ** [opcode_flags_ROM.c]: the machine-code translator ROM *)

Module OpcodeFlagsRom.

Definition FLAG_VALID : Z := Z.shiftl 1 0.
Definition FLAG_TYPE_ALU : Z := Z.shiftl 0 1.
Definition FLAG_TYPE_MOVE : Z := Z.shiftl 1 1.
Definition FLAG_TYPE_CMP : Z := Z.shiftl 2 1.
Definition FLAG_TYPE_BRANCH : Z := Z.shiftl 3 1.
Definition FLAG_TYPE_MEMORY : Z := Z.shiftl 4 1.
Definition FLAG_TYPE_PRINT_REG : Z := Z.shiftl 5 1.
Definition FLAG_TYPE_PRINT_CONST : Z := Z.shiftl 6 1.
Definition FLAG_TYPE_MASK : Z := Z.shiftl 15 1.
Definition FLAG_IMMEDIATE : Z := Z.shiftl 1 5.
Definition FLAG_OVERRIDE_WRITE : Z := Z.shiftl 1 11.
Definition FLAG_OVERRIDE_B : Z := Z.shiftl 1 12.
Definition FLAG_TRY_READ_A : Z := Z.shiftl 1 13.
Definition FLAG_TRY_READ_B : Z := Z.shiftl 1 14.
Definition FLAG_TRY_WRITE : Z := Z.shiftl 1 15.

(** [a | b | ...] stored in a [uint16_t]. *)
Definition flags (fs : list Z) : Z := u16 (fold_left Z.lor fs 0).

(** A loop that stores [value] at [n] indices in a row, from [i] on. *)
Fixpoint fill (n : nat) (i : nat) (value : Z) (rom_data : list Z) : list Z :=
  match n with
  | O => rom_data
  | S n' => fill n' (S i) value (V2.store i value rom_data)
  end.

(** [rom_data] as [main] hands it to [write_rom_file]: the assignments in
    the order of the source. *)
Definition rom_data : list Z :=
  let rom_data := repeat 0 256 in
  let rom_data :=
    fill 10 0x00%nat
      (flags [FLAG_VALID; FLAG_TYPE_ALU; FLAG_TRY_READ_A; FLAG_TRY_READ_B;
              FLAG_TRY_WRITE]) rom_data in
  let rom_data :=
    fill 10 0x10%nat
      (flags [FLAG_VALID; FLAG_TYPE_ALU; FLAG_IMMEDIATE; FLAG_OVERRIDE_B;
              FLAG_TRY_READ_A; FLAG_TRY_WRITE]) rom_data in
  let rom_data :=
    V2.store 0x20%nat
      (flags [FLAG_VALID; FLAG_TYPE_MOVE; FLAG_TRY_READ_A; FLAG_TRY_READ_B;
              FLAG_TRY_WRITE]) rom_data in
  let rom_data :=
    V2.store 0x21%nat
      (flags [FLAG_VALID; FLAG_TYPE_MOVE; FLAG_IMMEDIATE; FLAG_OVERRIDE_WRITE;
              FLAG_TRY_READ_A; FLAG_TRY_WRITE]) rom_data in
  let rom_data :=
    V2.store 0x22%nat
      (flags [FLAG_VALID; FLAG_TYPE_CMP; FLAG_TRY_READ_A; FLAG_TRY_READ_B])
      rom_data in
  let rom_data :=
    V2.store 0x23%nat
      (flags [FLAG_VALID; FLAG_TYPE_CMP; FLAG_IMMEDIATE; FLAG_OVERRIDE_WRITE;
              FLAG_TRY_READ_A]) rom_data in
  let rom_data :=
    V2.store 0x24%nat (flags [FLAG_VALID; FLAG_TYPE_BRANCH; FLAG_TRY_READ_B])
      rom_data in
  let rom_data :=
    V2.store 0x25%nat
      (flags [FLAG_VALID; FLAG_TYPE_BRANCH; FLAG_IMMEDIATE; FLAG_OVERRIDE_B])
      rom_data in
  let rom_data :=
    V2.store 0x26%nat
      (flags [FLAG_VALID; FLAG_TYPE_MEMORY; FLAG_TRY_READ_B; FLAG_TRY_WRITE])
      rom_data in
  let rom_data :=
    V2.store 0x27%nat
      (flags [FLAG_VALID; FLAG_TYPE_MEMORY; FLAG_IMMEDIATE; FLAG_TRY_WRITE;
              FLAG_OVERRIDE_B]) rom_data in
  let rom_data :=
    V2.store 0x28%nat
      (flags [FLAG_VALID; FLAG_TYPE_MEMORY; FLAG_TRY_READ_A; FLAG_TRY_READ_B])
      rom_data in
  let rom_data :=
    V2.store 0x29%nat
      (flags [FLAG_VALID; FLAG_TYPE_MEMORY; FLAG_IMMEDIATE; FLAG_TRY_READ_A;
              FLAG_OVERRIDE_B]) rom_data in
  let rom_data :=
    V2.store 0x2A%nat
      (flags [FLAG_VALID; FLAG_TYPE_PRINT_REG; FLAG_TRY_READ_A; FLAG_TRY_READ_B])
      rom_data in
  let rom_data :=
    V2.store 0x2B%nat
      (flags [FLAG_VALID; FLAG_TYPE_PRINT_REG; FLAG_IMMEDIATE; FLAG_TRY_READ_A;
              FLAG_OVERRIDE_WRITE]) rom_data in
  let rom_data :=
    V2.store 0x2C%nat
      (flags [FLAG_VALID; FLAG_TYPE_PRINT_CONST; FLAG_TRY_READ_B;
              FLAG_OVERRIDE_WRITE]) rom_data in
  let rom_data :=
    V2.store 0x2D%nat
      (flags [FLAG_VALID; FLAG_TYPE_PRINT_CONST; FLAG_IMMEDIATE;
              FLAG_OVERRIDE_WRITE]) rom_data in
  let rom_data :=
    V2.store 0x09%nat
      (flags [FLAG_VALID; FLAG_TYPE_MEMORY; FLAG_TRY_READ_A; FLAG_TRY_READ_B;
              FLAG_TRY_WRITE]) rom_data in
  let rom_data :=
    V2.store 0x0C%nat
      (flags [FLAG_VALID; FLAG_TYPE_MEMORY; FLAG_TRY_READ_A; FLAG_TRY_READ_B;
              FLAG_TRY_WRITE]) rom_data in
  rom_data.

End OpcodeFlagsRom.

(** ** Vocabulary of the statements *)

Open Scope list_scope.

(** A line holds no comment marker: no [/] is followed by [*] or [/]. *)
Fixpoint no_marker (s : string) : Prop :=
  match s with
  | EmptyString => True
  | String c r =>
      (c = "/"%char -> head r <> "*"%char /\ head r <> "/"%char) /\ no_marker r
  end.

(** The buffers of a reading loop put end to end. *)
Fixpoint concat_lines (lines : list string) : string :=
  match lines with
  | [] => EmptyString
  | line :: lines' => (line ++ concat_lines lines')%string
  end.

(** The byte of a 32-bit word that holds bits 0-7, the one that holds bits
    24-31, and the low four bits of a 16-bit word. *)
Definition low_byte (w : Z) : Z := Z.land w 0xFF.
Definition top_byte (w : Z) : Z := Z.land (Z.shiftr w 24) 0xFF.
Definition low_nibble (w : Z) : Z := Z.land w 0xF.

(** The table has an entry with that name. *)
Definition defines (table : SymbolTable) (nm : string) : bool :=
  existsb (fun l => String.eqb l.(name) nm) table.

(** The entry that [symbol_table_add] writes for a definition. *)
Definition entry (def : string * Z) : Label :=
  {| name := strncpy 31 (fst def); address := snd def |}.

(** A run of label definitions, added in order as pass 1 does. *)
Fixpoint add_all (MAX_LABELS : Z) (table : SymbolTable)
    (defs : list (string * Z)) : SymbolTable :=
  match defs with
  | [] => table
  | def :: defs' =>
      add_all MAX_LABELS
        (fst (symbol_table_add MAX_LABELS table (fst def) (snd def))) defs'
  end.

Fixpoint all_chars (p : ascii -> bool) (s : string) : bool :=
  match s with
  | EmptyString => true
  | String c s' => p c && all_chars p s'
  end.

(** A non-empty run of characters with no white space and no colon: what a
    [%s] conversion reads back whole, on a line that is not a label line. *)
Definition plain_token (tok : string) : bool :=
  negb (is_empty tok)
  && all_chars (fun c => negb (isspace c) && negb (Ascii.eqb c ":")) tok.

(** A mnemonic as it is written in upper case at the start of a line. *)
Definition mnemonic_word (m : string) : bool :=
  plain_token m
  && negb (Ascii.eqb (head m) ";") && negb (Ascii.eqb (head m) "#")
  && String.eqb (map_string toupper m) m.

(** A label name that can be written as a branch operand: it starts with a
    letter or an underscore, as [is_label] demands, and fits, with its
    terminating NUL, the 16 bytes of [target_str]. *)
Definition label_token (nm : string) : bool :=
  (isalpha (head nm) || Ascii.eqb (head nm) "_")
  && plain_token nm
  && (String.length nm <=? 15)%nat.

(** The decimal numeral of an address. *)
Definition decimal (k : Z) : string :=
  NilEmpty.string_of_uint (N.to_uint (Z.to_N k)).

(** The source line [MNEMONIC operand]. *)
Definition branch_line (m tok : string) : string :=
  (m ++ String " " tok)%string.

(** What is checked of the numeral of each address [0 .. 255]: it is a
    token made of digits that [atoi] reads back, it starts with [0] only
    for address 0, and it is not taken for a register. *)
Definition decimal_reads_back (k : Z) : bool :=
  plain_token (decimal k)
  && isdigit (head (decimal k))
  && (atoi (decimal k) =? k)
  && negb (starts_with_X (decimal k))
  && Bool.eqb (Ascii.eqb (head (decimal k)) "0") (k =? 0).

(** The same for the tool: its [parseConstant] reads the numeral back, the
    numeral is one token, and it is the string ["0"] only for address 0. *)
Definition decimal_reads_back_in_tool (k : Z) : bool :=
  (AssemblerTool.parseConstant (decimal k) =? k)
  && all_chars (fun c => negb (Ascii.eqb c ",")) (decimal k)
  && Bool.eqb (String.eqb (decimal k) "0") (k =? 0).

(** What is checked of every character that may start a label: [atoi]
    stops on it at once, and it is neither a digit nor white space. *)
Definition starts_no_number (c : ascii) : bool :=
  negb (isalpha c || Ascii.eqb c "_")
  || (negb (isdigit c) && negb (isspace c) && (atoi (String c EmptyString) =? 0)
      && negb (Ascii.eqb c "0") && negb (Ascii.eqb c "-")
      && negb (Ascii.eqb c "+") && negb (Ascii.eqb c "'")).


(** A parser returns at once, with [error] clear, on a blank line and on a
    label line: what both passes rely on to stay in step. *)
Definition skips_non_instructions
    (parse_instruction : string -> SymbolTable -> Z * bool) : Prop :=
  forall line symTable,
    is_empty (skip_spaces line) || is_label (skip_spaces line) = true ->
    snd (parse_instruction line symTable) = false.

(** The opcode bytes of the 32-bit instruction set: the ALU operations of
    the assembler in register and in immediate form, [0x20] to [0x2D], and
    the low byte [0xFF] of the [EXIT] word. *)
Definition V2_opcode_bytes : list Z :=
  [0x00; 0x01; 0x02; 0x03; 0x04; 0x05; 0x06; 0x07;
   0x10; 0x11; 0x12; 0x13; 0x14; 0x15; 0x16; 0x17;
   0x20; 0x21; 0x22; 0x23; 0x24; 0x25; 0x26; 0x27; 0x28; 0x29;
   0x2A; 0x2B; 0x2C; 0x2D; 0xFF].

(** The opcodes of the 16-bit instruction set. *)
Definition V1_opcodes : list Z :=
  [0; 1; 2; 3; 4; 5; 6; 7; 8; 9; 10; 11; 12; 15].

(** A token fits, with its terminating NUL, a buffer of [size] bytes. *)
Definition fits (size : nat) (token : string) : bool :=
  (String.length token <? size)%nat.

(** The words of a text: its maximal runs of non-space characters, which
    are what [%s] conversions read one after the other. *)
Definition words (text : string) : list string :=
  sscanf_s (String.length text) text.

(** The tokens of a line stay within the buffers that [parse_instruction]
    and [parse_alu_instruction] scan them into: the first word within
    [char mnemonic[32]] and every later word within a [char ..._str[16]]
    operand buffer.  A blank line, a line that starts with [;] or [#] and a
    label line are returned before any scan.  Within these bounds no
    [sscanf] call of the two C assemblers writes past its buffer; beyond
    them the behaviour of the C programs is undefined. *)
Definition tokens_fit (line : string) : bool :=
  let text := skip_spaces line in
  is_empty text || Ascii.eqb (head text) ";" || Ascii.eqb (head text) "#"
  || is_label text
  || (fits 32 (take_nonspaces text)
      && forallb (fits 16) (words (skip_nonspaces text))).

(** The lines as the passes see them, after [strip_comments]. *)
Fixpoint stripped_lines (lines : list string) (inMultiline : bool)
  : list string :=
  match lines with
  | [] => []
  | line :: lines' =>
      let (stripped, inMultiline) := strip_comments line inMultiline in
      stripped :: stripped_lines lines' inMultiline
  end.

(** Every line of the script stays within the scan buffers. *)
Definition script_fits (lines : list string) : bool :=
  forallb tokens_fit (stripped_lines lines false).

(** The two tables of the catalogue that the constructor of the tool
    loads. *)
Definition tool_instructions : list IsaSpec.InstructionTech :=
  IsaSpec.instructions_tech AssemblerTool.isaSpec.

Definition tool_branches : list IsaSpec.BranchCondition :=
  IsaSpec.branch_conditions AssemblerTool.isaSpec.

(** A label name of the tool that can be written as a branch operand: it
    starts with a letter, an underscore or a dot, as [isLabel] demands, and
    holds no white space, colon or comma. *)
Definition tool_label_token (nm : string) : bool :=
  (isalpha (head nm) || Ascii.eqb (head nm) "_" || Ascii.eqb (head nm) ".")
  && plain_token nm
  && all_chars (fun c => negb (Ascii.eqb c ",")) nm.

(** ** Vocabulary of the further properties *)

(** [p] holds of every number from [0] below [n], counting up. *)
Definition all_below (n : N) (p : Z -> bool) : bool :=
  snd (N.iter n (fun st => (fst st + 1, snd st && p (fst st))) (0, true)).

(** The text holds no slash, and so no comment marker and no half of one
    at its end. *)
Definition no_slash (s : string) : bool :=
  all_chars (fun c => negb (Ascii.eqb c "/")) s.

(** The text holds the marker that closes a block comment: a star with a
    slash after it. *)
Fixpoint has_close (s : string) : bool :=
  match s with
  | EmptyString => false
  | String c r => (Ascii.eqb c "*" && Ascii.eqb (head r) "/") || has_close r
  end.

(** The mnemonics that the chain of [strcmp]s of [lsasm.c] knows, those of
    [lsasm_v2.c], and the fixed ones of the tool (the ALU mnemonics and
    the branches of the tool come from its catalogue). *)
Definition V1_mnemonics : list string :=
  ["EXIT"; "AND"; "OR"; "XOR"; "NOT"; "ADD"; "SUB"; "LSL"; "LSR"; "CMP";
   "MOV"; "READ"; "WRITE"; "B"; "BEQ"; "BNE"; "BLT"; "BLE"; "BGT"; "BGE";
   "BCS"; "BCC"; "BMI"; "BPL"; "BVS"; "BVC"; "BHI"; "BLS"].

Definition V2_mnemonics : list string := "PRINT" :: V1_mnemonics.

Definition AssemblerTool_mnemonics : list string :=
  ["LR"; "EXIT"; "NOT"; "MOV"; "CMP"; "READ"; "WRITE"; "PRINT"].

(** The mnemonics that a catalogue gives the type [TYPE_ALU], the branch
    mnemonics of a condition table, and all the words that the tool knows
    with the catalogue it loads. *)
Definition ALU_mnemonics (instructions_tech : list IsaSpec.InstructionTech)
  : list string :=
  map IsaSpec.mnemonic
      (filter (fun instr =>
                 IsaSpec.InstructionType_eqb instr.(IsaSpec.type) IsaSpec.TYPE_ALU)
              instructions_tech).

Definition branch_mnemonics (branch_conditions : list IsaSpec.BranchCondition)
  : list string :=
  map IsaSpec.branch_mnemonic branch_conditions.

Definition tool_mnemonics : list string :=
  AssemblerTool_mnemonics ++ ALU_mnemonics tool_instructions
  ++ branch_mnemonics tool_branches.

(** The [len] bits of the word [w] from bit [lo] on, as a number: what a
    decoder reads of an operand field. *)
Definition field (w lo len : Z) : Z := Z.land (Z.shiftr w lo) (Z.ones len).

(** The number that a line of a ROM file stands for, read as the format
    of the file says: the digits at the start of the line in base 16, 10
    or 2, and for the signed format the 16-bit word of that value. *)
Definition read_entry (format : RomWriter.rom_format) (line : string) : Z :=
  match format with
  | RomWriter.ROM_HEX => strtol line 16
  | RomWriter.ROM_UINT => atoi line
  | RomWriter.ROM_INT => u16 (atoi line)
  | RomWriter.ROM_BINARY => strtol line 2
  end.

(** What [tokenize] splits at (a comma or white space), an operand token
    (non-empty, with no separator), and a gap between two tokens (a
    non-empty run of separators). *)
Definition separator (c : ascii) : bool := Ascii.eqb c "," || isspace c.

Definition operand_token (t : string) : bool :=
  negb (is_empty t) && all_chars (fun c => negb (separator c)) t.

Definition gap (s : string) : bool :=
  negb (is_empty s) && all_chars separator s.

(** An operand text: each token with the gap that follows it. *)
Fixpoint operands_text (parts : list (string * string)) : string :=
  match parts with
  | [] => EmptyString
  | (tok, sep) :: parts' => (tok ++ sep ++ operands_text parts')%string
  end.

(** The entry of the branch-condition ROM for the flags [NZCV] (as a
    number from 0 to 15) and a condition code. *)
Definition branch_entry (flags condition : Z) : Z :=
  nth (Z.to_nat (16 * flags + condition)) BranchConditionRom.rom_data 0.

(** The two characters that an entry of a hex-display ROM holds, the one
    of the high byte first. *)
Definition two_chars (e : Z) : string :=
  String (Stdio.chr (Z.shiftr e 8)) (String (Stdio.chr (Z.land e 0xFF)) EmptyString).

(** What is checked of the hex-display ROMs at each address: the entries
    of the two 8-bit tables spell the address in hexadecimal, in upper and
    in lower case, and the 4-bit table holds the digit of an address below
    16 and nothing above. *)
Definition hex_entries_spell (addr : Z) : bool :=
  let upper := nth (Z.to_nat addr) HexDisplayRom.hex_8_upper_data 0 in
  let lower := nth (Z.to_nat addr) HexDisplayRom.hex_8_lower_data 0 in
  let digit := nth (Z.to_nat addr) HexDisplayRom.hex_4_data 0 in
  (strtol (two_chars upper) 16 =? addr)
  && (strtol (two_chars lower) 16 =? addr)
  && String.eqb (map_string toupper (two_chars lower)) (two_chars upper)
  && (if addr <? 16
      then strtol (String (Stdio.chr digit) EmptyString) 16 =? addr
      else digit =? 0).

(** The entry of the machine-code translator ROM for the opcode byte of a
    word. *)
Definition opcode_flags (w : Z) : Z :=
  nth (Z.to_nat (low_byte w)) OpcodeFlagsRom.rom_data 0.

(** The conditions that are each other's opposite. *)
Definition opposite_conditions : list (branch_condition * branch_condition) :=
  [(B_EQ, B_NE); (B_LT, B_GE); (B_LE, B_GT); (B_CS, B_CC); (B_MI, B_PL);
   (B_VS, B_VC); (B_HI, B_LS)].

(** What is checked of the branch-condition ROM for each value of the
    flags. *)
Definition branch_flags_consistent (flags : Z) : bool :=
  let taken c := branch_entry flags (branch_condition_val c) in
  forallb (fun p =>
             (taken (fst p) =? 0xFFFF) && (taken (snd p) =? 0)
             || (taken (fst p) =? 0) && (taken (snd p) =? 0xFFFF))
          opposite_conditions
  && (taken B_UNCOND =? 0xFFFF)
  && (branch_entry flags 15 =? 0)
  && (taken B_LE =? Z.lor (taken B_LT) (taken B_EQ))
  && (taken B_GT =? Z.land (taken B_GE) (taken B_NE))
  && (taken B_HI =? Z.land (taken B_CS) (taken B_NE))
  && (taken B_LS =? Z.lor (taken B_CC) (taken B_EQ)).

(** The character that [fprintf] writes for the digit [d], and the
    characters it writes in a number: the digits and the letters [A] to
    [F]. *)
Definition digit_char (d : Z) : ascii :=
  Stdio.chr (if d <? 10 then 48 + d else 65 + (d - 10)).

Definition numeral_char (c : ascii) : bool :=
  isdigit c || ((65 <=? code c) && (code c <=? 70)).

(** Whether a block comment is open after the lines [lines], read from a
    state [inMultiline]: the flag that [main] carries from line to line. *)
Definition comment_state (lines : list string) (inMultiline : bool) : bool :=
  fold_left (fun open line => snd (strip_comments line open)) lines inMultiline.

(** A [RomWriter] object after the calls [set(address, value)] of [writes],
    in order, on the object [rom]. *)
Definition set_all (writes : list (Z * Z)) (rom : list Z) : list Z :=
  fold_left (fun data w => RomWriter.set data (fst w) (snd w)) writes rom.

(** ** Reading the script *)

Lemma fgets_splits n : forall stream,
  (fst (fgets n stream) ++ snd (fgets n stream))%string = stream.
Proof.
  induction n as [|n IH]; intros [|c stream]; try reflexivity.
  cbn [fgets]. destruct (Ascii.eqb c "010"); [reflexivity|].
  specialize (IH stream). destruct (fgets n stream) as [buf rest].
  cbn [fst snd append] in *. rewrite IH. reflexivity.
Qed.

Lemma fgets_rest_le n : forall stream,
  (String.length (snd (fgets n stream)) <= String.length stream)%nat.
Proof.
  induction n as [|n IH]; intros [|c stream]; cbn [fgets snd]; try lia.
  destruct (Ascii.eqb c "010"); cbn [snd String.length]; [lia|].
  specialize (IH stream). destruct (fgets n stream) as [buf rest].
  cbn [snd] in *. lia.
Qed.

Lemma fgets_consumes n c stream :
  (String.length (snd (fgets (S n) (String c stream))) <= String.length stream)%nat.
Proof.
  cbn [fgets]. destruct (Ascii.eqb c "010"); cbn [snd]; [lia|].
  pose proof (fgets_rest_le n stream) as H.
  destruct (fgets n stream) as [buf rest]. exact H.
Qed.

(** The reading loop ends at the end of the file: the buffers it delivers,
    put end to end, are the whole script. *)
Lemma read_lines_exhausts script : concat_lines (read_lines script) = script.
Proof.
  unfold read_lines.
  assert (H : forall calls s, (String.length s <= calls)%nat ->
                              concat_lines (read_from calls s) = s).
  { induction calls as [|calls IH]; intros [|c s] Hlen; try reflexivity.
    - inversion Hlen.
    - cbn [read_from]. unfold MAX_LINE. cbn [Nat.sub].
      pose proof (fgets_splits 255 (String c s)) as Hs.
      pose proof (fgets_consumes 254 c s) as Hc.
      destruct (fgets 255 (String c s)) as [line rest].
      cbn [fst snd] in *. cbn [concat_lines].
      rewrite IH by (cbn [String.length] in Hlen; lia). exact Hs. }
  apply H. lia.
Qed.

(** ** Comment stripping *)

Section StripComments.

Lemma append_empty_r s : (s ++ "")%string = s.
Proof. induction s as [|c s IH]; cbn; [|rewrite IH]; reflexivity. Qed.

Lemma append_assoc a b c : ((a ++ b) ++ c)%string = (a ++ (b ++ c))%string.
Proof. induction a as [|x a IH]; cbn; [|rewrite IH]; reflexivity. Qed.

Lemma strip_outside_2 c d r :
  strip_comments (String c (String d r)) false =
  if Ascii.eqb c "/" && Ascii.eqb d "*" then strip_comments r true
  else if Ascii.eqb c "/" && Ascii.eqb d "/" then (EmptyString, false)
  else (String c (fst (strip_comments (String d r) false)),
        snd (strip_comments (String d r) false)).
Proof.
  cbn [strip_comments].
  destruct (Ascii.eqb c "/" && Ascii.eqb d "*"); [reflexivity|].
  destruct (Ascii.eqb c "/" && Ascii.eqb d "/"); [reflexivity|].
  match goal with |- (let (_, _) := ?x in _) = _ => destruct x end.
  reflexivity.
Qed.

Lemma strip_outside_1 c :
  strip_comments (String c EmptyString) false = (String c EmptyString, false).
Proof. reflexivity. Qed.

Lemma strip_inside_2 c d r :
  strip_comments (String c (String d r)) true =
  if Ascii.eqb c "*" && Ascii.eqb d "/" then strip_comments r false
  else strip_comments (String d r) true.
Proof. reflexivity. Qed.

Lemma strip_inside_1 c :
  strip_comments (String c EmptyString) true = (EmptyString, true).
Proof. reflexivity. Qed.

(** A character other than [/] met outside a comment is copied. *)
Lemma strip_regular c r :
  c <> "/"%char ->
  strip_comments (String c r) false =
  (String c (fst (strip_comments r false)), snd (strip_comments r false)).
Proof.
  intros Hc. apply Ascii.eqb_neq in Hc.
  destruct r as [|d r'].
  - reflexivity.
  - rewrite strip_outside_2, Hc. reflexivity.
Qed.

Lemma strip_marker_free s :
  no_marker s -> strip_comments s false = (s, false).
Proof.
  induction s as [|c r IH]; intros H; [reflexivity|].
  destruct H as [Hc Hr]. specialize (IH Hr).
  destruct r as [|d r']; [reflexivity|].
  rewrite strip_outside_2, IH.
  destruct (Ascii.eqb_spec c "/") as [->|Hne]; [|reflexivity].
  destruct (Hc eq_refl) as [H1 H2]. cbn [head] in H1, H2.
  apply Ascii.eqb_neq in H1, H2. rewrite H1, H2. reflexivity.
Qed.

Lemma strip_output_marker_free n :
  forall s st, (String.length s <= n)%nat ->
               no_marker (fst (strip_comments s st)).
Proof.
  induction n as [|n IH]; intros s st Hlen.
  - destruct s; [exact I | inversion Hlen].
  - destruct s as [|c [|d r]]; [exact I | |].
    + destruct st; cbn; [exact I|].
      split; [|exact I]. intros _. split; discriminate.
    + cbn [String.length] in Hlen.
      assert (Hd : no_marker (fst (strip_comments (String d r) st)))
        by (apply IH; cbn [String.length]; lia).
      assert (Hr : forall st', no_marker (fst (strip_comments r st')))
        by (intros; apply IH; lia).
      destruct st.
      * rewrite strip_inside_2.
        destruct (Ascii.eqb c "*" && Ascii.eqb d "/"); [apply Hr | exact Hd].
      * rewrite strip_outside_2.
        destruct (Ascii.eqb_spec c "/") as [->|Hne]; cbn [andb].
        -- destruct (Ascii.eqb_spec d "*") as [->|Hstar]; [apply Hr|].
           destruct (Ascii.eqb_spec d "/") as [->|Hslash]; [exact I|].
           cbn [fst no_marker]. split; [|exact Hd].
           intros _. rewrite (strip_regular d r Hslash). cbn [fst head].
           split; assumption.
        -- cbn [fst no_marker]. split; [|exact Hd].
           intros ->. contradiction.
Qed.

Lemma stripComments_inside_2 c d r result :
  AssemblerTool.stripComments_loop (String c (String d r)) true result =
  if Ascii.eqb c "*" && Ascii.eqb d "/"
  then AssemblerTool.stripComments_loop r false result
  else AssemblerTool.stripComments_loop (String d r) true result.
Proof. reflexivity. Qed.

Lemma stripComments_outside_2 c d r result :
  AssemblerTool.stripComments_loop (String c (String d r)) false result =
  if Ascii.eqb c "/" && Ascii.eqb d "*"
  then AssemblerTool.stripComments_loop r true result
  else if Ascii.eqb c "/" && Ascii.eqb d "/" then (result, false)
  else AssemblerTool.stripComments_loop (String d r) false
         (result ++ String c EmptyString)%string.
Proof. reflexivity. Qed.

(** [AssemblerTool::stripComments] appends to [result] what
    [strip_comments] copies down its buffer: the two compute the same line
    and the same flag. *)
Lemma stripComments_loop_spec n :
  forall rest inMultiline result,
    (String.length rest <= n)%nat ->
    AssemblerTool.stripComments_loop rest inMultiline result =
    ((result ++ fst (strip_comments rest inMultiline))%string,
     snd (strip_comments rest inMultiline)).
Proof.
  induction n as [|n IH]; intros rest inM result Hlen.
  - destruct rest; [|inversion Hlen]. cbn. rewrite append_empty_r. reflexivity.
  - destruct rest as [|c [|d r]].
    + cbn. rewrite append_empty_r. reflexivity.
    + destruct inM; cbn; rewrite ?append_empty_r; reflexivity.
    + cbn [String.length] in Hlen.
      assert (Hd : forall st res,
                 AssemblerTool.stripComments_loop (String d r) st res =
                 ((res ++ fst (strip_comments (String d r) st))%string,
                  snd (strip_comments (String d r) st)))
        by (intros; apply IH; cbn [String.length]; lia).
      assert (Hr : forall st res,
                 AssemblerTool.stripComments_loop r st res =
                 ((res ++ fst (strip_comments r st))%string,
                  snd (strip_comments r st)))
        by (intros; apply IH; lia).
      destruct inM.
      * rewrite strip_inside_2, stripComments_inside_2.
        destruct (Ascii.eqb c "*" && Ascii.eqb d "/"); [apply Hr | apply Hd].
      * rewrite strip_outside_2, stripComments_outside_2.
        destruct (Ascii.eqb c "/" && Ascii.eqb d "*"); [apply Hr|].
        destruct (Ascii.eqb c "/" && Ascii.eqb d "/").
        -- cbn. rewrite append_empty_r. reflexivity.
        -- rewrite Hd. cbn [fst snd]. rewrite append_assoc. reflexivity.
Qed.

Lemma stripComments_is_strip_comments line inMultiline :
  AssemblerTool.stripComments line inMultiline = strip_comments line inMultiline.
Proof.
  unfold AssemblerTool.stripComments.
  rewrite (stripComments_loop_spec (String.length line)) by lia.
  cbn [append]. destruct (strip_comments line inMultiline). reflexivity.
Qed.

(** C7.  Comment stripping is idempotent: stripping a line outside a block
    comment, then stripping the result again outside a block comment,
    changes nothing more, and the second pass leaves the flag cleared.
    This holds of [strip_comments] in the two C files and of
    [AssemblerTool::stripComments]. *)
Theorem strip_comments_idempotent (line : string) :
  (let stripped := fst (strip_comments line false) in
   strip_comments stripped false = (stripped, false))
  /\
  (let stripped := fst (AssemblerTool.stripComments line false) in
   AssemblerTool.stripComments stripped false = (stripped, false)).
Proof.
  assert (H : strip_comments (fst (strip_comments line false)) false =
              (fst (strip_comments line false), false)).
  { apply strip_marker_free.
    apply (strip_output_marker_free (String.length line)). lia. }
  split; [exact H|].
  cbv zeta. rewrite !stripComments_is_strip_comments. exact H.
Qed.

End StripComments.

(** ** The two passes *)

Lemma skip_spaces_idempotent s : skip_spaces (skip_spaces s) = skip_spaces s.
Proof.
  induction s as [|c s IH]; [reflexivity|].
  cbn [skip_spaces]. destruct (isspace c) eqn:E; [exact IH|].
  cbn [skip_spaces]. rewrite E. reflexivity.
Qed.

Lemma is_label_skip_spaces s : is_label (skip_spaces s) = is_label s.
Proof. unfold is_label. rewrite skip_spaces_idempotent. reflexivity. Qed.

Lemma V1_skips_non_instructions : skips_non_instructions V1.parse_instruction.
Proof.
  intros line symTable H. unfold V1.parse_instruction. cbv zeta.
  destruct (is_empty (skip_spaces line)) eqn:E; [reflexivity|].
  cbn [orb] in H |- *. rewrite H.
  destruct (_ || _); reflexivity.
Qed.

Lemma V2_skips_non_instructions : skips_non_instructions V2.parse_instruction.
Proof.
  intros line symTable H. unfold V2.parse_instruction. cbv zeta.
  destruct (is_empty (skip_spaces line)) eqn:E; [reflexivity|].
  cbn [orb] in H |- *. rewrite H.
  destruct (_ || _); reflexivity.
Qed.

Section PassCounts.

Variables MAX_INSTR MAX_LABELS : Z.
Variable parse_instruction : string -> SymbolTable -> Z * bool.
Hypothesis parse_skips : skips_non_instructions parse_instruction.

(** Pass 1 never lowers the program counter. *)
Lemma pass1_pc_monotone lines :
  forall inMultiline pc symTable,
    pc <= fst (pass1 MAX_INSTR MAX_LABELS lines inMultiline pc symTable).
Proof.
  induction lines as [|line lines IH]; intros inM pc t; cbn [pass1 fst]; [lia|].
  destruct (pc <? MAX_INSTR); [|cbn; lia].
  destruct (strip_comments line inM) as [line' inM'].
  destruct (is_empty _); [apply IH|].
  destruct (is_label _); [apply IH|].
  specialize (IH inM' (pc + 1) t). lia.
Qed.

(** The invariant that ties the passes together while both still read
    lines: what pass 1 has counted is what pass 2 has emitted or rejected. *)
Lemma passes_in_step lines :
  forall inMultiline pc table1 symTable instructions stderr,
    pc = Z.of_nat (List.length instructions) + Z.of_nat (List.length stderr) ->
    fst (pass1 MAX_INSTR MAX_LABELS lines inMultiline pc table1) < MAX_INSTR ->
    let out :=
      pass2 MAX_INSTR parse_instruction symTable lines inMultiline
        instructions stderr in
    fst (pass1 MAX_INSTR MAX_LABELS lines inMultiline pc table1) =
    Z.of_nat (List.length (fst out)) + Z.of_nat (List.length (snd out)).
Proof.
  induction lines as [|line lines IH];
    intros inM pc t1 T instrs err Hpc Hlt; cbn [pass1 pass2 fst snd] in *.
  - exact Hpc.
  - destruct (pc <? MAX_INSTR) eqn:Ecap.
    2:{ apply Z.ltb_ge in Ecap. cbn [fst] in Hlt. lia. }
    apply Z.ltb_lt in Ecap.
    replace (Z.of_nat (List.length instrs) <? MAX_INSTR) with true
      by (symmetry; apply Z.ltb_lt; lia).
    destruct (strip_comments line inM) as [line' inM'].
    pose proof (parse_skips line' T) as Hskip.
    destruct (parse_instruction line' T) as [instr error]. cbn [snd] in Hskip.
    destruct (is_empty (skip_spaces line')) eqn:Eblank.
    { rewrite Hskip by reflexivity. cbn [negb andb]. apply IH; assumption. }
    rewrite is_label_skip_spaces in Hskip.
    destruct (is_label (skip_spaces line')) eqn:Elabel;
      rewrite is_label_skip_spaces in Elabel; rewrite Elabel in Hskip.
    { rewrite Hskip by reflexivity. cbn [negb andb]. apply IH; assumption. }
    cbn [negb andb].
    destruct error; apply IH; try assumption;
      rewrite length_app; cbn [List.length]; lia.
Qed.

End PassCounts.

(** The same count for the 32-bit assembler. *)
Lemma V2_passes_agree_up_to_rejections (lines : list string) :
  fst (pass1 V2.MAX_INSTR V2.MAX_LABELS lines false 0 []) < V2.MAX_INSTR ->
  fst (pass1 V2.MAX_INSTR V2.MAX_LABELS lines false 0 []) =
  Z.of_nat (List.length (fst (V2.assemble lines)))
  + Z.of_nat (List.length (snd (V2.assemble lines))).
Proof.
  intros Hlt. unfold V2.assemble, symbol_table_init.
  destruct (pass1 V2.MAX_INSTR V2.MAX_LABELS lines false 0 [])
    as [pc symTable] eqn:E1.
  change pc with (fst (pc, symTable)). rewrite <- E1.
  apply passes_in_step; [exact V2_skips_non_instructions | reflexivity |].
  rewrite E1. exact Hlt.
Qed.

(** C4, as amended.  For a script whose tokens stay within the scan
    buffers of [lsasm.c] (a mnemonic of at most 31 characters, operand
    words of at most 15), when the pass-1 program counter stays below the
    capacity, it equals the length of the emitted program plus the number
    of lines pass 2 rejected (one warning on [stderr] each); so the two
    agree exactly when no line is rejected. *)
Theorem pass1_count_is_emitted_plus_rejected (lines : list string) :
  script_fits lines = true ->
  fst (pass1 V1.MAX_INSTR V1.MAX_LABELS lines false 0 []) < V1.MAX_INSTR ->
  fst (pass1 V1.MAX_INSTR V1.MAX_LABELS lines false 0 []) =
  Z.of_nat (List.length (fst (V1.assemble lines)))
  + Z.of_nat (List.length (snd (V1.assemble lines)))
  /\ (snd (V1.assemble lines) = [] <->
      fst (pass1 V1.MAX_INSTR V1.MAX_LABELS lines false 0 []) =
      Z.of_nat (List.length (fst (V1.assemble lines)))).
Proof.
  intros _ Hlt.
  assert (H : fst (pass1 V1.MAX_INSTR V1.MAX_LABELS lines false 0 []) =
              Z.of_nat (List.length (fst (V1.assemble lines)))
              + Z.of_nat (List.length (snd (V1.assemble lines)))).
  { unfold V1.assemble, symbol_table_init.
    destruct (pass1 V1.MAX_INSTR V1.MAX_LABELS lines false 0 [])
      as [pc symTable] eqn:E1.
    change pc with (fst (pc, symTable)). rewrite <- E1.
    apply passes_in_step; [exact V1_skips_non_instructions | reflexivity |].
    rewrite E1. exact Hlt. }
  split; [exact H|]. split.
  - intros Hnone. rewrite Hnone in H. cbn [List.length] in H. lia.
  - intros Hsame. destruct (snd (V1.assemble lines)); [reflexivity|].
    cbn [List.length] in H. lia.
Qed.

(** A script with a label, a block comment over three lines, a rejected
    line and a backward branch: three lines counted, two words, one
    warning. *)
Lemma pass1_count_is_emitted_plus_rejected_witness :
  let lines := read_lines "start:
  MOV X0 1 /* set
  MOV X0 2
  up */
  FOO X1
  B start
" in
  fst (pass1 V1.MAX_INSTR V1.MAX_LABELS lines false 0 []) = 3
  /\ fst (V1.assemble lines) = [0x0188; 0x000A]
  /\ fst (pass1 V1.MAX_INSTR V1.MAX_LABELS lines false 0 []) =
     Z.of_nat (List.length (fst (V1.assemble lines)))
     + Z.of_nat (List.length (snd (V1.assemble lines))).
Proof.
  intros lines.
  split; [vm_compute; reflexivity|].
  split; [vm_compute; reflexivity|].
  apply (pass1_count_is_emitted_plus_rejected lines);
    vm_compute; reflexivity.
Defined.

(** C4 as the specification words it fails: of the two lines of this
    script pass 1 counts both, far below the capacity, and pass 2 rejects
    the one with the unknown mnemonic and emits one word. *)
Lemma pass1_count_differs_from_program_length :
  let lines := read_lines "MOV X0 1
FOO X1
" in
  fst (pass1 V1.MAX_INSTR V1.MAX_LABELS lines false 0 []) = 2
  /\ 2 < V1.MAX_INSTR
  /\ fst (V1.assemble lines) = [0x0188]
  /\ fst (pass1 V1.MAX_INSTR V1.MAX_LABELS lines false 0 []) <>
     Z.of_nat (List.length (fst (V1.assemble lines))).
Proof.
  intros lines. repeat split; try (vm_compute; reflexivity).
  vm_compute. discriminate.
Qed.

(** ** Operand range checks *)

(** The error value of [parse_register] is [(uint8_t)-1 = 255]: whatever
    the token, the result is a byte, and the comparisons [== -1] that the
    callers make on it never hold. *)
Lemma parse_register_is_byte str : 0 <= parse_register str <= 255.
Proof.
  unfold parse_register, u8.
  destruct (_ && _); [vm_compute; split; discriminate|].
  destruct (_ || _); [vm_compute; split; discriminate|].
  pose proof (Z.mod_pos_bound (atoi (tail str)) 256 eq_refl). lia.
Qed.

Lemma parse_register_never_reports str : (parse_register str =? -1) = false.
Proof. pose proof (parse_register_is_byte str). apply Z.eqb_neq. lia. Qed.

Lemma V1_parse_constant_is_byte str : 0 <= V1.parse_constant str <= 255.
Proof.
  unfold V1.parse_constant, u8. cbv zeta.
  destruct (_ || _); [vm_compute; split; discriminate|].
  match goal with |- _ <= ?v mod 256 <= _ =>
    pose proof (Z.mod_pos_bound v 256 eq_refl) end. lia.
Qed.

Lemma V1_parse_constant_never_reports str : (V1.parse_constant str =? -1) = false.
Proof. pose proof (V1_parse_constant_is_byte str). apply Z.eqb_neq. lia. Qed.

Lemma V2_parse_constant_is_halfword str : 0 <= V2.parse_constant str <= 65535.
Proof.
  unfold V2.parse_constant, u16. cbv zeta.
  destruct (_ && _).
  { match goal with |- _ <= ?v mod 65536 <= _ =>
      pose proof (Z.mod_pos_bound v 65536 eq_refl) end. lia. }
  destruct (_ || _); [vm_compute; split; discriminate|].
  match goal with |- _ <= ?v mod 65536 <= _ =>
    pose proof (Z.mod_pos_bound v 65536 eq_refl) end. lia.
Qed.

(** In [lsasm.c] no operand is ever rejected for its range: with two
    operand tokens, whatever they are, these mnemonics encode a word. *)
Lemma V1_operands_never_rejected mnemonic operands symTable :
  In mnemonic ["AND"; "OR"; "XOR"; "ADD"; "SUB"; "LSL"; "LSR"; "MOV"; "CMP";
               "READ"; "WRITE"] ->
  List.length (sscanf_s 2 operands) = 2%nat ->
  snd (V1.dispatch mnemonic operands symTable) = false.
Proof.
  intros Hin Hlen. cbn [In] in Hin.
  repeat (destruct Hin as [<-|Hin]); try contradiction;
    unfold V1.dispatch, V1.parse_alu_instruction, V1.parse_memory;
    cbn [String.eqb Ascii.eqb Bool.eqb andb];
    destruct (sscanf_s 2 operands) as [|a [|b [|? ?]]]; try discriminate Hlen;
    rewrite ?parse_register_never_reports, ?V1_parse_constant_never_reports;
    repeat match goal with
           | |- context [if ?b then _ else _] => destruct b
           | |- context [match ?x with [] => _ | _ :: _ => _ end] => destruct x
           end;
    reflexivity.
Qed.

(** In [lsasm_v2.c] the same holds of [MOV] and [CMP]. *)
Lemma V2_operands_never_rejected mnemonic operands symTable :
  In mnemonic ["MOV"; "CMP"] ->
  List.length (sscanf_s 2 operands) = 2%nat ->
  snd (V2.dispatch mnemonic operands symTable) = false.
Proof.
  intros Hin Hlen. cbn [In] in Hin.
  assert (H16 : forall s, (u16 (parse_register s) =? -1) = false).
  { intros s. apply Z.eqb_neq. unfold u16.
    pose proof (Z.mod_pos_bound (parse_register s) 65536 eq_refl). lia. }
  assert (Hc : forall s, (V2.parse_constant s =? -1) = false).
  { intros s. pose proof (V2_parse_constant_is_halfword s).
    apply Z.eqb_neq. lia. }
  repeat (destruct Hin as [<-|Hin]); try contradiction;
    unfold V2.dispatch;
    cbn [String.eqb Ascii.eqb Bool.eqb andb];
    destruct (sscanf_s 2 operands) as [|a [|b [|? ?]]]; try discriminate Hlen;
    rewrite ?parse_register_never_reports, ?H16, ?Hc;
    repeat match goal with
           | |- context [if ?b then _ else _] => destruct b
           end;
    reflexivity.
Qed.

(** C1, on the code.  [MOV X0, 70000] is not rejected by either C
    assembler: [parse_constant] answers the out-of-range value with
    [(uint8_t)-1] (resp. [(uint16_t)-1]), the [MOV] case encodes it, one
    word is emitted with an all-ones immediate and nothing is printed. *)
Theorem mov_out_of_range_is_encoded :
  V1.parse_constant "70000" = 255
  /\ V1.main "MOV X0, 70000
" = ([0xFF88], [])
  /\ V2.parse_constant "70000" = 65535
  /\ fst (V2.assemble (read_lines "MOV X0, 70000
")) = [0xFFFF0021]
  /\ snd (V2.assemble (read_lines "MOV X0, 70000
")) = [].
Proof. repeat split; vm_compute; reflexivity. Qed.

(** C2, on the code.  [ADD X9, X1, X2] is not rejected by [lsasm.c]:
    [parse_register] answers [X9] with [(uint8_t)-1], the ALU case masks it
    to three bits, and the word of [ADD X7, X1, X2] is emitted without a
    diagnostic.  The same happens in [lsasm_v2.c]. *)
Theorem register_out_of_range_is_encoded :
  parse_register "X9," = 255
  /\ V1.main "ADD X9, X1, X2
" = ([0x2174], [])
  /\ V1.main "ADD X9, X1, X2
" = V1.main "ADD X7, X1, X2
"
  /\ fst (V2.assemble (read_lines "ADD X9, X1, X2
")) = [0x00021704]
  /\ snd (V2.assemble (read_lines "ADD X9, X1, X2
")) = [].
Proof. repeat split; vm_compute; reflexivity. Qed.

(** C5, on the code.  A line that starts with [;] or [#] is counted by
    pass 1 like an instruction and pass 2 emits the word [0] for it
    ([parse_instruction] returns [0] with [error] clear, and [main] appends
    whatever is neither blank nor a label); a label after it is bound one
    address further. *)
Theorem comment_marker_line_is_counted :
  fst (pass1 V1.MAX_INSTR V1.MAX_LABELS (read_lines "; a note
") false 0 []) = 1
  /\ V1.main "; a note
" = ([0], [])
  /\ V1.main "# a note
" = ([0], [])
  /\ V1.main "; a note
loop:
  B loop
" = ([0x0000; 0x010A], []).
Proof. repeat split; vm_compute; reflexivity. Qed.

(** What does hold of pass 1: a label line never advances the program
    counter, a blank line neither, and every other line advances it by
    exactly one. *)
Lemma pass1_step MAX_INSTR MAX_LABELS line lines inMultiline pc symTable :
  pc < MAX_INSTR ->
  let stripped := fst (strip_comments line inMultiline) in
  let inMultiline' := snd (strip_comments line inMultiline) in
  pass1 MAX_INSTR MAX_LABELS (line :: lines) inMultiline pc symTable =
  if is_empty (skip_spaces stripped) then
    pass1 MAX_INSTR MAX_LABELS lines inMultiline' pc symTable
  else if is_label stripped then
    pass1 MAX_INSTR MAX_LABELS lines inMultiline' pc
      (fst (symbol_table_add MAX_LABELS symTable (parse_label stripped) (u8 pc)))
  else pass1 MAX_INSTR MAX_LABELS lines inMultiline' (pc + 1) symTable.
Proof.
  intros Hpc. cbn [pass1]. apply Z.ltb_lt in Hpc. rewrite Hpc.
  destruct (strip_comments line inMultiline) as [stripped inM'].
  cbn [fst snd]. rewrite is_label_skip_spaces.
  unfold parse_label. rewrite skip_spaces_idempotent. reflexivity.
Qed.

Lemma is_label_needs_letter s :
  isalpha (head (skip_spaces s)) = false ->
  Ascii.eqb (head (skip_spaces s)) "_" = false ->
  is_label s = false.
Proof.
  intros Ha Hu. unfold is_label. cbv zeta. rewrite Ha, Hu.
  destruct (is_empty _); [reflexivity|].
  destruct (strchr _ _); [|reflexivity].
  destruct (_ || _); reflexivity.
Qed.

(** In general: whenever the stripped line starts, after white space, with
    [;] or [#], pass 1 of [lsasm.c] counts it and pass 2 appends the word
    [0] for it without a diagnostic. *)
Lemma comment_marker_line_in_both_passes
    symTable line lines inMultiline pc table1 instructions stderr :
  let stripped := fst (strip_comments line inMultiline) in
  let inMultiline' := snd (strip_comments line inMultiline) in
  head (skip_spaces stripped) = ";"%char \/ head (skip_spaces stripped) = "#"%char ->
  pc < V1.MAX_INSTR ->
  Z.of_nat (List.length instructions) < V1.MAX_INSTR ->
  pass1 V1.MAX_INSTR V1.MAX_LABELS (line :: lines) inMultiline pc table1 =
  pass1 V1.MAX_INSTR V1.MAX_LABELS lines inMultiline' (pc + 1) table1
  /\ pass2 V1.MAX_INSTR V1.parse_instruction symTable (line :: lines)
       inMultiline instructions stderr =
     pass2 V1.MAX_INSTR V1.parse_instruction symTable lines inMultiline'
       (instructions ++ [0]) stderr.
Proof.
  intros stripped inM' Hhead Hpc Hcount.
  assert (Hne : is_empty (skip_spaces stripped) = false)
    by (destruct (skip_spaces stripped); [destruct Hhead; discriminate | reflexivity]).
  assert (Hnl : is_label stripped = false)
    by (apply is_label_needs_letter; destruct Hhead as [-> | ->]; reflexivity).
  assert (Hparse : V1.parse_instruction stripped symTable = (0, false)).
  { unfold V1.parse_instruction. cbv zeta. rewrite Hne.
    destruct Hhead as [-> | ->]; reflexivity. }
  split.
  - rewrite pass1_step by exact Hpc. fold stripped inM'.
    rewrite Hne, Hnl. reflexivity.
  - cbn [pass2]. cbv zeta. apply Z.ltb_lt in Hcount. rewrite Hcount.
    subst stripped inM'. destruct (strip_comments line inMultiline) as [s i].
    cbn [fst snd] in *. rewrite Hparse, Hne.
    rewrite is_label_skip_spaces, Hnl. reflexivity.
Qed.

(** ** Where the opcode sits in an encoded word *)

Section Fields.

(** The low [m] bits survive a truncation to [n >= m] bits. *)
Lemma land_ones_mod x m n :
  0 <= m <= n -> Z.land (x mod 2 ^ n) (Z.ones m) = Z.land x (Z.ones m).
Proof.
  intros H. rewrite <- (Z.land_ones x n) by lia.
  rewrite <- Z.land_assoc. f_equal.
  apply Z.bits_inj'. intros i Hi.
  rewrite Z.land_spec.
  destruct (Z.ltb_spec i m).
  - rewrite !Z.ones_spec_low by lia. reflexivity.
  - rewrite (Z.ones_spec_high m) by lia. apply andb_false_r.
Qed.

(** A field shifted to bit [k >= m] leaves the low [m] bits clear. *)
Lemma land_ones_shiftl x k m :
  0 <= m <= k -> Z.land (Z.shiftl x k) (Z.ones m) = 0.
Proof.
  intros H. apply Z.bits_inj'. intros i Hi.
  rewrite Z.land_spec, Z.bits_0.
  destruct (Z.ltb_spec i m).
  - rewrite Z.shiftl_spec_low by lia. reflexivity.
  - rewrite Z.ones_spec_high by lia. apply andb_false_r.
Qed.

Lemma low_byte_or32 instr e :
  low_byte (V2.or32 instr e) = Z.lor (low_byte instr) (low_byte e).
Proof.
  unfold low_byte, V2.or32, u32.
  change 0xFF with (Z.ones 8). change 4294967296 with (2 ^ 32).
  rewrite land_ones_mod by lia. apply Z.land_lor_distr_l.
Qed.

Lemma low_byte_field x k : 8 <= k -> low_byte (Z.shiftl x k) = 0.
Proof. intros H. apply (land_ones_shiftl x k 8). lia. Qed.

Lemma low_byte_u8 x : low_byte (u8 x) = u8 x.
Proof.
  unfold low_byte, u8. change 0xFF with (Z.ones 8).
  rewrite Z.land_ones by lia. change (2 ^ 8) with 256.
  apply Z.mod_mod. discriminate.
Qed.

Lemma low_nibble_or16 instr e :
  low_nibble (V1.or16 instr e) = Z.lor (low_nibble instr) (low_nibble e).
Proof.
  unfold low_nibble, V1.or16, u16.
  change 0xF with (Z.ones 4). change 65536 with (2 ^ 16).
  rewrite land_ones_mod by lia. apply Z.land_lor_distr_l.
Qed.

Lemma low_nibble_field x k : 4 <= k -> low_nibble (Z.shiftl x k) = 0.
Proof. intros H. apply (land_ones_shiftl x k 4). lia. Qed.

End Fields.

Ltac low_byte_of_encoder :=
  cbv zeta;
  repeat (rewrite ?low_byte_or32, ?low_byte_field, ?low_byte_u8 by lia);
  try reflexivity.

Ltac low_nibble_of_encoder :=
  cbv zeta;
  repeat (rewrite ?low_nibble_or16, ?low_nibble_field by lia);
  change (low_nibble 0x0080) with 0; change (low_nibble 0) with 0;
  rewrite ?Z.lor_0_r, ?Z.lor_0_l;
  try reflexivity.

(** The 32-bit encoders put their opcode in bits 0-7.  For the ALU encoder
    that is the byte [actual_opcode] it computes. *)
Lemma V2_encode_alu_low_byte op dst src1 src2 altBit :
  low_byte (V2.encode_alu op dst src1 src2 altBit) =
  u8 (if altBit then Z.lor (V2.opcode_val op) 0x10 else V2.opcode_val op).
Proof.
  unfold V2.encode_alu. destruct altBit; cbn [negb]; low_byte_of_encoder;
    change (low_byte 0) with 0; rewrite ?Z.lor_0_r, ?Z.lor_0_l; reflexivity.
Qed.

Lemma V2_fixed_opcode_low_byte :
  (forall dst src altBit,
      low_byte (V2.encode_move dst src altBit) =
      V2.opcode_val (if altBit then V2.MOVE_I else V2.MOVE))
  /\ (forall src1 src2 altBit,
      low_byte (V2.encode_cmp src1 src2 altBit) =
      V2.opcode_val (if altBit then V2.CMP_I else V2.CMP))
  /\ (forall condition target is_immediate,
      low_byte (V2.encode_branch condition target is_immediate) =
      V2.opcode_val (if is_immediate then V2.B_I else V2.B))
  /\ (forall dst addr_reg,
      low_byte (V2.encode_read dst addr_reg) = V2.opcode_val V2.READ)
  /\ (forall dst addr_imm,
      low_byte (V2.encode_read_i dst addr_imm) = V2.opcode_val V2.READ_I)
  /\ (forall data_reg addr_reg,
      low_byte (V2.encode_write data_reg addr_reg) = V2.opcode_val V2.WRITE)
  /\ (forall data_reg addr_imm,
      low_byte (V2.encode_write_i data_reg addr_imm) = V2.opcode_val V2.WRITE_I)
  /\ (forall data_reg pos_reg,
      low_byte (V2.encode_print_reg data_reg pos_reg) =
      V2.opcode_val V2.PRINT_REG)
  /\ (forall data_reg pos_imm,
      low_byte (V2.encode_print_reg_i data_reg pos_imm) =
      V2.opcode_val V2.PRINT_REG_I)
  /\ (forall data_const pos_reg,
      low_byte (V2.encode_print_const data_const pos_reg) =
      V2.opcode_val V2.PRINT_CONST)
  /\ (forall data_const pos_imm,
      low_byte (V2.encode_print_const_i data_const pos_imm) =
      V2.opcode_val V2.PRINT_CONST_I).
Proof.
  repeat split; intros;
    unfold V2.encode_move, V2.encode_cmp, V2.encode_branch, V2.encode_read,
      V2.encode_read_i, V2.encode_write, V2.encode_write_i,
      V2.encode_print_reg, V2.encode_print_reg_i, V2.encode_print_const,
      V2.encode_print_const_i;
    try match goal with b : bool |- _ => destruct b end;
    cbn [negb]; low_byte_of_encoder.
Qed.

(** The 16-bit encoders put their opcode in bits 0-3; bits 4-7 of the low
    byte hold a register or condition field and the ALT bit. *)
Lemma V1_opcode_low_nibble :
  (forall op dst src1 src2 altBit,
      low_nibble (V1.encode_alu op dst src1 src2 altBit) = V1.opcode_val op)
  /\ (forall dst src altBit,
      low_nibble (V1.encode_move dst src altBit) = V1.opcode_val V1.MOVE)
  /\ (forall dst addr altBit,
      low_nibble (V1.encode_memory dst addr altBit) = V1.opcode_val V1.MEMORY)
  /\ (forall src1 src2 altBit,
      low_nibble (V1.encode_cmp src1 src2 altBit) = V1.opcode_val V1.CMP)
  /\ (forall dataReg addrReg altBit,
      low_nibble (V1.encode_memi dataReg addrReg altBit) =
      V1.opcode_val V1.MEMI)
  /\ (forall condition target,
      low_nibble (V1.encode_b condition target) = V1.opcode_val V1.B).
Proof.
  repeat split; intros;
    unfold V1.encode_alu, V1.encode_move, V1.encode_memory, V1.encode_cmp,
      V1.encode_memi, V1.encode_b;
    try match goal with b : bool |- _ => destruct b end;
    cbn [negb]; low_nibble_of_encoder.
  all: destruct op; reflexivity.
Qed.

(** ** Every word the parsers return *)

(** Case analysis along the conditionals and the [sscanf] results of a
    parser, leaving the encoders folded. *)
Ltac break_parse H :=
  repeat match type of H with
         | context [if ?b then _ else _] => destruct b eqn:?
         | context [match ?x with [] => _ | _ :: _ => _ end] => destruct x eqn:?
         | context [match ?x with Some _ => _ | None => _ end] => destruct x eqn:?
         end.

Ltac returned_word H :=
  apply (f_equal fst) in H; cbn [fst] in H; rewrite <- H.

(** Whatever the line, a word that [lsasm_v2.c] returns without error has
    an opcode of the instruction set in its low byte; the 16-bit
    [encode_b] left in the file is never reached. *)
Lemma V2_emitted_low_byte line symTable w :
  V2.parse_instruction line symTable = (w, false) ->
  In (low_byte w) V2_opcode_bytes.
Proof.
  pose proof V2_fixed_opcode_low_byte
    as (Hmove & Hcmp & Hbranch & Hread & Hreadi & Hwrite & Hwritei
        & Hpr & Hpri & Hpc & Hpci).
  intros H. unfold V2.parse_instruction in H. cbv zeta in H.
  destruct (_ || _) in H; [injection H as <-; cbn; tauto|].
  destruct (is_label _) in H; [injection H as <-; cbn; tauto|].
  unfold V2.dispatch, V2.parse_alu_instruction, V2.parse_print in H.
  cbv zeta in H.
  break_parse H.
  all: try discriminate H.
  all: try match goal with
           | Hb : branch_of_mnemonic ?m = Some ?b,
             Hc : (0 <=? V2.parse_branch_condition ?m) = false |- _ =>
               unfold V2.parse_branch_condition in Hc; rewrite Hb in Hc;
               destruct b; discriminate Hc
           end.
  all: returned_word H.
  all: rewrite ?V2_encode_alu_low_byte, ?Hmove, ?Hcmp, ?Hbranch, ?Hread,
         ?Hreadi, ?Hwrite, ?Hwritei, ?Hpr, ?Hpri, ?Hpc, ?Hpci.
  all: cbn; tauto.
Qed.

(** Whatever the line, a word that [lsasm.c] returns without error has an
    opcode of the instruction set in its low four bits. *)
Lemma V1_emitted_low_nibble line symTable w :
  V1.parse_instruction line symTable = (w, false) ->
  In (low_nibble w) V1_opcodes.
Proof.
  pose proof V1_opcode_low_nibble
    as (Halu & Hmove & Hmemory & Hcmp & Hmemi & Hb).
  intros H. unfold V1.parse_instruction in H. cbv zeta in H.
  destruct (_ || _) in H; [injection H as <-; cbn; tauto|].
  destruct (is_label _) in H; [injection H as <-; cbn; tauto|].
  unfold V1.dispatch, V1.parse_alu_instruction, V1.parse_memory in H.
  cbv zeta in H.
  break_parse H.
  all: try discriminate H.
  all: returned_word H.
  all: rewrite ?Halu, ?Hmove, ?Hmemory, ?Hcmp, ?Hmemi, ?Hb.
  all: cbn; tauto.
Qed.

(** C3, as amended.  Every encoder of the 32-bit assembler leaves its
    opcode in the lowest-order byte (bits 0-7) of the word, whatever the
    operands; every encoder of the 16-bit assembler leaves its opcode in
    the low four bits.  So every word a parser returns without error has
    an opcode of its instruction set there. *)
Theorem opcode_occupies_the_lowest_bits :
  (forall op dst src1 src2 altBit,
      low_byte (V2.encode_alu op dst src1 src2 altBit) =
      u8 (if altBit then Z.lor (V2.opcode_val op) 0x10 else V2.opcode_val op))
  /\ (forall dst src altBit,
      low_byte (V2.encode_move dst src altBit) =
      V2.opcode_val (if altBit then V2.MOVE_I else V2.MOVE))
  /\ (forall src1 src2 altBit,
      low_byte (V2.encode_cmp src1 src2 altBit) =
      V2.opcode_val (if altBit then V2.CMP_I else V2.CMP))
  /\ (forall condition target is_immediate,
      low_byte (V2.encode_branch condition target is_immediate) =
      V2.opcode_val (if is_immediate then V2.B_I else V2.B))
  /\ (forall dst addr_reg,
      low_byte (V2.encode_read dst addr_reg) = V2.opcode_val V2.READ)
  /\ (forall dst addr_imm,
      low_byte (V2.encode_read_i dst addr_imm) = V2.opcode_val V2.READ_I)
  /\ (forall data_reg addr_reg,
      low_byte (V2.encode_write data_reg addr_reg) = V2.opcode_val V2.WRITE)
  /\ (forall data_reg addr_imm,
      low_byte (V2.encode_write_i data_reg addr_imm) = V2.opcode_val V2.WRITE_I)
  /\ (forall data_reg pos_reg,
      low_byte (V2.encode_print_reg data_reg pos_reg) =
      V2.opcode_val V2.PRINT_REG)
  /\ (forall data_reg pos_imm,
      low_byte (V2.encode_print_reg_i data_reg pos_imm) =
      V2.opcode_val V2.PRINT_REG_I)
  /\ (forall data_const pos_reg,
      low_byte (V2.encode_print_const data_const pos_reg) =
      V2.opcode_val V2.PRINT_CONST)
  /\ (forall data_const pos_imm,
      low_byte (V2.encode_print_const_i data_const pos_imm) =
      V2.opcode_val V2.PRINT_CONST_I)
  /\ (forall op dst src1 src2 altBit,
      low_nibble (V1.encode_alu op dst src1 src2 altBit) = V1.opcode_val op)
  /\ (forall dst src altBit,
      low_nibble (V1.encode_move dst src altBit) = V1.opcode_val V1.MOVE)
  /\ (forall dst addr altBit,
      low_nibble (V1.encode_memory dst addr altBit) = V1.opcode_val V1.MEMORY)
  /\ (forall src1 src2 altBit,
      low_nibble (V1.encode_cmp src1 src2 altBit) = V1.opcode_val V1.CMP)
  /\ (forall dataReg addrReg altBit,
      low_nibble (V1.encode_memi dataReg addrReg altBit) =
      V1.opcode_val V1.MEMI)
  /\ (forall condition target,
      low_nibble (V1.encode_b condition target) = V1.opcode_val V1.B)
  /\ (forall line symTable w,
      V2.parse_instruction line symTable = (w, false) ->
      In (low_byte w) V2_opcode_bytes)
  /\ (forall line symTable w,
      V1.parse_instruction line symTable = (w, false) ->
      In (low_nibble w) V1_opcodes).
Proof.
  split; [exact V2_encode_alu_low_byte|].
  pose proof V2_fixed_opcode_low_byte as H2.
  pose proof V1_opcode_low_nibble as H1.
  repeat (split; [apply H2 || apply H1|]).
  split; [exact V2_emitted_low_byte | exact V1_emitted_low_nibble].
Qed.

(** The line [ADD X0, X1, X2] in both assemblers. *)
Lemma opcode_occupies_the_lowest_bits_witness :
  In (low_byte 0x00021004) V2_opcode_bytes
  /\ In (low_nibble 0x2104) V1_opcodes.
Proof.
  destruct opcode_occupies_the_lowest_bits as (_ & H).
  do 17 (destruct H as (_ & H)). destruct H as (H2 & H1).
  split.
  - apply (H2 "ADD X0, X1, X2" []). vm_compute. reflexivity.
  - apply (H1 "ADD X0, X1, X2" []). vm_compute. reflexivity.
Defined.

(** C3 as the specification words it: the top byte of the word of
    [ADD X0, X1, X2] is [0], not the opcode [0x04], which sits in the low
    byte; and the low byte of the 16-bit word of the same line is [0x04]
    only because the destination is [X0]: for [ADD X1, X1, X2] it is
    [0x14]. *)
Lemma top_byte_is_not_the_opcode :
  let w := fst (V2.parse_instruction "ADD X0, X1, X2" []) in
  w = 0x00021004
  /\ top_byte w <> V2.opcode_val V2.ALU_ADD
  /\ low_byte w = V2.opcode_val V2.ALU_ADD
  /\ low_byte (fst (V1.parse_instruction "ADD X1, X1, X2" [])) <>
     V1.opcode_val V1.ALU_ADD.
Proof.
  repeat split; try (vm_compute; reflexivity); vm_compute; discriminate.
Qed.

(** ** The ALPHA and BETA banks *)

Section Banks.

Lemma store_length i v rom : List.length (V2.store i v rom) = List.length rom.
Proof.
  revert i. induction rom as [|x rom IH]; intros [|i]; cbn; try reflexivity.
  rewrite IH. reflexivity.
Qed.

Lemma nth_store_same i v rom :
  (i < List.length rom)%nat -> nth i (V2.store i v rom) 0 = v.
Proof.
  revert i. induction rom as [|x rom IH]; intros [|i] H; cbn in *;
    try reflexivity; try lia.
  apply IH. lia.
Qed.

Lemma nth_store_other i a v rom :
  a <> i -> nth a (V2.store i v rom) 0 = nth a rom 0.
Proof.
  revert i a. induction rom as [|x rom IH]; intros [|i] [|a] H; cbn;
    try reflexivity; try congruence.
  apply IH. congruence.
Qed.

(** The loop invariant of the split: after the [n] iterations from index
    [i], the cells [i .. i+n-1] hold the halves of the words at the same
    index and every other cell is what it was. *)
Lemma split_loop_spec n :
  forall i instructions alpha_rom beta_rom a,
    (i + n <= List.length alpha_rom)%nat ->
    (i + n <= List.length beta_rom)%nat ->
    let out := V2.split_loop n i instructions alpha_rom beta_rom in
    nth a (fst out) 0 =
      (if (i <=? a)%nat && (a <? i + n)%nat
       then Z.land (Z.shiftr (nth a instructions 0) 16) 0xFFFF
       else nth a alpha_rom 0)
    /\ nth a (snd out) 0 =
      (if (i <=? a)%nat && (a <? i + n)%nat
       then Z.land (nth a instructions 0) 0xFFFF
       else nth a beta_rom 0)
    /\ List.length (fst out) = List.length alpha_rom
    /\ List.length (snd out) = List.length beta_rom.
Proof.
  induction n as [|n IH]; intros i instructions alpha beta a Ha Hb out.
  - subst out. cbn [V2.split_loop fst snd].
    replace ((i <=? a)%nat && (a <? i + 0)%nat) with false; [tauto|].
    symmetry. apply andb_false_iff.
    destruct (Nat.leb_spec i a); [right | left; reflexivity].
    apply Nat.ltb_ge. lia.
  - subst out. cbn [V2.split_loop]. cbv zeta.
    set (hi := u16 (Z.land (Z.shiftr (nth i instructions 0) 16) 0xFFFF)).
    set (lo := u16 (Z.land (nth i instructions 0) 0xFFFF)).
    destruct (IH (S i) instructions (V2.store i hi alpha) (V2.store i lo beta) a)
      as (Hhi & Hlo & Hla & Hlb); rewrite ?store_length; try lia.
    rewrite Hhi, Hlo, Hla, Hlb, !store_length.
    repeat split.
    + destruct (Nat.eq_dec a i) as [->|Hne].
      * replace ((S i <=? i)%nat && (i <? S i + n)%nat) with false
          by (symmetry; apply andb_false_iff; left; apply Nat.leb_gt; lia).
        replace ((i <=? i)%nat && (i <? i + S n)%nat) with true
          by (symmetry; apply andb_true_iff; split;
              [apply Nat.leb_le | apply Nat.ltb_lt]; lia).
        rewrite nth_store_same by lia. subst hi. unfold u16.
        change 0xFFFF with (Z.ones 16). rewrite Z.land_ones by lia.
        apply Z.mod_mod. discriminate.
      * rewrite nth_store_other by exact Hne.
        replace ((S i <=? a)%nat && (a <? S i + n)%nat)
          with ((i <=? a)%nat && (a <? i + S n)%nat); [reflexivity|].
        destruct (Nat.leb_spec i a), (Nat.leb_spec (S i) a),
          (Nat.ltb_spec a (i + S n)), (Nat.ltb_spec a (S i + n));
          try reflexivity; lia.
    + destruct (Nat.eq_dec a i) as [->|Hne].
      * replace ((S i <=? i)%nat && (i <? S i + n)%nat) with false
          by (symmetry; apply andb_false_iff; left; apply Nat.leb_gt; lia).
        replace ((i <=? i)%nat && (i <? i + S n)%nat) with true
          by (symmetry; apply andb_true_iff; split;
              [apply Nat.leb_le | apply Nat.ltb_lt]; lia).
        rewrite nth_store_same by lia. subst lo. unfold u16.
        change 0xFFFF with (Z.ones 16). rewrite Z.land_ones by lia.
        apply Z.mod_mod. discriminate.
      * rewrite nth_store_other by exact Hne.
        replace ((S i <=? a)%nat && (a <? S i + n)%nat)
          with ((i <=? a)%nat && (a <? i + S n)%nat); [reflexivity|].
        destruct (Nat.leb_spec i a), (Nat.leb_spec (S i) a),
          (Nat.ltb_spec a (i + S n)), (Nat.ltb_spec a (S i + n));
          try reflexivity; lia.
Qed.

Lemma repeat_nth_zero n a : nth a (repeat 0 n) 0 = 0.
Proof.
  revert a. induction n as [|n IH]; intros [|a]; cbn; try reflexivity.
  apply IH.
Qed.

(** The banks of any array of at most 256 words. *)
Lemma split_spec instructions a :
  (List.length instructions <= 256)%nat ->
  nth a (fst (V2.split instructions)) 0 =
    (if (a <? List.length instructions)%nat
     then Z.land (Z.shiftr (nth a instructions 0) 16) 0xFFFF else 0)
  /\ nth a (snd (V2.split instructions)) 0 =
    (if (a <? List.length instructions)%nat
     then Z.land (nth a instructions 0) 0xFFFF else 0)
  /\ List.length (fst (V2.split instructions)) = 256%nat
  /\ List.length (snd (V2.split instructions)) = 256%nat.
Proof.
  intros Hlen. unfold V2.split. cbv zeta.
  destruct (split_loop_spec (List.length instructions) 0 instructions
              (repeat 0 256) (repeat 0 256) a)
    as (Hhi & Hlo & Hla & Hlb); rewrite ?repeat_length; try (cbn; lia).
  rewrite Hhi, Hlo, Hla, Hlb, !repeat_length, !repeat_nth_zero.
  cbn [Nat.leb andb Nat.add]. repeat split; reflexivity.
Qed.

Variable MAX_INSTR : Z.
Variable parse_instruction : string -> SymbolTable -> Z * bool.

(** Pass 2 stops appending at the capacity. *)
Lemma pass2_bounded symTable lines :
  forall inMultiline instructions stderr,
    Z.of_nat (List.length instructions) <= Z.max 0 MAX_INSTR ->
    Z.of_nat (List.length
      (fst (pass2 MAX_INSTR parse_instruction symTable lines inMultiline
              instructions stderr))) <= Z.max 0 MAX_INSTR.
Proof.
  induction lines as [|line lines IH]; intros inM instrs err H;
    cbn [pass2 fst]; [exact H|]. cbv zeta.
  destruct (Z.ltb_spec (Z.of_nat (List.length instrs)) MAX_INSTR);
    [|exact H].
  destruct (strip_comments line inM) as [line' inM'].
  destruct (parse_instruction line' symTable) as [instr error].
  destruct error; [apply IH; exact H|].
  destruct (_ && _); [|apply IH; exact H].
  apply IH. rewrite length_app. cbn [List.length]. lia.
Qed.

End Banks.

Lemma V2_program_fits lines : (List.length (fst (V2.assemble lines)) <= 256)%nat.
Proof.
  unfold V2.assemble.
  destruct (pass1 _ _ _ _ _ _) as [pc symTable].
  pose proof (pass2_bounded V2.MAX_INSTR V2.parse_instruction symTable lines
                false [] []) as H.
  cbn [List.length] in H. unfold V2.MAX_INSTR in *.
  specialize (H ltac:(lia)). lia.
Qed.

(** [AssemblerTool::execute] splits its words by the same loop. *)
Lemma AssemblerTool_split_is_split instructions :
  AssemblerTool.split instructions = V2.split instructions.
Proof.
  unfold AssemblerTool.split, V2.split. cbv zeta.
  generalize (repeat 0 256) at 1 3. generalize (repeat 0 256).
  generalize 0%nat. generalize (List.length instructions) as n.
  induction n as [|n IH]; intros i beta alpha; [reflexivity|].
  cbn [AssemblerTool.split_loop V2.split_loop]. cbv zeta. apply IH.
Qed.

Lemma AssemblerTool_program_fits instructions_tech branch_conditions symbolTable
    aliasTable lines :
  forall inMultiline instructions cerr,
    (List.length instructions <= 256)%nat ->
    (List.length
       (fst (AssemblerTool.pass2 instructions_tech branch_conditions symbolTable
               aliasTable lines inMultiline instructions cerr)) <= 256)%nat.
Proof.
  induction lines as [|line lines IH]; intros inM instrs cerr H;
    cbn [AssemblerTool.pass2 fst]; [exact H|].
  destruct (Nat.ltb_spec (List.length instrs) 256); [|exact H].
  destruct (AssemblerTool.stripComments line inM) as [line' inM'].
  destruct (AssemblerTool.parseInstruction _ _ _ _ _ _) as [instr error].
  destruct error; [apply IH; exact H|].
  destruct (AssemblerTool.trim_blanks line') as [trimmed|]; [|apply IH; exact H].
  destruct (_ && _); [|apply IH; exact H].
  apply IH. rewrite length_app. cbn [List.length]. lia.
Qed.

(** C8.  For every source and every address below 256, the ALPHA bank holds
    bits 16-31 and the BETA bank bits 0-15 of the word the program has at
    that address, and both hold 0 from the end of the program on; the banks
    have 256 cells.  The same holds of any array of at most 256 words, in
    [lsasm_v2.c] and in [AssemblerTool::execute], so a word [0xDEADBEEF] at
    address 3 puts [0xDEAD] in ALPHA and [0xBEEF] in BETA at address 3. *)
Theorem split_bank_invariant :
  (forall (lines : list string) (a : nat),
      (a < 256)%nat ->
      let program := fst (V2.assemble lines) in
      nth a (fst (V2.split program)) 0 =
        (if (a <? List.length program)%nat
         then Z.land (Z.shiftr (nth a program 0) 16) 0xFFFF else 0)
      /\ nth a (snd (V2.split program)) 0 =
        (if (a <? List.length program)%nat
         then Z.land (nth a program 0) 0xFFFF else 0)
      /\ List.length (fst (V2.split program)) = 256%nat
      /\ List.length (snd (V2.split program)) = 256%nat)
  /\
  (forall instructions : list Z,
      (List.length instructions <= 256)%nat ->
      (3 < List.length instructions)%nat ->
      nth 3 instructions 0 = 0xDEADBEEF ->
      nth 3 (fst (V2.split instructions)) 0 = 0xDEAD
      /\ nth 3 (snd (V2.split instructions)) 0 = 0xBEEF)
  /\
  (forall (instructions : list Z) (a : nat),
      (List.length instructions <= 256)%nat ->
      (a < 256)%nat ->
      nth a (fst (AssemblerTool.split instructions)) 0 =
        (if (a <? List.length instructions)%nat
         then Z.land (Z.shiftr (nth a instructions 0) 16) 0xFFFF else 0)
      /\ nth a (snd (AssemblerTool.split instructions)) 0 =
        (if (a <? List.length instructions)%nat
         then Z.land (nth a instructions 0) 0xFFFF else 0)).
Proof.
  split; [|split].
  - intros lines a _ program. apply split_spec. apply V2_program_fits.
  - intros instructions Hlen H3 Hw.
    destruct (split_spec instructions 3 Hlen) as (Hhi & Hlo & _).
    apply Nat.ltb_lt in H3. rewrite H3, Hw in Hhi, Hlo.
    split; assumption.
  - intros instructions a Hlen _. rewrite AssemblerTool_split_is_split.
    destruct (split_spec instructions a Hlen) as (Hhi & Hlo & _).
    split; assumption.
Qed.

(** A four-line program, and an array with [0xDEADBEEF] at address 3. *)
Lemma split_bank_invariant_witness :
  (let program := fst (V2.assemble (read_lines "MOV X0 0xBEEF
ADD X1 X0 X0
B 0
")) in
   program = [0xBEEF0021; 0x00000104; 0x00000025]
   /\ nth 0 (fst (V2.split program)) 0 = 0xBEEF
   /\ nth 0 (snd (V2.split program)) 0 = 0x0021
   /\ nth 3 (fst (V2.split program)) 0 = 0)
  /\ nth 3 (fst (V2.split [1; 2; 3; 0xDEADBEEF])) 0 = 0xDEAD
  /\ nth 3 (snd (V2.split [1; 2; 3; 0xDEADBEEF])) 0 = 0xBEEF.
Proof.
  pose proof split_bank_invariant as (Hprog & Hany & _).
  split.
  - intros program. split; [vm_compute; reflexivity|].
    destruct (Hprog (read_lines "MOV X0 0xBEEF
ADD X1 X0 X0
B 0
") 0%nat ltac:(lia)) as (Hhi & Hlo & _).
    destruct (Hprog (read_lines "MOV X0 0xBEEF
ADD X1 X0 X0
B 0
") 3%nat ltac:(lia)) as (Hhi3 & _).
    fold program in Hhi, Hlo, Hhi3.
    split; [rewrite Hhi; vm_compute; reflexivity|].
    split; [rewrite Hlo; vm_compute; reflexivity|].
    rewrite Hhi3; vm_compute; reflexivity.
  - apply (Hany [1; 2; 3; 0xDEADBEEF]); [cbn; lia | cbn; lia | reflexivity].
Defined.

(** ** The symbol table *)

Section SymbolTableFacts.

Variable MAX_LABELS : Z.

Lemma strncpy_short n : forall s, (String.length s <= n)%nat -> strncpy n s = s.
Proof.
  induction n as [|n IH]; intros [|c s] H; cbn in *; try reflexivity; try lia.
  rewrite IH by lia. reflexivity.
Qed.

Lemma symbol_table_add_room table nm addr :
  count table < MAX_LABELS ->
  symbol_table_add MAX_LABELS table nm addr = ((table ++ [entry (nm, addr)])%list, 0).
Proof.
  intros H. unfold symbol_table_add.
  destruct (Z.leb_spec MAX_LABELS (count table)); [lia | reflexivity].
Qed.


Lemma count_app table extra :
  count (table ++ extra) = count table + Z.of_nat (List.length extra).
Proof. unfold count. rewrite length_app. lia. Qed.

(** While there is room every definition is appended, whatever its name. *)
Lemma add_all_room defs :
  forall table,
    count table + Z.of_nat (List.length defs) <= MAX_LABELS ->
    add_all MAX_LABELS table defs = (table ++ map entry defs)%list.
Proof.
  induction defs as [|[nm addr] defs IH]; intros table H; cbn [add_all map].
  - rewrite app_nil_r. reflexivity.
  - cbn [List.length fst snd] in *.
    rewrite symbol_table_add_room by lia. cbn [fst].
    rewrite IH by (rewrite count_app; cbn [List.length]; lia).
    rewrite <- app_assoc. reflexivity.
Qed.

(** Definitions are only ever appended. *)
Lemma add_all_extends defs :
  forall table, exists extra, add_all MAX_LABELS table defs = (table ++ extra)%list.
Proof.
  induction defs as [|[nm addr] defs IH]; intros table; cbn [add_all fst snd].
  - exists []. rewrite app_nil_r. reflexivity.
  - unfold symbol_table_add. destruct (MAX_LABELS <=? count table); cbn [fst].
    + apply IH.
    + destruct (IH (table ++ [{| name := strncpy 31 nm; address := addr |}])%list)
        as [extra ->].
      eexists. rewrite <- app_assoc. reflexivity.
Qed.

Lemma lookup_skips_other_names table rest nm :
  defines table nm = false ->
  symbol_table_lookup (table ++ rest) nm = symbol_table_lookup rest nm.
Proof.
  induction table as [|l table IH]; intros H; [reflexivity|].
  cbn [defines existsb] in H. apply orb_false_iff in H as [H1 H2].
  cbn [app symbol_table_lookup]. rewrite H1. apply IH. exact H2.
Qed.

Lemma lookup_ignores_later_entries table extra nm :
  defines table nm = true ->
  symbol_table_lookup (table ++ extra) nm = symbol_table_lookup table nm.
Proof.
  induction table as [|l table IH]; intros H; [discriminate|].
  cbn [defines existsb] in H. cbn [app symbol_table_lookup].
  destruct (String.eqb (name l) nm); [reflexivity|].
  apply IH. exact H.
Qed.

Lemma defines_app table extra nm :
  defines (table ++ extra) nm = defines table nm || defines extra nm.
Proof. unfold defines. apply existsb_app. Qed.

Lemma lookup_undefined table nm :
  defines table nm = false -> symbol_table_lookup table nm = -1.
Proof.
  intros H. rewrite <- (app_nil_r table).
  rewrite lookup_skips_other_names by exact H. reflexivity.
Qed.

End SymbolTableFacts.

(** C9.  A name defined a second time is not rejected: as long as the table
    has room, the first definition, any definitions between, and the second
    definition each append an entry, so the name has two entries; and after
    any further definitions a lookup of the name still returns the address
    of the first one.  (The name fits the 31 characters an entry keeps and
    has no earlier definition.) *)
Theorem duplicate_label_keeps_first
    (MAX_LABELS : Z) (table : SymbolTable) (nm : string) (first second : Z)
    (between later : list (string * Z)) :
  (String.length nm <= 31)%nat ->
  defines table nm = false ->
  count table + Z.of_nat (List.length between) + 2 <= MAX_LABELS ->
  let table2 :=
    add_all MAX_LABELS table ((nm, first) :: between ++ [(nm, second)]) in
  table2 = (table ++ entry (nm, first) :: map entry between
                  ++ [entry (nm, second)])%list
  /\ name (entry (nm, first)) = nm
  /\ name (entry (nm, second)) = nm
  /\ symbol_table_lookup table2 nm = first
  /\ symbol_table_lookup (add_all MAX_LABELS table2 later) nm = first.
Proof.
  intros Hlen Hnew Hroom table2.
  assert (Hname : strncpy 31 nm = nm) by (apply strncpy_short; exact Hlen).
  assert (E2 : table2 = (table ++ entry (nm, first) :: map entry between
                               ++ [entry (nm, second)])%list).
  { subst table2. rewrite add_all_room.
    - cbn [map]. rewrite map_app. reflexivity.
    - cbn [List.length]. rewrite length_app. cbn [List.length]. lia. }
  assert (L2 : forall extra,
             symbol_table_lookup
               (table ++ (entry (nm, first) :: map entry between
                          ++ [entry (nm, second)]) ++ extra) nm = first).
  { intros extra. rewrite lookup_skips_other_names by exact Hnew.
    cbn [app symbol_table_lookup entry name fst snd address].
    rewrite Hname, String.eqb_refl. reflexivity. }
  split; [exact E2|].
  split; [exact Hname|]. split; [exact Hname|].
  split.
  - rewrite E2. specialize (L2 []). rewrite app_nil_r in L2. exact L2.
  - destruct (add_all_extends MAX_LABELS later table2) as [extra ->].
    rewrite E2, <- app_assoc. apply L2.
Qed.

(** Two definitions of [loop] with one of [done] between them, then a
    third; and the same through pass 1 of [lsasm.c]. *)
Lemma duplicate_label_keeps_first_witness :
  symbol_table_lookup
    (add_all 128
       (add_all 128 [] [("loop", 0); ("done", 2); ("loop", 5)])
       [("loop", 7)]) "loop" = 0
  /\ snd (pass1 V1.MAX_INSTR V1.MAX_LABELS (read_lines "loop:
  MOV X0 1
loop:
  B loop
") false 0 []) = [ {| name := "loop"; address := 0 |};
                   {| name := "loop"; address := 1 |} ].
Proof.
  split.
  - apply (duplicate_label_keeps_first 128 [] "loop" 0 5 [("done", 2)]
             [("loop", 7)]).
    + cbn. lia.
    + reflexivity.
    + cbn. lia.
  - vm_compute. reflexivity.
Defined.

(** ** Branch lines *)

Section Tokens.

Lemma plain_token_inv tok :
  plain_token tok = true ->
  exists c r, tok = String c r /\ isspace c = false
              /\ all_chars (fun c => negb (isspace c) && negb (Ascii.eqb c ":")) tok = true.
Proof.
  unfold plain_token. destruct tok as [|c r]; [discriminate|].
  cbn [is_empty negb andb]. intros H. exists c, r.
  split; [reflexivity|]. split; [|exact H].
  cbn [all_chars] in H. apply andb_true_iff in H as [H _].
  apply andb_true_iff in H as [H _]. apply negb_true_iff in H. exact H.
Qed.

Lemma skip_spaces_token tok r :
  plain_token tok = true -> skip_spaces (tok ++ r)%string = (tok ++ r)%string.
Proof.
  intros H. destruct (plain_token_inv tok H) as (c & r' & -> & Hc & _).
  cbn [append skip_spaces]. rewrite Hc. reflexivity.
Qed.

Lemma take_nonspaces_app tok r :
  all_chars (fun c => negb (isspace c) && negb (Ascii.eqb c ":")) tok = true ->
  take_nonspaces (tok ++ r)%string = (tok ++ take_nonspaces r)%string.
Proof.
  induction tok as [|c tok IH]; intros H; [reflexivity|].
  cbn [all_chars] in H. apply andb_true_iff in H as [Hc H].
  apply andb_true_iff in Hc as [Hc _]. apply negb_true_iff in Hc.
  cbn [append take_nonspaces]. rewrite Hc, IH by exact H. reflexivity.
Qed.

Lemma skip_nonspaces_app tok r :
  all_chars (fun c => negb (isspace c) && negb (Ascii.eqb c ":")) tok = true ->
  skip_nonspaces (tok ++ r)%string = skip_nonspaces r.
Proof.
  induction tok as [|c tok IH]; intros H; [reflexivity|].
  cbn [all_chars] in H. apply andb_true_iff in H as [Hc H].
  apply andb_true_iff in Hc as [Hc _]. apply negb_true_iff in Hc.
  cbn [append skip_nonspaces]. rewrite Hc. apply IH. exact H.
Qed.

Lemma strchr_colon_app tok r :
  all_chars (fun c => negb (isspace c) && negb (Ascii.eqb c ":")) tok = true ->
  strchr r ":" = None -> strchr (tok ++ r)%string ":" = None.
Proof.
  induction tok as [|c tok IH]; intros H Hr; [exact Hr|].
  cbn [all_chars] in H. apply andb_true_iff in H as [Hc H].
  apply andb_true_iff in Hc as [_ Hc]. apply negb_true_iff in Hc.
  cbn [append strchr]. rewrite Hc, IH by assumption. reflexivity.
Qed.

Lemma take_nonspaces_token tok :
  plain_token tok = true -> take_nonspaces tok = tok.
Proof.
  intros H. destruct (plain_token_inv tok H) as (_ & _ & _ & _ & Hall).
  rewrite <- (append_empty_r tok) at 1.
  rewrite take_nonspaces_app by exact Hall. apply append_empty_r.
Qed.

Lemma strchr_colon_token tok :
  plain_token tok = true -> strchr tok ":" = None.
Proof.
  intros H. destruct (plain_token_inv tok H) as (_ & _ & _ & _ & Hall).
  rewrite <- (append_empty_r tok). apply strchr_colon_app; [exact Hall | reflexivity].
Qed.

(** A [%s] conversion on a token reads the token. *)
Lemma sscanf_token n tok :
  plain_token tok = true -> sscanf_s (S n) tok = [tok].
Proof.
  intros H. pose proof (skip_spaces_token tok "" H) as Hs.
  rewrite append_empty_r in Hs.
  destruct (plain_token_inv tok H) as (c & r & E & _ & Hall).
  cbn [sscanf_s]. rewrite Hs. rewrite E at 1. rewrite <- E.
  rewrite take_nonspaces_token by exact H.
  rewrite <- (append_empty_r tok) at 2.
  rewrite skip_nonspaces_app by exact Hall. cbn [skip_nonspaces].
  destruct n; reflexivity.
Qed.

Lemma is_label_without_colon line :
  strchr (skip_spaces line) ":" = None -> is_label line = false.
Proof.
  intros H. unfold is_label. destruct (is_empty _); [reflexivity|].
  rewrite H. reflexivity.
Qed.

End Tokens.

(** On a line [MNEMONIC operand] both parsers reach the [strcmp] chain with
    the mnemonic and the operand as written. *)
Lemma parse_prelude m tok :
  mnemonic_word m = true -> plain_token tok = true ->
  let line := skip_spaces (branch_line m tok) in
  (is_empty line || Ascii.eqb (head line) ";" || Ascii.eqb (head line) "#") = false
  /\ is_label line = false
  /\ map_string toupper (take_nonspaces line) = m
  /\ skip_spaces (skip_nonspaces line) = tok.
Proof.
  unfold mnemonic_word, branch_line. intros Hm Htok. cbv zeta.
  apply andb_true_iff in Hm as [Hm Hupper].
  apply andb_true_iff in Hm as [Hm Hhash].
  apply andb_true_iff in Hm as [Hm Hsemi].
  apply negb_true_iff in Hhash, Hsemi. apply String.eqb_eq in Hupper.
  assert (E : skip_spaces (m ++ String " " tok)%string
              = (m ++ String " " tok)%string)
    by (apply skip_spaces_token; exact Hm).
  destruct (plain_token_inv m Hm) as (c & r & Em & Hc & Hall).
  destruct (plain_token_inv tok Htok) as (d & r' & Et & Hd & Hallt).
  rewrite E. repeat split.
  - rewrite Em in *. cbn [append is_empty head orb] in *.
    rewrite Hsemi, Hhash. reflexivity.
  - apply is_label_without_colon. rewrite skip_spaces_token by exact Hm.
    apply strchr_colon_app; [exact Hall|].
    cbn [strchr]. rewrite (strchr_colon_token tok Htok). reflexivity.
  - rewrite take_nonspaces_app by exact Hall. cbn [take_nonspaces].
    change (isspace " ") with true. cbv iota.
    rewrite append_empty_r. exact Hupper.
  - rewrite skip_nonspaces_app by exact Hall. cbn [skip_nonspaces].
    change (isspace " ") with true. cbv iota. cbn [skip_spaces].
    change (isspace " ") with true. cbv iota.
    pose proof (skip_spaces_token tok "" Htok) as Hs.
    rewrite append_empty_r in Hs. exact Hs.
Qed.

Lemma V1_parse_instruction_dispatch m tok symTable :
  mnemonic_word m = true -> plain_token tok = true ->
  V1.parse_instruction (branch_line m tok) symTable = V1.dispatch m tok symTable.
Proof.
  intros Hm Htok. destruct (parse_prelude m tok Hm Htok) as (H1 & H2 & H3 & H4).
  unfold V1.parse_instruction. cbv zeta. rewrite H1, H2, H3, H4. reflexivity.
Qed.

Lemma V2_parse_instruction_dispatch m tok symTable :
  mnemonic_word m = true -> plain_token tok = true ->
  V2.parse_instruction (branch_line m tok) symTable = V2.dispatch m tok symTable.
Proof.
  intros Hm Htok. destruct (parse_prelude m tok Hm Htok) as (H1 & H2 & H3 & H4).
  unfold V2.parse_instruction. cbv zeta. rewrite H1, H2, H3, H4. reflexivity.
Qed.

(** The fifteen branch mnemonics. *)
Lemma branch_mnemonic_cases m c :
  branch_of_mnemonic m = Some c ->
  In (m, c)
    [("B", B_UNCOND); ("BEQ", B_EQ); ("BNE", B_NE); ("BLT", B_LT);
     ("BLE", B_LE); ("BGT", B_GT); ("BGE", B_GE); ("BCS", B_CS);
     ("BCC", B_CC); ("BMI", B_MI); ("BPL", B_PL); ("BVS", B_VS);
     ("BVC", B_VC); ("BHI", B_HI); ("BLS", B_LS)].
Proof.
  unfold branch_of_mnemonic. intros H.
  repeat match type of H with
         | (if String.eqb m ?s then _ else _) = _ =>
             destruct (String.eqb_spec m s) as [->|_];
             [injection H as <-; cbn; tauto|]
         end.
  discriminate.
Qed.

Ltac each_branch_mnemonic H :=
  apply branch_mnemonic_cases in H; cbn [In] in H;
  repeat (destruct H as [H|H]; [injection H as <- <-|]); [..|contradiction].

Lemma branch_mnemonic_is_word m c :
  branch_of_mnemonic m = Some c -> mnemonic_word m = true.
Proof. intros H. each_branch_mnemonic H; reflexivity. Qed.

(** What [lsasm.c] makes of a branch line. *)
Lemma V1_parse_branch m c tok symTable :
  branch_of_mnemonic m = Some c -> plain_token tok = true ->
  V1.parse_instruction (branch_line m tok) symTable =
  let addr :=
    if isdigit (head tok) then atoi tok
    else symbol_table_lookup symTable tok in
  if (addr <? 0) || (255 <? addr) then (0, true)
  else (V1.encode_b (branch_condition_val c) (u8 addr), false).
Proof.
  intros Hm Htok.
  rewrite V1_parse_instruction_dispatch
    by (try exact Htok; eapply branch_mnemonic_is_word; exact Hm).
  each_branch_mnemonic Hm;
    unfold V1.dispatch; rewrite (sscanf_token 0 tok Htok); reflexivity.
Qed.

(** What [lsasm_v2.c] makes of a branch line. *)
Lemma V2_parse_branch m c tok symTable :
  branch_of_mnemonic m = Some c -> plain_token tok = true ->
  V2.parse_instruction (branch_line m tok) symTable =
  if starts_with_X tok then
    let reg := atoi (tail tok) in
    if (reg <? 0) || (7 <? reg) then (0, true)
    else (V2.encode_branch (u8 (branch_condition_val c)) (u16 reg) false, false)
  else
    let target := u16 (atoi tok) in
    if (target =? 0) && negb (Ascii.eqb (head tok) "0") then
      let addr := symbol_table_lookup symTable tok in
      if addr <? 0 then (0, true)
      else if 65535 <? u16 addr then (0, true)
      else (V2.encode_branch (u8 (branch_condition_val c)) (u16 addr) true, false)
    else if 65535 <? target then (0, true)
    else (V2.encode_branch (u8 (branch_condition_val c)) target true, false).
Proof.
  intros Hm Htok.
  rewrite V2_parse_instruction_dispatch
    by (try exact Htok; eapply branch_mnemonic_is_word; exact Hm).
  each_branch_mnemonic Hm;
    unfold V2.dispatch; rewrite (sscanf_token 0 tok Htok); reflexivity.
Qed.

(** ** Lines in the tool's parser *)

Section AssemblerToolLines.

Lemma not_space_not_blank c :
  isspace c = false -> (Ascii.eqb c " " || Ascii.eqb c "009") = false.
Proof.
  intros H. destruct (Ascii.eqb_spec c " ") as [->|_]; [discriminate H|].
  destruct (Ascii.eqb_spec c "009") as [->|_]; [discriminate H|].
  reflexivity.
Qed.

Lemma trim_blanks_token tok r :
  plain_token tok = true ->
  AssemblerTool.trim_blanks (tok ++ r)%string = Some (tok ++ r)%string.
Proof.
  intros H. destruct (plain_token_inv tok H) as (c & r' & -> & Hc & _).
  cbn [append AssemblerTool.trim_blanks]. rewrite (not_space_not_blank c Hc).
  reflexivity.
Qed.

Lemma before_colon_none s :
  strchr s ":" = None -> AssemblerTool.before_colon s = None.
Proof.
  induction s as [|c s IH]; [reflexivity|]. cbn [strchr AssemblerTool.before_colon].
  destruct (Ascii.eqb c ":"); [discriminate|].
  destruct (strchr s ":"); [discriminate|]. intros _. rewrite IH; reflexivity.
Qed.

Lemma isLabel_without_colon s :
  strchr s ":" = None -> AssemblerTool.isLabel s = false.
Proof.
  intros H. unfold AssemblerTool.isLabel. rewrite before_colon_none by exact H.
  reflexivity.
Qed.

Lemma split_at_blank_app m r :
  all_chars (fun c => negb (isspace c) && negb (Ascii.eqb c ":")) m = true ->
  AssemblerTool.split_at_blank (m ++ String " " r)%string = (m, Some r).
Proof.
  induction m as [|c m IH]; intros H; [reflexivity|].
  cbn [all_chars] in H. apply andb_true_iff in H as [Hc H].
  apply andb_true_iff in Hc as [Hc _]. apply negb_true_iff in Hc.
  cbn [append AssemblerTool.split_at_blank].
  rewrite (not_space_not_blank c Hc), IH by exact H. reflexivity.
Qed.

Lemma tokenize_loop_token tok :
  forall current,
    all_chars (fun c => negb (isspace c) && negb (Ascii.eqb c ":")) tok = true ->
    all_chars (fun c => negb (Ascii.eqb c ",")) tok = true ->
    is_empty (current ++ tok)%string = false ->
    AssemblerTool.tokenize_loop tok current = [(current ++ tok)%string].
Proof.
  induction tok as [|c tok IH]; intros current Hs Hc Hne.
  - rewrite append_empty_r in *. cbn [AssemblerTool.tokenize_loop]. rewrite Hne.
    reflexivity.
  - cbn [all_chars] in Hs, Hc.
    apply andb_true_iff in Hs as [Hs1 Hs]. apply andb_true_iff in Hc as [Hc1 Hc].
    apply andb_true_iff in Hs1 as [Hs1 _].
    apply negb_true_iff in Hs1, Hc1.
    cbn [AssemblerTool.tokenize_loop]. rewrite Hs1, Hc1. cbn [orb].
    rewrite IH; try assumption.
    + rewrite append_assoc. reflexivity.
    + rewrite append_assoc. cbn [append]. destruct current; reflexivity.
Qed.

Lemma tokenize_token tok :
  plain_token tok = true ->
  all_chars (fun c => negb (Ascii.eqb c ",")) tok = true ->
  AssemblerTool.tokenize tok = [tok].
Proof.
  intros H Hc. destruct (plain_token_inv tok H) as (c & r & E & _ & Hall).
  unfold AssemblerTool.tokenize. rewrite tokenize_loop_token; try assumption.
  - reflexivity.
  - rewrite E. reflexivity.
Qed.

Variable instructions_tech : list IsaSpec.InstructionTech.
Variable branch_conditions : list IsaSpec.BranchCondition.
Variable symbolTable : SymbolTable.
Variable aliasTable : list AssemblerTool.RegisterAlias.

(** On a line [MNEMONIC operand] the tool reaches its chain of comparisons
    with the mnemonic and the one token. *)
Lemma AssemblerTool_parse_dispatch m tok instructionNumber :
  mnemonic_word m = true -> plain_token tok = true ->
  all_chars (fun c => negb (Ascii.eqb c ",")) tok = true ->
  AssemblerTool.parseInstruction instructions_tech branch_conditions symbolTable
    aliasTable (branch_line m tok) instructionNumber =
  AssemblerTool.dispatch instructions_tech branch_conditions symbolTable aliasTable
    m [tok] instructionNumber.
Proof.
  intros Hm Htok Hcomma.
  destruct (parse_prelude m tok Hm Htok) as (H1 & _ & _ & _).
  unfold mnemonic_word in Hm.
  apply andb_true_iff in Hm as [Hm Hupper].
  apply andb_true_iff in Hm as [Hm _]. apply andb_true_iff in Hm as [Hm _].
  apply String.eqb_eq in Hupper.
  destruct (plain_token_inv m Hm) as (_ & _ & _ & _ & Hall).
  unfold AssemblerTool.parseInstruction, branch_line in *.
  rewrite skip_spaces_token in H1 by exact Hm.
  rewrite trim_blanks_token by exact Hm. rewrite H1.
  rewrite isLabel_without_colon.
  2:{ apply strchr_colon_app; [exact Hall|]. cbn [strchr].
      rewrite (strchr_colon_token tok Htok). reflexivity. }
  rewrite split_at_blank_app by exact Hall.
  rewrite Hupper, tokenize_token by assumption. reflexivity.
Qed.

End AssemblerToolLines.

(** The sibling of C1 and C2.  Whatever the catalogue and the label table,
    with no alias defined, the tool rejects [MOV X0, 70000] (when [MOV] is
    not catalogued as an ALU operation) and [ADD X9, X1, X2] (when [ADD]
    is): its [parseRegister] and [parseConstant] return the [int] [-1],
    and every case tests for it. *)
Lemma AssemblerTool_rejects_out_of_range
    instructions_tech branch_conditions symbolTable instructionNumber :
  AssemblerTool.parseConstant "70000" = -1
  /\ AssemblerTool.parseRegister [] "X9" = -1
  /\ (AssemblerTool.isAluOperation instructions_tech "MOV" = false ->
      AssemblerTool.parseInstruction instructions_tech branch_conditions symbolTable
        [] "MOV X0, 70000" instructionNumber = (0, true))
  /\ (AssemblerTool.isAluOperation instructions_tech "ADD" = true ->
      AssemblerTool.parseInstruction instructions_tech branch_conditions symbolTable
        [] "ADD X9, X1, X2" instructionNumber = (0, true)).
Proof.
  split; [reflexivity|]. split; [reflexivity|]. split; intros H.
  - change (AssemblerTool.parseInstruction instructions_tech branch_conditions
              symbolTable [] "MOV X0, 70000" instructionNumber)
      with (AssemblerTool.dispatch instructions_tech branch_conditions symbolTable
              [] "MOV" ["X0"; "70000"] instructionNumber).
    unfold AssemblerTool.dispatch. rewrite H. reflexivity.
  - change (AssemblerTool.parseInstruction instructions_tech branch_conditions
              symbolTable [] "ADD X9, X1, X2" instructionNumber)
      with (AssemblerTool.dispatch instructions_tech branch_conditions symbolTable
              [] "ADD" ["X9"; "X1"; "X2"] instructionNumber).
    unfold AssemblerTool.dispatch. rewrite H. reflexivity.
Qed.

(** With the catalogue of [IsaSpec.hpp], where [MOV] is a move and [ADD]
    an ALU operation, the tool rejects both lines. *)
Lemma tool_rejects_out_of_range symbolTable instructionNumber :
  AssemblerTool.parseInstruction tool_instructions tool_branches symbolTable
    [] "MOV X0, 70000" instructionNumber = (0, true)
  /\ AssemblerTool.parseInstruction tool_instructions tool_branches symbolTable
       [] "ADD X9, X1, X2" instructionNumber = (0, true).
Proof.
  destruct (AssemblerTool_rejects_out_of_range tool_instructions tool_branches
              symbolTable instructionNumber) as (_ & _ & Hmov & Hadd).
  split; [apply Hmov | apply Hadd]; vm_compute; reflexivity.
Qed.

(** ** Labels as branch targets *)

Section Numerals.

Lemma decimal_reads_back_all :
  forallb decimal_reads_back (map Z.of_nat (seq 0 256)) = true.
Proof. vm_compute. reflexivity. Qed.

Lemma decimal_address k :
  0 <= k <= 255 ->
  plain_token (decimal k) = true
  /\ isdigit (head (decimal k)) = true
  /\ atoi (decimal k) = k
  /\ starts_with_X (decimal k) = false
  /\ Ascii.eqb (head (decimal k)) "0" = (k =? 0).
Proof.
  intros Hk.
  assert (H : decimal_reads_back k = true).
  { pose proof decimal_reads_back_all as Hall.
    rewrite forallb_forall in Hall. apply Hall.
    apply in_map_iff. exists (Z.to_nat k). split; [lia|].
    apply in_seq. lia. }
  unfold decimal_reads_back in H.
  apply andb_true_iff in H as [H H5]. apply andb_true_iff in H as [H H4].
  apply andb_true_iff in H as [H H3]. apply andb_true_iff in H as [H1 H2].
  repeat split; try assumption.
  - apply Z.eqb_eq. assumption.
  - apply negb_true_iff. assumption.
  - apply eqb_prop. assumption.
Qed.

Lemma starts_no_number_all c : starts_no_number c = true.
Proof.
  destruct c as [[] [] [] [] [] [] [] []]; vm_compute; reflexivity.
Qed.

Lemma atoi_stops_at_letter c r :
  (isalpha c || Ascii.eqb c "_") = true -> atoi (String c r) = 0.
Proof.
  destruct c as [[] [] [] [] [] [] [] []]; intros H;
    try (vm_compute in H; discriminate H); reflexivity.
Qed.

Lemma label_token_inv nm :
  label_token nm = true ->
  plain_token nm = true
  /\ isdigit (head nm) = false
  /\ atoi nm = 0
  /\ Ascii.eqb (head nm) "0" = false.
Proof.
  unfold label_token. intros H.
  apply andb_true_iff in H as [H _]. apply andb_true_iff in H as [Hc Hp].
  split; [exact Hp|].
  destruct nm as [|c r]; [discriminate|]. cbn [head] in *.
  pose proof (starts_no_number_all c) as Hn. unfold starts_no_number in Hn.
  rewrite Hc in Hn. cbn [negb orb] in Hn.
  apply andb_true_iff in Hn as [Hn _].
  apply andb_true_iff in Hn as [Hn _]. apply andb_true_iff in Hn as [Hn _].
  apply andb_true_iff in Hn as [Hn H0]. apply andb_true_iff in Hn as [Hn _].
  apply andb_true_iff in Hn as [Hd _].
  repeat split.
  - apply negb_true_iff. exact Hd.
  - apply atoi_stops_at_letter. exact Hc.
  - apply negb_true_iff. exact H0.
Qed.

End Numerals.

Lemma u16_small k : 0 <= k <= 255 -> u16 k = k.
Proof. intros H. unfold u16. apply Z.mod_small. lia. Qed.

Lemma u8_small k : 0 <= k <= 255 -> u8 k = k.
Proof. intros H. unfold u8. apply Z.mod_small. lia. Qed.

Lemma u8_condition c : u8 (branch_condition_val c) = branch_condition_val c.
Proof. destruct c; reflexivity. Qed.

Section AssemblerToolBranches.

Lemma decimal_reads_back_in_tool_all :
  forallb decimal_reads_back_in_tool (map Z.of_nat (seq 0 256)) = true.
Proof. vm_compute. reflexivity. Qed.

Lemma decimal_address_in_tool k :
  0 <= k <= 255 ->
  AssemblerTool.parseConstant (decimal k) = k
  /\ all_chars (fun c => negb (Ascii.eqb c ",")) (decimal k) = true
  /\ String.eqb (decimal k) "0" = (k =? 0).
Proof.
  intros Hk.
  assert (H : decimal_reads_back_in_tool k = true).
  { pose proof decimal_reads_back_in_tool_all as Hall.
    rewrite forallb_forall in Hall. apply Hall.
    apply in_map_iff. exists (Z.to_nat k). split; [lia|].
    apply in_seq. lia. }
  unfold decimal_reads_back_in_tool in H.
  apply andb_true_iff in H as [H H3]. apply andb_true_iff in H as [H1 H2].
  repeat split.
  - apply Z.eqb_eq. exact H1.
  - exact H2.
  - apply eqb_prop. exact H3.
Qed.

Lemma lookupLabel_is_lookup symbolTable nm :
  AssemblerTool.lookupLabel symbolTable nm = symbol_table_lookup symbolTable nm.
Proof.
  induction symbolTable as [|l t IH]; [reflexivity|].
  cbn [AssemblerTool.lookupLabel symbol_table_lookup]. rewrite IH. reflexivity.
Qed.

(** A token that is no alias and does not begin with [X] is no register. *)
Lemma parseRegister_no_X aliasTable tok :
  AssemblerTool.resolveAlias aliasTable tok = tok ->
  starts_with_X tok = false ->
  AssemblerTool.parseRegister aliasTable tok = -1.
Proof.
  intros Ha HX. unfold AssemblerTool.parseRegister. cbv zeta. rewrite Ha.
  destruct (_ <? 2)%nat; [reflexivity|].
  unfold starts_with_X in HX. apply orb_false_iff in HX as [H1 H2].
  rewrite H1, H2. reflexivity.
Qed.

(** What is checked of every character that may start a label of the
    tool: [atoi] stops on it at once, and it starts neither a character
    constant nor a numeral. *)
Lemma tool_label_start c r :
  (isalpha c || Ascii.eqb c "_" || Ascii.eqb c ".") = true ->
  atoi (String c r) = 0
  /\ Ascii.eqb c "'" = false /\ Ascii.eqb c "0" = false
  /\ Ascii.eqb c "X" || Ascii.eqb c "x" = starts_with_X (String c r).
Proof.
  destruct c as [[] [] [] [] [] [] [] []]; intros H;
    try (vm_compute in H; discriminate H); repeat split.
Qed.

(** A label name reads as the constant 0, which sends the tool to the
    label table. *)
Lemma parseConstant_tool_label nm :
  tool_label_token nm = true ->
  AssemblerTool.parseConstant nm = 0 /\ String.eqb nm "0" = false.
Proof.
  intros Hnm. unfold tool_label_token in Hnm.
  apply andb_true_iff in Hnm as [Hnm _]. apply andb_true_iff in Hnm as [Hc _].
  destruct nm as [|c r]; [discriminate|]. cbn [head] in *.
  destruct (tool_label_start c r Hc) as (Hatoi & Hq & Hzero & _).
  split.
  - unfold AssemblerTool.parseConstant. cbv zeta. cbn [is_empty head].
    rewrite Hq, Hzero, !andb_false_r, Hatoi. reflexivity.
  - cbn [String.eqb]. rewrite Hzero. reflexivity.
Qed.

Variable instructions_tech : list IsaSpec.InstructionTech.
Variable branch_conditions : list IsaSpec.BranchCondition.
Variable symbolTable : SymbolTable.
Variable aliasTable : list AssemblerTool.RegisterAlias.

(** What the tool makes of a branch line whose operand is no register. *)
Lemma AssemblerTool_parse_branch m c tok instructionNumber :
  branch_of_mnemonic m = Some c ->
  AssemblerTool.isAluOperation instructions_tech m = false ->
  0 <= AssemblerTool.findBranchCondition branch_conditions m ->
  plain_token tok = true ->
  all_chars (fun c => negb (Ascii.eqb c ",")) tok = true ->
  AssemblerTool.parseRegister aliasTable tok = -1 ->
  AssemblerTool.parseInstruction instructions_tech branch_conditions symbolTable
    aliasTable (branch_line m tok) instructionNumber =
  let condition := AssemblerTool.findBranchCondition branch_conditions m in
  let target := AssemblerTool.parseConstant tok in
  if (target =? 0) && negb (String.eqb tok "0") then
    let target := symbol_table_lookup symbolTable tok in
    if target <? 0 then (0, true)
    else if (target <? 0) || (65535 <? target) then (0, true)
    else (AssemblerTool.encodeBranch instructions_tech (u8 condition) (u16 target) true,
          false)
  else if (target <? 0) || (65535 <? target) then (0, true)
  else (AssemblerTool.encodeBranch instructions_tech (u8 condition) (u16 target) true,
        false).
Proof.
  intros Hm Halu Hcond Htok Hcomma Hreg.
  rewrite AssemblerTool_parse_dispatch
    by (try assumption; eapply branch_mnemonic_is_word; exact Hm).
  apply Z.leb_le in Hcond.
  each_branch_mnemonic Hm;
    unfold AssemblerTool.dispatch, AssemblerTool.parseBranchCondition;
    rewrite Halu, Hcond, Hreg, lookupLabel_is_lookup; reflexivity.
Qed.

End AssemblerToolBranches.

(** The condition table of the catalogue gives every branch mnemonic its
    condition code, and none of them is an ALU mnemonic. *)
Lemma tool_branch_condition m c :
  branch_of_mnemonic m = Some c ->
  AssemblerTool.isAluOperation tool_instructions m = false
  /\ AssemblerTool.findBranchCondition tool_branches m = branch_condition_val c.
Proof.
  intros Hm. each_branch_mnemonic Hm; vm_compute; split; reflexivity.
Qed.

(** C6, as amended.  When the label table binds a name to address [k]
    (0 to 255), every branch mnemonic followed by the name is encoded
    exactly as the same mnemonic followed by the decimal numeral of [k],
    and without error:
    - by [lsasm.c], for a name that starts with a letter or an underscore,
      holds no white space and has at most 15 characters (with its NUL it
      fills the 16 bytes of [target_str]);
    - by [lsasm_v2.c], for such a name that does not begin with [X] or [x];
    - by the tool, with the catalogue of [IsaSpec.hpp], for a name of any
      length that starts with a letter, an underscore or a dot, holds no
      white space, colon or comma, does not begin with [X] or [x] and is
      no alias, when the numeral is no alias either. *)
Theorem branch_to_label_is_branch_to_address
    (symTable : SymbolTable) (m : string) (c : branch_condition)
    (nm : string) (k : Z) :
  branch_of_mnemonic m = Some c ->
  0 <= k <= 255 ->
  symbol_table_lookup symTable nm = k ->
  (label_token nm = true ->
   V1.parse_instruction (branch_line m nm) symTable =
   V1.parse_instruction (branch_line m (decimal k)) symTable
   /\ V1.parse_instruction (branch_line m nm) symTable =
      (V1.encode_b (branch_condition_val c) k, false))
  /\ (label_token nm = true ->
      starts_with_X nm = false ->
      V2.parse_instruction (branch_line m nm) symTable =
      V2.parse_instruction (branch_line m (decimal k)) symTable
      /\ V2.parse_instruction (branch_line m nm) symTable =
         (V2.encode_branch (branch_condition_val c) k true, false))
  /\ (forall aliasTable instructionNumber,
      tool_label_token nm = true ->
      starts_with_X nm = false ->
      AssemblerTool.resolveAlias aliasTable nm = nm ->
      AssemblerTool.resolveAlias aliasTable (decimal k) = decimal k ->
      AssemblerTool.parseInstruction tool_instructions tool_branches symTable
        aliasTable (branch_line m nm) instructionNumber =
      AssemblerTool.parseInstruction tool_instructions tool_branches symTable
        aliasTable (branch_line m (decimal k)) instructionNumber
      /\ AssemblerTool.parseInstruction tool_instructions tool_branches symTable
           aliasTable (branch_line m nm) instructionNumber =
         (AssemblerTool.encodeBranch tool_instructions (branch_condition_val c)
            k true, false)).
Proof.
  intros Hm Hk Hlookup.
  destruct (decimal_address k Hk) as (Dp & Ddigit & Datoi & DX & Dzero).
  assert (Hrange : ((k <? 0) || (255 <? k)) = false).
  { apply orb_false_iff. split; [apply Z.ltb_ge | apply Z.ltb_ge]; lia. }
  split; [|split].
  - intros Hnm.
    destruct (label_token_inv nm Hnm) as (Hp & Hdigit & Hatoi & Hzero).
    rewrite !(V1_parse_branch m c) by assumption. cbv zeta.
    rewrite Hdigit, Ddigit, Hlookup, Datoi, Hrange, u8_small by exact Hk.
    split; reflexivity.
  - intros Hnm HX.
    destruct (label_token_inv nm Hnm) as (Hp & Hdigit & Hatoi & Hzero).
    rewrite !(V2_parse_branch m c) by assumption. cbv zeta.
    rewrite HX, DX, Hatoi, Datoi, Hzero, Dzero, Hlookup, u8_condition.
    rewrite !u16_small by lia.
    change (0 =? 0) with true. cbn [negb andb].
    assert (H0 : (k <? 0) = false) by (apply Z.ltb_ge; lia).
    assert (H65 : (65535 <? k) = false) by (apply Z.ltb_ge; lia).
    rewrite H0, H65.
    destruct (k =? 0); cbn [negb andb]; split; reflexivity.
  - intros aliasTable n Hnm HX Ha Hda.
    destruct (tool_branch_condition m c Hm) as (Halu & Hcond).
    destruct (decimal_address_in_tool k Hk) as (Tconst & Tcomma & Tzero).
    destruct (parseConstant_tool_label nm Hnm) as (Lconst & Lzero).
    unfold tool_label_token in Hnm.
    apply andb_true_iff in Hnm as [Hnm Hcomma].
    apply andb_true_iff in Hnm as [_ Hp].
    assert (H0 : (k <? 0) = false) by (apply Z.ltb_ge; lia).
    assert (H65 : (65535 <? k) = false) by (apply Z.ltb_ge; lia).
    assert (Hcode : 0 <= AssemblerTool.findBranchCondition tool_branches m)
      by (rewrite Hcond; destruct c; vm_compute; discriminate).
    rewrite !(AssemblerTool_parse_branch tool_instructions tool_branches
                symTable aliasTable m c);
      try assumption; try (apply parseRegister_no_X; assumption).
    cbv zeta.
    rewrite Lconst, Lzero, Tconst, Tzero, Hlookup, H0, H65, Hcond, u8_condition.
    rewrite !u16_small by lia.
    change (0 =? 0) with true. cbn [negb andb orb].
    destruct (k =? 0); cbn [negb andb]; split; reflexivity.
Qed.

(** The loop of the Fibonacci script: [fib_loop] is bound to address 3 and
    [BGT fib_done] to address 5 by pass 1; the backward branch to
    [fib_loop] is the branch to [3], in [lsasm.c], in [lsasm_v2.c] and,
    under the name [.fib_loop], in the tool. *)
Lemma branch_to_label_is_branch_to_address_witness :
  let symTable :=
    snd (pass1 V1.MAX_INSTR V1.MAX_LABELS (read_lines "MOV X1 0
MOV X2 1
MOV X3 1
fib_loop:
    CMP X3 X0
    BGT fib_done
fib_done:
") false 0 []) in
  symbol_table_lookup symTable "fib_loop" = 3
  /\ V1.parse_instruction (branch_line "B" "fib_loop") symTable =
     V1.parse_instruction (branch_line "B" "3") symTable
  /\ V2.parse_instruction (branch_line "B" "fib_loop") symTable =
     (0x00030025, false)
  /\ AssemblerTool.parseInstruction tool_instructions tool_branches
       [ {| name := ".fib_loop"; address := 3 |} ] [] (branch_line "BLT" ".fib_loop") 4
     = (0x00030345, false).
Proof.
  intros symTable.
  assert (Hl : symbol_table_lookup symTable "fib_loop" = 3)
    by (vm_compute; reflexivity).
  split; [exact Hl|].
  destruct (branch_to_label_is_branch_to_address symTable "B" B_UNCOND
              "fib_loop" 3 eq_refl ltac:(lia) Hl) as (H1 & H2 & _).
  split; [exact (proj1 (H1 eq_refl))|].
  split; [exact (proj2 (H2 eq_refl eq_refl))|].
  destruct (branch_to_label_is_branch_to_address
              [ {| name := ".fib_loop"; address := 3 |} ] "BLT" B_LT
              ".fib_loop" 3 eq_refl ltac:(lia) eq_refl) as (_ & _ & H3).
  destruct (H3 [] 4 eq_refl eq_refl eq_refl eq_refl) as [_ H4].
  vm_compute in H4. vm_compute. exact H4.
Defined.

(** C6 as the specification words it: in [lsasm_v2.c] a label named
    [xloop], bound to address 1, is taken for a register when a branch
    names it, and the word is the register branch [0x24], not the
    immediate branch to 1. *)
Lemma branch_to_label_differs_from_branch_to_address :
  let symTable :=
    snd (pass1 V2.MAX_INSTR V2.MAX_LABELS (read_lines "MOV X0 1
xloop:
  ADD X0 X0 1
") false 0 []) in
  symbol_table_lookup symTable "xloop" = 1
  /\ V2.parse_instruction (branch_line "B" "xloop") symTable = (0x00000024, false)
  /\ V2.parse_instruction (branch_line "B" (decimal 1)) symTable = (0x00010025, false)
  /\ V2.parse_instruction (branch_line "B" "xloop") symTable <>
     V2.parse_instruction (branch_line "B" (decimal 1)) symTable.
Proof.
  intros symTable. repeat split; try (vm_compute; reflexivity).
  vm_compute. discriminate.
Qed.

(** ** The capacity of the label table *)

Section Capacity.

Variables MAX_INSTR MAX_LABELS : Z.




(** Pass 1 only ever appends to the table. *)
Lemma pass1_appends lines :
  forall inMultiline pc table,
    exists extra,
      snd (pass1 MAX_INSTR MAX_LABELS lines inMultiline pc table) = table ++ extra.
Proof.
  induction lines as [|line lines IH]; intros inM pc table; cbn [pass1].
  - exists []. rewrite app_nil_r. reflexivity.
  - destruct (pc <? MAX_INSTR);
      [|exists []; rewrite app_nil_r; reflexivity].
    destruct (strip_comments line inM) as [stripped inM'].
    destruct (is_empty _); [apply IH|].
    destruct (is_label _); [|apply IH].
    unfold symbol_table_add. destruct (MAX_LABELS <=? count table); cbn [fst].
    + apply IH.
    + destruct (IH inM' pc
                  (table ++ [{| name := strncpy 31 (parse_label (skip_spaces stripped));
                                address := u8 pc |}])) as [extra ->].
      eexists. rewrite <- app_assoc. reflexivity.
Qed.

Lemma copy_label_length n : forall line, (String.length (copy_label n line) <= n)%nat.
Proof.
  induction n as [|n IH]; intros [|c line]; cbn; try lia.
  destruct (Ascii.eqb c ":"); cbn; [lia|]. specialize (IH line). lia.
Qed.

(** A label line that pass 1 reaches with program counter [pc], with room
    in the table and a name not defined before, binds the name to [pc]
    in the table pass 2 works with. *)
Lemma pass1_binds_label line lines inMultiline pc table :
  0 <= pc < MAX_INSTR -> MAX_INSTR <= 256 ->
  count table < MAX_LABELS ->
  let stripped := fst (strip_comments line inMultiline) in
  is_label stripped = true ->
  defines table (parse_label stripped) = false ->
  symbol_table_lookup
    (snd (pass1 MAX_INSTR MAX_LABELS (line :: lines) inMultiline pc table))
    (parse_label stripped) = pc.
Proof.
  intros Hpc Hmax Hroom stripped Hlabel Hnew.
  rewrite pass1_step by lia. fold stripped. rewrite Hlabel.
  assert (Hne : is_empty (skip_spaces stripped) = false).
  { unfold is_label in Hlabel. destruct (is_empty _); [discriminate|reflexivity]. }
  rewrite Hne, symbol_table_add_room by exact Hroom. cbn [fst].
  destruct (pass1_appends lines (snd (strip_comments line inMultiline)) pc
              (table ++ [entry (parse_label stripped, u8 pc)])) as [extra ->].
  rewrite <- app_assoc, lookup_skips_other_names by exact Hnew.
  cbn [app symbol_table_lookup entry name address fst snd].
  rewrite strncpy_short by (apply copy_label_length).
  rewrite String.eqb_refl. unfold u8. apply Z.mod_small. lia.
Qed.

Variable parse_instruction : string -> SymbolTable -> Z * bool.
Hypothesis parse_skips : skips_non_instructions parse_instruction.


End Capacity.




(** ** Further properties: reading the script *)

Lemma fgets_buffer n : forall stream,
  let buf := fst (fgets n stream) in
  (String.length buf <= n)%nat
  /\ (is_empty stream = false -> n <> O -> 1 <= String.length buf)%nat
  /\ strchr (strncpy (String.length buf - 1) buf) "010" = None.
Proof.
  induction n as [|n IH]; intros [|c stream]; cbn [fgets fst];
    try (repeat split; cbn; try lia; try discriminate; congruence).
  destruct (Ascii.eqb c "010") eqn:Hc; cbn [fst].
  - repeat split; cbn; lia.
  - specialize (IH stream). destruct (fgets n stream) as [buf rest].
    cbn [fst] in *. destruct IH as (Hlen & _ & Hnl).
    repeat split; cbn [String.length]; try lia.
    destruct buf as [|d buf]; [reflexivity|].
    cbn [String.length] in *.
    replace (S (S (String.length buf)) - 1)%nat with (S (String.length buf)) by lia.
    replace (S (String.length buf) - 1)%nat with (String.length buf) in Hnl by lia.
    cbn [strncpy strchr]. rewrite Hc.
    rewrite Hnl. reflexivity.
Qed.

(** X1. The reading loop of [main] loses no character and invents none:
    the buffers that the successive [fgets] calls deliver, put end to end,
    are the script.  Every buffer holds between 1 and 255 characters, and
    a newline only as its last one, so that a longer line of the script
    reaches the passes as several lines. *)
Theorem reading_loop_delivers_the_script (script : string) :
  concat_lines (read_lines script) = script
  /\ Forall (fun line =>
               (1 <= String.length line <= 255)%nat
               /\ strchr (strncpy (String.length line - 1) line) "010" = None)
            (read_lines script).
Proof.
  split; [apply read_lines_exhausts|].
  unfold read_lines. generalize (String.length script) as calls.
  intros calls. revert script.
  induction calls as [|calls IH]; intros [|c s]; cbn [read_from];
    try (constructor; fail).
  unfold MAX_LINE. cbn [Nat.sub].
  pose proof (fgets_buffer 255 (String c s)) as (Hlen & Hpos & Hnl).
  destruct (fgets 255 (String c s)) as [line rest]. cbn [fst] in *.
  constructor; [|apply IH].
  split; [split; [apply Hpos; [reflexivity|discriminate]|exact Hlen]|exact Hnl].
Qed.

(** ** Further properties: comments *)

Lemma strip_until_line_comment a b :
  no_slash a = true ->
  strip_comments (a ++ "//" ++ b) false = (a, false).
Proof.
  unfold no_slash. induction a as [|c a IH]; intros Ha.
  - reflexivity.
  - cbn [all_chars] in Ha. apply andb_true_iff in Ha as [Hc Ha].
    apply negb_true_iff, Ascii.eqb_neq in Hc.
    cbn [append]. rewrite strip_regular by exact Hc.
    change (a ++ String "/" (String "/" b))%string with (a ++ "//" ++ b)%string.
    rewrite (IH Ha). reflexivity.
Qed.

Lemma strip_until_block_comment a r :
  no_slash a = true ->
  strip_comments (a ++ "/*" ++ r) false =
  ((a ++ fst (strip_comments r true))%string, snd (strip_comments r true)).
Proof.
  unfold no_slash. induction a as [|c a IH]; intros Ha.
  - cbn [append]. rewrite strip_outside_2. cbn [Ascii.eqb Bool.eqb andb].
    destruct (strip_comments r true); reflexivity.
  - cbn [all_chars] in Ha. apply andb_true_iff in Ha as [Hc Ha].
    apply negb_true_iff, Ascii.eqb_neq in Hc.
    cbn [append]. rewrite strip_regular by exact Hc.
    change (a ++ String "/" (String "*" r))%string with (a ++ "/*" ++ r)%string.
    rewrite (IH Ha). reflexivity.
Qed.

Lemma strip_inside_comment b :
  has_close b = false -> strip_comments b true = (EmptyString, true).
Proof.
  induction b as [|x b IH]; intros Hb; [reflexivity|].
  cbn [has_close] in Hb. apply orb_false_iff in Hb as [Hx Hb].
  destruct b as [|d r]; [reflexivity|].
  rewrite strip_inside_2. cbn [head] in Hx. rewrite Hx. apply IH. exact Hb.
Qed.

Lemma strip_until_close b c :
  has_close b = false ->
  strip_comments (b ++ "*/" ++ c) true = strip_comments c false.
Proof.
  induction b as [|x b IH]; intros Hb; [reflexivity|].
  cbn [has_close] in Hb. apply orb_false_iff in Hb as [Hx Hb].
  cbn [append].
  destruct b as [|d r].
  - cbn [append]. rewrite strip_inside_2.
    replace (Ascii.eqb x "*" && Ascii.eqb "*" "/") with false
      by (destruct (Ascii.eqb x "*"); reflexivity).
    reflexivity.
  - cbn [append]. rewrite strip_inside_2. cbn [head] in Hx. rewrite Hx.
    apply (IH Hb).
Qed.

(** X2. What [strip_comments] removes.  For a text [a] without a slash:
    a line comment after [a] leaves [a]; a block comment after [a] that is
    closed on the same line leaves [a] and what stripping the text [c]
    after the comment leaves; a block comment that is not closed leaves
    [a] and sets the flag, under which a later line loses everything up to
    the closing marker, and all of it when it has none. *)
Theorem strip_comments_removes_comments (a b c : string) :
  no_slash a = true ->
  has_close b = false ->
  strip_comments (a ++ "//" ++ b) false = (a, false)
  /\ strip_comments (a ++ "/*" ++ b ++ "*/" ++ c) false =
     ((a ++ fst (strip_comments c false))%string, snd (strip_comments c false))
  /\ strip_comments (a ++ "/*" ++ b) false = (a, true)
  /\ strip_comments b true = (EmptyString, true)
  /\ strip_comments (b ++ "*/" ++ c) true = strip_comments c false.
Proof.
  intros Ha Hb. repeat split.
  - apply strip_until_line_comment. exact Ha.
  - rewrite strip_until_block_comment by exact Ha.
    rewrite strip_until_close by exact Hb. reflexivity.
  - rewrite strip_until_block_comment by exact Ha.
    rewrite strip_inside_comment by exact Hb. cbn [fst snd].
    rewrite append_empty_r. reflexivity.
  - apply strip_inside_comment. exact Hb.
  - apply strip_until_close. exact Hb.
Qed.

Lemma strip_comments_removes_comments_witness :
  strip_comments ("MOV X0 1 " ++ "//" ++ " set up") false = ("MOV X0 1 ", false)
  /\ strip_comments ("MOV X0 1 " ++ "/*" ++ " set up" ++ "*/" ++ " ; go") false =
     (("MOV X0 1 " ++ fst (strip_comments " ; go" false))%string,
      snd (strip_comments " ; go" false))
  /\ strip_comments ("MOV X0 1 " ++ "/*" ++ " set up") false = ("MOV X0 1 ", true)
  /\ strip_comments " set up" true = (EmptyString, true)
  /\ strip_comments (" set up" ++ "*/" ++ " ; go") true = strip_comments " ; go" false.
Proof.
  apply (strip_comments_removes_comments "MOV X0 1 " " set up" " ; go");
    reflexivity.
Defined.

(** ** Further properties: labels and the symbol table *)

Lemma copy_label_colon n : forall line len,
  strchr line ":" = Some len -> (len <= n)%nat ->
  exists rest,
    line = (copy_label n line ++ String ":" rest)%string
    /\ String.length (copy_label n line) = len
    /\ strchr (copy_label n line) ":" = None.
Proof.
  induction n as [|n IH]; intros [|c line] len Hcolon Hlen;
    cbn [strchr] in Hcolon; try discriminate.
  - destruct (Ascii.eqb c ":") eqn:Hc; [|destruct (strchr line ":"); inversion Hcolon; lia].
    apply Ascii.eqb_eq in Hc. subst c. inversion Hcolon. subst len.
    exists line. repeat split.
  - cbn [copy_label]. destruct (Ascii.eqb c ":") eqn:Hc.
    + apply Ascii.eqb_eq in Hc. subst c. inversion Hcolon. subst len.
      exists line. repeat split.
    + destruct (strchr line ":") as [len'|] eqn:Hline; [|discriminate].
      inversion Hcolon. subst len.
      destruct (IH line len' Hline ltac:(lia)) as (rest & Heq & Hl & Hnone).
      exists rest. cbn [append String.length strchr]. rewrite Hc, Hnone, Hl.
      repeat split. f_equal. exact Heq.
Qed.

(** X3. A line that [is_label] accepts is, after its leading white space,
    the name that [parse_label] returns, a colon, and the rest of the
    line: the name has between 1 and 31 characters, holds no colon and
    starts with a letter or an underscore. *)
Theorem label_line_is_name_then_colon (line : string) :
  is_label line = true ->
  exists rest,
    skip_spaces line = (parse_label line ++ String ":" rest)%string
    /\ (1 <= String.length (parse_label line) <= 31)%nat
    /\ strchr (parse_label line) ":" = None
    /\ (isalpha (head (parse_label line))
        || Ascii.eqb (head (parse_label line)) "_") = true.
Proof.
  unfold is_label, parse_label. intros H.
  destruct (is_empty (skip_spaces line)); [discriminate|].
  destruct (strchr (skip_spaces line) ":") as [len|] eqn:Hcolon; [|discriminate].
  destruct ((Z.of_nat len <=? 0) || (32 <=? Z.of_nat len)) eqn:Hrange;
    [discriminate|].
  apply orb_false_iff in Hrange as [Hlo Hhi].
  apply Z.leb_gt in Hlo. apply Z.leb_gt in Hhi.
  destruct (negb (isalpha (head (skip_spaces line)))
            && negb (Ascii.eqb (head (skip_spaces line)) "_")) eqn:Hhead;
    [discriminate|].
  destruct (copy_label_colon 31 (skip_spaces line) len Hcolon ltac:(lia))
    as (rest & Heq & Hlen & Hnone).
  exists rest. repeat split; try lia; try assumption.
  assert (Hsame : head (copy_label 31 (skip_spaces line)) = head (skip_spaces line)).
  { destruct (copy_label 31 (skip_spaces line)) as [|c name'] eqn:Hname.
    - cbn in Hlen. lia.
    - rewrite Heq. reflexivity. }
  rewrite Hsame.
  destruct (isalpha (head (skip_spaces line)));
    destruct (Ascii.eqb (head (skip_spaces line)) "_"); try reflexivity;
    discriminate.
Qed.

Lemma label_line_is_name_then_colon_witness :
  exists rest,
    skip_spaces "  fib_loop:  CMP X3 X0" = (parse_label "  fib_loop:  CMP X3 X0" ++ String ":" rest)%string
    /\ (1 <= String.length (parse_label "  fib_loop:  CMP X3 X0") <= 31)%nat
    /\ strchr (parse_label "  fib_loop:  CMP X3 X0") ":" = None
    /\ (isalpha (head (parse_label "  fib_loop:  CMP X3 X0"))
        || Ascii.eqb (head (parse_label "  fib_loop:  CMP X3 X0")) "_") = true.
Proof. apply (label_line_is_name_then_colon "  fib_loop:  CMP X3 X0"). reflexivity. Defined.

(** X4. Adding a label to a table that has room reports success, takes one
    entry, and binds the name (its first 31 characters) to the address
    unless an earlier entry has that name already; the address of every
    other name is what it was. *)
Theorem symbol_table_add_then_lookup
    (MAX_LABELS : Z) (table : SymbolTable) (nm : string) (addr : Z) :
  count table < MAX_LABELS ->
  let table' := fst (symbol_table_add MAX_LABELS table nm addr) in
  snd (symbol_table_add MAX_LABELS table nm addr) = 0
  /\ count table' = count table + 1
  /\ (defines table (strncpy 31 nm) = false ->
      symbol_table_lookup table' (strncpy 31 nm) = addr)
  /\ (forall other,
        other <> strncpy 31 nm ->
        symbol_table_lookup table' other = symbol_table_lookup table other).
Proof.
  intros Hroom table'. subst table'.
  rewrite (symbol_table_add_room MAX_LABELS table nm addr Hroom).
  cbn [fst snd]. repeat split.
  - rewrite count_app. cbn [List.length]. lia.
  - intros Hnew. rewrite lookup_skips_other_names by exact Hnew.
    unfold entry. cbn [symbol_table_lookup name address fst snd].
    rewrite String.eqb_refl. reflexivity.
  - intros other Hother.
    destruct (defines table other) eqn:Hdef.
    + apply lookup_ignores_later_entries. exact Hdef.
    + rewrite lookup_skips_other_names by exact Hdef.
      rewrite (lookup_undefined table other Hdef).
      unfold entry. cbn [symbol_table_lookup name address fst snd].
      destruct (String.eqb (strncpy 31 nm) other) eqn:Heq; [|reflexivity].
      apply String.eqb_eq in Heq. congruence.
Qed.

Lemma symbol_table_add_then_lookup_witness :
  let table := [ {| name := "loop"; address := 0 |} ] in
  let table' := fst (symbol_table_add 128 table "done" 7) in
  snd (symbol_table_add 128 table "done" 7) = 0
  /\ count table' = count table + 1
  /\ (defines table (strncpy 31 "done") = false ->
      symbol_table_lookup table' (strncpy 31 "done") = 7)
  /\ (forall other,
        other <> strncpy 31 "done" ->
        symbol_table_lookup table' other = symbol_table_lookup table other).
Proof.
  apply (symbol_table_add_then_lookup 128 [ {| name := "loop"; address := 0 |} ] "done" 7).
  reflexivity.
Defined.

(** ** Further properties: what a label stands for *)

Lemma pass1_app MAX_INSTR MAX_LABELS before rest :
  forall inMultiline pc table,
    fst (pass1 MAX_INSTR MAX_LABELS before inMultiline pc table) < MAX_INSTR ->
    pass1 MAX_INSTR MAX_LABELS (before ++ rest) inMultiline pc table =
    pass1 MAX_INSTR MAX_LABELS rest (comment_state before inMultiline)
      (fst (pass1 MAX_INSTR MAX_LABELS before inMultiline pc table))
      (snd (pass1 MAX_INSTR MAX_LABELS before inMultiline pc table)).
Proof.
  induction before as [|line before IH]; intros inM pc table Hlt; [reflexivity|].
  cbn [app comment_state fold_left]. cbn [pass1] in *.
  destruct (pc <? MAX_INSTR) eqn:Ecap.
  2:{ apply Z.ltb_ge in Ecap. cbn [fst] in Hlt. lia. }
  destruct (strip_comments line inM) as [stripped inM']. cbn [snd].
  destruct (is_empty _); [apply IH; exact Hlt|].
  destruct (is_label _); apply IH; exact Hlt.
Qed.

(** X5. A label stands for the number of instructions counted before it.
    When pass 1 of [lsasm.c] or [lsasm_v2.c] (both with room for 256
    instructions) has counted [counted] instructions in the lines before a
    label line, has room in its table and has not met the name before,
    then in the table that pass 2 works with the name of the label is bound
    to [counted], whatever lines follow. *)
Theorem label_stands_for_the_count_before_it
    (MAX_INSTR MAX_LABELS : Z) (before : list string) (line : string)
    (after : list string) :
  let counted := fst (pass1 MAX_INSTR MAX_LABELS before false 0 []) in
  let table := snd (pass1 MAX_INSTR MAX_LABELS before false 0 []) in
  let stripped := fst (strip_comments line (comment_state before false)) in
  MAX_INSTR <= 256 ->
  counted < MAX_INSTR ->
  count table < MAX_LABELS ->
  is_label stripped = true ->
  defines table (parse_label stripped) = false ->
  symbol_table_lookup
    (snd (pass1 MAX_INSTR MAX_LABELS (before ++ line :: after) false 0 []))
    (parse_label stripped) = counted.
Proof.
  intros counted table stripped Hmax Hcounted Hroom Hlabel Hnew.
  rewrite pass1_app by exact Hcounted. fold counted table.
  apply pass1_binds_label; try assumption.
  split; [|exact Hcounted].
  apply (pass1_pc_monotone MAX_INSTR MAX_LABELS before false 0 []).
Qed.

Lemma label_stands_for_the_count_before_it_witness :
  symbol_table_lookup
    (snd (pass1 V1.MAX_INSTR V1.MAX_LABELS
            (["MOVI X1, 5"; "/* open"; "closed */ ADD X1, X1, X1"]
             ++ "loop: // here" :: ["B loop"]) false 0 []))
    "loop" = 2.
Proof.
  apply (label_stands_for_the_count_before_it V1.MAX_INSTR V1.MAX_LABELS
           ["MOVI X1, 5"; "/* open"; "closed */ ADD X1, X1, X1"]
           "loop: // here" ["B loop"]); vm_compute; first [reflexivity | discriminate].
Defined.

(** X6. In [lsasm_v2.c] too, for a script whose tokens stay within the
    scan buffers (a mnemonic of at most 31 characters, operand words of at
    most 15), while the program counter of pass 1 stays below the capacity
    it is the number of words pass 2 emits plus the number of lines pass 2
    rejects; it is the number of emitted words exactly when no line is
    rejected. *)
Theorem V2_pass1_count_is_emitted_plus_rejected (lines : list string) :
  script_fits lines = true ->
  fst (pass1 V2.MAX_INSTR V2.MAX_LABELS lines false 0 []) < V2.MAX_INSTR ->
  fst (pass1 V2.MAX_INSTR V2.MAX_LABELS lines false 0 []) =
  Z.of_nat (List.length (fst (V2.assemble lines)))
  + Z.of_nat (List.length (snd (V2.assemble lines)))
  /\ (snd (V2.assemble lines) = [] <->
      fst (pass1 V2.MAX_INSTR V2.MAX_LABELS lines false 0 []) =
      Z.of_nat (List.length (fst (V2.assemble lines)))).
Proof.
  intros _ Hlt. pose proof (V2_passes_agree_up_to_rejections lines Hlt) as Hsum.
  split; [exact Hsum|]. split.
  - intros Hclean. rewrite Hsum, Hclean. cbn [List.length]. lia.
  - intros Hsame. destruct (snd (V2.assemble lines)); [reflexivity|].
    cbn [List.length] in Hsum. lia.
Qed.

Lemma V2_pass1_count_is_emitted_plus_rejected_witness :
  fst (pass1 V2.MAX_INSTR V2.MAX_LABELS
         ["MOVI X1, 5"; "loop:"; "FROB X1"; "B loop"] false 0 []) =
  Z.of_nat (List.length (fst (V2.assemble
         ["MOVI X1, 5"; "loop:"; "FROB X1"; "B loop"])))
  + Z.of_nat (List.length (snd (V2.assemble
         ["MOVI X1, 5"; "loop:"; "FROB X1"; "B loop"]))).
Proof.
  apply (V2_pass1_count_is_emitted_plus_rejected
           ["MOVI X1, 5"; "loop:"; "FROB X1"; "B loop"]);
    vm_compute; reflexivity.
Defined.

(** ** Further properties: the capacity of the program *)

Lemma pass2_full MAX_INSTR parse_instruction symTable lines inMultiline
    instructions stderr :
  MAX_INSTR <= Z.of_nat (List.length instructions) ->
  pass2 MAX_INSTR parse_instruction symTable lines inMultiline instructions stderr
  = (instructions, stderr).
Proof.
  intros Hfull. destruct lines as [|line lines]; [reflexivity|].
  cbn [pass2]. cbv zeta. apply Z.ltb_ge in Hfull. rewrite Hfull. reflexivity.
Qed.

Lemma pass1_pc_bounded MAX_INSTR MAX_LABELS lines :
  forall inMultiline pc symTable,
    pc <= MAX_INSTR ->
    fst (pass1 MAX_INSTR MAX_LABELS lines inMultiline pc symTable) <= MAX_INSTR.
Proof.
  induction lines as [|line lines IH]; intros inM pc table Hpc;
    cbn [pass1 fst]; [exact Hpc|].
  destruct (Z.ltb_spec pc MAX_INSTR); [|exact Hpc].
  destruct (strip_comments line inM) as [line' inM'].
  destruct (is_empty _); [apply IH; exact Hpc|].
  destruct (is_label _); apply IH; lia.
Qed.

(** X7. None of the three assemblers emits more than 256 words, and pass 1
    of the two C assemblers never counts beyond 256, whatever the script.
    Once 256 words are emitted, pass 2 reads no further line: what is
    left of the script adds no word and no diagnostic. *)
Theorem program_is_cut_at_256_words :
  (forall lines,
      (List.length (fst (V1.assemble lines)) <= 256)%nat
      /\ (List.length (fst (V2.assemble lines)) <= 256)%nat
      /\ fst (pass1 V1.MAX_INSTR V1.MAX_LABELS lines false 0 []) <= 256
      /\ fst (pass1 V2.MAX_INSTR V2.MAX_LABELS lines false 0 []) <= 256)
  /\ (forall instructions_tech branch_conditions symbolTable aliasTable lines,
        (List.length
           (fst (AssemblerTool.pass2 instructions_tech branch_conditions
                   symbolTable aliasTable lines false [] [])) <= 256)%nat)
  /\ (forall symTable lines inMultiline instructions stderr,
        List.length instructions = 256%nat ->
        pass2 V1.MAX_INSTR V1.parse_instruction symTable lines inMultiline
          instructions stderr = (instructions, stderr)
        /\ pass2 V2.MAX_INSTR V2.parse_instruction symTable lines inMultiline
             instructions stderr = (instructions, stderr))
  /\ (forall instructions_tech branch_conditions symbolTable aliasTable lines
             inMultiline instructions cerr,
        List.length instructions = 256%nat ->
        AssemblerTool.pass2 instructions_tech branch_conditions symbolTable
          aliasTable lines inMultiline instructions cerr = (instructions, cerr)).
Proof.
  split; [|split; [|split]].
  - intros lines. repeat split.
    + unfold V1.assemble.
      destruct (pass1 V1.MAX_INSTR V1.MAX_LABELS lines false 0 symbol_table_init)
        as [pc symTable].
      pose proof (pass2_bounded V1.MAX_INSTR V1.parse_instruction symTable lines
                    false [] []) as H.
      unfold V1.MAX_INSTR in *. cbn [List.length] in H. lia.
    + apply V2_program_fits.
    + apply (pass1_pc_bounded V1.MAX_INSTR). unfold V1.MAX_INSTR. lia.
    + apply (pass1_pc_bounded V2.MAX_INSTR). unfold V2.MAX_INSTR. lia.
  - intros. apply AssemblerTool_program_fits. cbn [List.length]. lia.
  - intros symTable lines inM instructions stderr Hlen.
    split; apply pass2_full; rewrite Hlen; [unfold V1.MAX_INSTR|unfold V2.MAX_INSTR];
      lia.
  - intros it bc st at_ lines inM instructions cerr Hlen.
    destruct lines as [|line lines]; [reflexivity|].
    cbn [AssemblerTool.pass2]. rewrite Hlen. reflexivity.
Qed.

Lemma program_is_cut_at_256_words_witness :
  pass2 V1.MAX_INSTR V1.parse_instruction [] ["MOV X0 1"; "FOO"] false
    (repeat 0 256) [] = (repeat 0 256, [])
  /\ pass2 V2.MAX_INSTR V2.parse_instruction [] ["MOV X0 1"; "FOO"] false
       (repeat 0 256) [] = (repeat 0 256, []).
Proof.
  destruct program_is_cut_at_256_words as (_ & _ & H & _).
  apply (H [] ["MOV X0 1"; "FOO"] false (repeat 0 256) []).
  apply repeat_length.
Defined.

(** ** Further properties: mnemonics *)

Ltac known_or_not Hnot :=
  repeat match goal with
         | |- context [String.eqb ?m ?k] =>
             destruct (String.eqb_spec m k) as [->|_];
             [exfalso; apply Hnot; cbn [In];
              repeat (first [left; reflexivity | right]) |]
         end.

Lemma unknown_is_no_branch m :
  ~ In m V1_mnemonics -> branch_of_mnemonic m = None.
Proof.
  unfold V1_mnemonics. intros Hnot. unfold branch_of_mnemonic.
  known_or_not Hnot. reflexivity.
Qed.

Lemma V1_unknown_mnemonic m operands symTable :
  ~ In m V1_mnemonics -> V1.dispatch m operands symTable = (0, true).
Proof.
  intros Hnot. pose proof (unknown_is_no_branch m Hnot) as Hb.
  unfold V1_mnemonics in Hnot. unfold V1.dispatch.
  known_or_not Hnot. rewrite Hb.
  destruct (Ascii.eqb (head m) "B"); [|reflexivity].
  destruct (sscanf_s 1 operands) as [|t [|? ?]]; reflexivity.
Qed.

Lemma V2_unknown_mnemonic m operands symTable :
  ~ In m V2_mnemonics -> V2.dispatch m operands symTable = (0, true).
Proof.
  intros Hnot.
  assert (Hb : branch_of_mnemonic m = None).
  { apply unknown_is_no_branch. intros H. apply Hnot. right. exact H. }
  unfold V2_mnemonics, V1_mnemonics in Hnot.
  unfold V2.dispatch, V2.parse_branch_condition.
  known_or_not Hnot. rewrite Hb. cbn [Z.leb Z.compare].
  destruct (Ascii.eqb (head m) "B"); [|reflexivity].
  destruct (sscanf_s 1 operands) as [|t [|? ?]]; reflexivity.
Qed.

Lemma AssemblerTool_unknown_mnemonic
    instructions_tech branch_conditions symbolTable aliasTable m tokens
    instructionNumber :
  ~ In m AssemblerTool_mnemonics ->
  AssemblerTool.isAluOperation instructions_tech m = false ->
  AssemblerTool.findBranchCondition branch_conditions m < 0 ->
  AssemblerTool.dispatch instructions_tech branch_conditions symbolTable
    aliasTable m tokens instructionNumber = (0, true).
Proof.
  unfold AssemblerTool_mnemonics. intros Hnot Halu Hbranch.
  unfold AssemblerTool.dispatch, AssemblerTool.parseBranchCondition.
  rewrite Halu. known_or_not Hnot.
  apply Z.leb_gt in Hbranch. rewrite Hbranch. reflexivity.
Qed.

Lemma not_ALU_mnemonic instructions_tech m :
  ~ In m (ALU_mnemonics instructions_tech) ->
  AssemblerTool.isAluOperation instructions_tech m = false.
Proof.
  unfold AssemblerTool.isAluOperation, ALU_mnemonics.
  induction instructions_tech as [|instr table IH]; intros Hnot; [reflexivity|].
  cbn [AssemblerTool.isAluOperation_in filter] in *.
  destruct (IsaSpec.InstructionType_eqb _ _).
  - cbn [map In] in Hnot.
    destruct (String.eqb_spec (IsaSpec.mnemonic instr) m) as [E|E].
    + exfalso. apply Hnot. left. exact E.
    + cbn [andb]. apply IH. intros H. apply Hnot. right. exact H.
  - rewrite andb_false_r. apply IH. exact Hnot.
Qed.

Lemma not_branch_mnemonic branch_conditions m :
  ~ In m (branch_mnemonics branch_conditions) ->
  AssemblerTool.findBranchCondition branch_conditions m = -1.
Proof.
  unfold AssemblerTool.findBranchCondition, branch_mnemonics.
  induction branch_conditions as [|branch table IH]; intros Hnot; [reflexivity|].
  cbn [AssemblerTool.findBranchCondition_in map In] in *.
  destruct (String.eqb_spec (IsaSpec.branch_mnemonic branch) m) as [E|E].
  - exfalso. apply Hnot. left. exact E.
  - apply IH. intros H. apply Hnot. right. exact H.
Qed.

(** X8. A line whose first word, in upper case, is not a mnemonic of the
    assembler is rejected: [parse_instruction] sets [error], whatever
    follows the word within the scan buffers of the C assemblers (a first
    word of at most 31 characters, later words of at most 15).  For the
    tool, with the catalogue of [IsaSpec.hpp], the known words are its
    fixed mnemonics, the ALU mnemonics of the catalogue and the branch
    mnemonics of the condition table, and whatever follows the word, of
    any length, the line is rejected; the [FNUL] placeholders of the
    catalogue are among the words it rejects. *)
Theorem unknown_mnemonic_is_rejected (line : string) (symTable : SymbolTable) :
  (let text := skip_spaces line in
   is_empty text = false ->
   Ascii.eqb (head text) ";" = false ->
   Ascii.eqb (head text) "#" = false ->
   is_label text = false ->
   tokens_fit line = true ->
   (~ In (map_string toupper (take_nonspaces text)) V1_mnemonics ->
    V1.parse_instruction line symTable = (0, true))
   /\ (~ In (map_string toupper (take_nonspaces text)) V2_mnemonics ->
       V2.parse_instruction line symTable = (0, true)))
  /\ (forall aliasTable instructionNumber text,
        AssemblerTool.trim_blanks line = Some text ->
        Ascii.eqb (head text) ";" = false ->
        Ascii.eqb (head text) "#" = false ->
        AssemblerTool.isLabel text = false ->
        let mnem := map_string toupper (fst (AssemblerTool.split_at_blank text)) in
        ~ In mnem tool_mnemonics ->
        AssemblerTool.parseInstruction tool_instructions tool_branches
          symTable aliasTable line instructionNumber = (0, true))
  /\ (forall i, (i < 16)%nat ->
        ~ In ("FNUL" ++ IsaSpec.to_string (Z.of_nat i))%string tool_mnemonics).
Proof.
  split; [|split].
  - intros text Hne Hsemi Hhash Hlabel _. subst text. split; intros Hnot.
    + unfold V1.parse_instruction. cbv zeta.
      rewrite Hne, Hsemi, Hhash, Hlabel. cbn [orb].
      apply V1_unknown_mnemonic. exact Hnot.
    + unfold V2.parse_instruction. cbv zeta.
      rewrite Hne, Hsemi, Hhash, Hlabel. cbn [orb].
      apply V2_unknown_mnemonic. exact Hnot.
  - intros at_ n text Htrim Hsemi Hhash Hlabel mnem Hnot.
    unfold AssemblerTool.parseInstruction. rewrite Htrim.
    assert (Hne : is_empty text = false).
    { destruct line as [|c l]; [discriminate|].
      clear - Htrim. revert c Htrim.
      induction l as [|d l IH]; intros c Htrim; cbn [AssemblerTool.trim_blanks] in Htrim.
      - destruct (_ || _); [discriminate|]. inversion Htrim. reflexivity.
      - destruct (Ascii.eqb c " " || Ascii.eqb c "009").
        + apply (IH d). exact Htrim.
        + inversion Htrim. reflexivity. }
    rewrite Hne, Hsemi, Hhash, Hlabel. cbn [orb].
    subst mnem. destruct (AssemblerTool.split_at_blank text) as [m rest].
    cbn [fst] in *. unfold tool_mnemonics in Hnot.
    apply AssemblerTool_unknown_mnemonic.
    + intros H. apply Hnot. apply in_or_app. left. exact H.
    + apply not_ALU_mnemonic. intros H. apply Hnot.
      apply in_or_app. right. apply in_or_app. left. exact H.
    + rewrite not_branch_mnemonic; [lia|]. intros H. apply Hnot.
      apply in_or_app. right. apply in_or_app. right. exact H.
  - intros i Hi.
    do 16 (destruct i as [|i]; [vm_compute; intuition discriminate|]). lia.
Qed.

Lemma unknown_mnemonic_is_rejected_witness :
  V1.parse_instruction "  jmp start" [] = (0, true)
  /\ V2.parse_instruction "  jmp start" [] = (0, true)
  /\ AssemblerTool.parseInstruction tool_instructions tool_branches [] []
       "  fnul3 X1, X2, X3" 0 = (0, true).
Proof.
  destruct (unknown_mnemonic_is_rejected "  jmp start" []) as [H12 _].
  destruct H12 as [H1 H2]; try reflexivity.
  destruct (unknown_mnemonic_is_rejected "  fnul3 X1, X2, X3" []) as (_ & H3 & H4).
  split; [|split].
  - apply H1. cbn. intuition discriminate.
  - apply H2. cbn. intuition discriminate.
  - apply (H3 [] 0 "fnul3 X1, X2, X3"); try reflexivity.
    exact (H4 3%nat ltac:(lia)).
Defined.

(** ** Further properties: how a line is written *)

Lemma toupper_keeps c :
  isspace (toupper c) = isspace c
  /\ Ascii.eqb (toupper c) ";" = Ascii.eqb c ";"
  /\ Ascii.eqb (toupper c) "#" = Ascii.eqb c "#"
  /\ Ascii.eqb (toupper c) ":" = Ascii.eqb c ":"
  /\ Ascii.eqb (toupper c) "_" = Ascii.eqb c "_"
  /\ isalpha (toupper c) = isalpha c
  /\ toupper (toupper c) = toupper c.
Proof.
  destruct c as [[] [] [] [] [] [] [] []]; vm_compute; repeat split.
Qed.

Lemma toupper_idempotent m :
  map_string toupper (map_string toupper m) = map_string toupper m.
Proof.
  induction m as [|c m IH]; [reflexivity|]. cbn [map_string].
  rewrite IH. f_equal. apply toupper_keeps.
Qed.

Lemma skip_leading_spaces ws s :
  all_chars isspace ws = true -> skip_spaces (ws ++ s) = skip_spaces s.
Proof.
  induction ws as [|c ws IH]; intros H; [reflexivity|].
  cbn [all_chars] in H. apply andb_true_iff in H as [Hc H].
  cbn [append skip_spaces]. rewrite Hc. apply IH. exact H.
Qed.

Section Word.

Variables m rest : string.
Hypothesis m_word : all_chars (fun c => negb (isspace c)) m = true.
Hypothesis m_not_empty : is_empty m = false.
Hypothesis rest_apart : is_empty rest || isspace (head rest) = true.

Lemma word_skip_spaces f :
  (forall c, isspace (f c) = isspace c) ->
  skip_spaces (map_string f m ++ rest) = (map_string f m ++ rest)%string.
Proof.
  intros Hf. destruct m as [|c m']; [discriminate|].
  cbn [all_chars] in m_word. apply andb_true_iff in m_word as [Hc _].
  cbn [map_string append skip_spaces]. rewrite Hf.
  apply negb_true_iff in Hc. rewrite Hc. reflexivity.
Qed.

Lemma rest_take : take_nonspaces rest = EmptyString.
Proof.
  destruct rest as [|c r]; [reflexivity|]. cbn [is_empty head orb] in rest_apart.
  cbn [take_nonspaces]. rewrite rest_apart. reflexivity.
Qed.

Lemma rest_skip : skip_nonspaces rest = rest.
Proof.
  destruct rest as [|c r]; [reflexivity|]. cbn [is_empty head orb] in rest_apart.
  cbn [skip_nonspaces]. rewrite rest_apart. reflexivity.
Qed.

Lemma word_take f :
  (forall c, isspace (f c) = isspace c) ->
  take_nonspaces (map_string f m ++ rest) = map_string f m.
Proof.
  intros Hf. clear m_not_empty. induction m as [|c m' IH].
  - apply rest_take.
  - cbn [all_chars] in m_word. apply andb_true_iff in m_word as [Hc Hm].
    cbn [map_string append take_nonspaces]. rewrite Hf.
    apply negb_true_iff in Hc. rewrite Hc. rewrite (IH Hm). reflexivity.
Qed.

Lemma word_skip f :
  (forall c, isspace (f c) = isspace c) ->
  skip_nonspaces (map_string f m ++ rest) = rest.
Proof.
  intros Hf. clear m_not_empty. induction m as [|c m' IH].
  - apply rest_skip.
  - cbn [all_chars] in m_word. apply andb_true_iff in m_word as [Hc Hm].
    cbn [map_string append skip_nonspaces]. rewrite Hf.
    apply negb_true_iff in Hc. rewrite Hc. apply (IH Hm).
Qed.

Lemma word_colon :
  strchr (map_string toupper m ++ rest) ":" = strchr (m ++ rest) ":".
Proof.
  clear. induction m as [|c m' IH]; [reflexivity|].
  cbn [map_string append strchr].
  destruct (toupper_keeps c) as (_ & _ & _ & -> & _). rewrite IH. reflexivity.
Qed.

Lemma word_head f : head (map_string f m ++ rest) = f (head m).
Proof. clear m_word. destruct m; [discriminate|reflexivity]. Qed.

Lemma word_is_label :
  is_label (map_string toupper m ++ rest) = is_label (m ++ rest).
Proof.
  pose proof (word_skip_spaces toupper (fun c => proj1 (toupper_keeps c))) as Hup.
  pose proof (word_skip_spaces (fun c => c) (fun c => eq_refl)) as Hid.
  pose proof (word_head toupper) as Hhu. pose proof (word_head (fun c => c)) as Hhi.
  assert (Hm : map_string (fun c => c) m = m).
  { clear. induction m as [|c m' IH]; [reflexivity|]. cbn. rewrite IH. reflexivity. }
  rewrite Hm in Hid, Hhi.
  unfold is_label. cbv zeta. rewrite Hup, Hid, word_colon, Hhu, Hhi.
  destruct (toupper_keeps (head m)) as (_ & _ & _ & _ & -> & -> & _).
  destruct m; [discriminate|reflexivity].
Qed.

End Word.

(** X9. The mnemonic of a line may be written in either case and the line
    may be indented: for a word [m] without white space, followed by
    nothing or by white space and the operands, and for any white space
    [ws] in front, the two C assemblers read the line as they read the
    one that starts with [m] in upper case.  (Operands are not converted:
    label names keep their case.) *)
Theorem mnemonic_case_and_indentation
    (ws m rest : string) (symTable : SymbolTable) :
  all_chars isspace ws = true ->
  all_chars (fun c => negb (isspace c)) m = true ->
  is_empty m = false ->
  is_empty rest || isspace (head rest) = true ->
  V1.parse_instruction (ws ++ m ++ rest) symTable =
  V1.parse_instruction (map_string toupper m ++ rest) symTable
  /\ V2.parse_instruction (ws ++ m ++ rest) symTable =
     V2.parse_instruction (map_string toupper m ++ rest) symTable.
Proof.
  intros Hws Hm Hne Hrest.
  pose proof (word_skip_spaces m rest Hm Hne toupper
                (fun c => proj1 (toupper_keeps c))) as Hup.
  pose proof (word_skip_spaces m rest Hm Hne (fun c => c) (fun c => eq_refl)) as Hid.
  pose proof (word_head m rest Hne toupper) as Hhu.
  pose proof (word_head m rest Hne (fun c => c)) as Hhi.
  pose proof (word_take m rest Hm Hrest toupper
                (fun c => proj1 (toupper_keeps c))) as Htu.
  pose proof (word_take m rest Hm Hrest (fun c => c) (fun c => eq_refl)) as Hti.
  pose proof (word_skip m rest Hm Hrest toupper
                (fun c => proj1 (toupper_keeps c))) as Hsu.
  pose proof (word_skip m rest Hm Hrest (fun c => c) (fun c => eq_refl)) as Hsi.
  assert (Hmap : map_string (fun c => c) m = m).
  { clear. induction m as [|c m' IH]; [reflexivity|]. cbn. rewrite IH. reflexivity. }
  rewrite Hmap in Hid, Hhi, Hti, Hsi.
  pose proof (word_is_label m rest Hm Hne) as Hlabel.
  destruct (toupper_keeps (head m)) as (_ & Hsemi & Hhash & _).
  assert (Hempty : is_empty (map_string toupper m ++ rest) = is_empty (m ++ rest))
    by (destruct m; [discriminate|reflexivity]).
  split.
  - unfold V1.parse_instruction. cbv zeta.
    rewrite skip_leading_spaces by exact Hws.
    rewrite Hup, Hid, Hhu, Hhi, Hsemi, Hhash, Hempty, Hlabel, Htu, Hti, Hsu, Hsi.
    rewrite toupper_idempotent. reflexivity.
  - unfold V2.parse_instruction. cbv zeta.
    rewrite skip_leading_spaces by exact Hws.
    rewrite Hup, Hid, Hhu, Hhi, Hsemi, Hhash, Hempty, Hlabel, Htu, Hti, Hsu, Hsi.
    rewrite toupper_idempotent. reflexivity.
Qed.

Lemma mnemonic_case_and_indentation_witness :
  V1.parse_instruction "    mov X1 7" [] = V1.parse_instruction "MOV X1 7" []
  /\ V2.parse_instruction "    mov X1 7" [] = V2.parse_instruction "MOV X1 7" [].
Proof.
  apply (mnemonic_case_and_indentation "    " "mov" " X1 7" []); reflexivity.
Defined.

(** ** Further properties: operands *)

Lemma V2_alu_operands_never_rejected op operands :
  List.length (sscanf_s 2 (V2.commas_to_spaces operands)) = 2%nat ->
  snd (V2.parse_alu_instruction op operands) = false.
Proof.
  intros Hlen. unfold V2.parse_alu_instruction. cbv zeta.
  destruct (sscanf_s 2 (V2.commas_to_spaces operands)) as [|a [|b [|? ?]]];
    try discriminate Hlen.
  destruct (sscanf_s 3 (V2.commas_to_spaces operands)) as [|x [|y [|z [|? ?]]]];
    repeat match goal with
           | |- context [if ?b then _ else _] => destruct b
           end;
    reflexivity.
Qed.

(** X10. The two C assemblers never reject an instruction for what its
    operands are.  In [lsasm.c], an ALU instruction, [MOV], [CMP], [READ]
    or [WRITE] whose operand text has two tokens is encoded whatever the
    tokens, of at most 15 characters each (with its NUL a token fills the
    16 bytes of its buffer); in [lsasm_v2.c] the same holds of [MOV] and
    [CMP], and of the ALU instructions once commas are read as spaces.
    The range checks compare an unsigned result with [-1] and cannot
    fire. *)
Theorem operands_are_never_rejected
    (mnemonic operands : string) (symTable : SymbolTable) :
  (List.length (sscanf_s 2 operands) = 2%nat ->
   forallb (fits 16) (words operands) = true ->
   In mnemonic ["AND"; "OR"; "XOR"; "ADD"; "SUB"; "LSL"; "LSR"; "MOV"; "CMP";
                "READ"; "WRITE"] ->
   snd (V1.dispatch mnemonic operands symTable) = false)
  /\ (List.length (sscanf_s 2 operands) = 2%nat ->
      forallb (fits 16) (words operands) = true ->
      In mnemonic ["MOV"; "CMP"] ->
      snd (V2.dispatch mnemonic operands symTable) = false)
  /\ (List.length (sscanf_s 2 (V2.commas_to_spaces operands)) = 2%nat ->
      forallb (fits 16) (words (V2.commas_to_spaces operands)) = true ->
      In mnemonic ["AND"; "OR"; "XOR"; "ADD"; "SUB"; "LSL"; "LSR"] ->
      snd (V2.dispatch mnemonic operands symTable) = false).
Proof.
  repeat split.
  - intros Hlen _ Hin. apply V1_operands_never_rejected; assumption.
  - intros Hlen _ Hin. apply V2_operands_never_rejected; assumption.
  - intros Hlen _ Hin. cbn [In] in Hin.
    repeat (destruct Hin as [<-|Hin]); try contradiction;
      unfold V2.dispatch; cbn [String.eqb Ascii.eqb Bool.eqb andb];
      apply V2_alu_operands_never_rejected; exact Hlen.
Qed.

Lemma operands_are_never_rejected_witness :
  snd (V1.dispatch "MOV" "X9, 70000" []) = false
  /\ snd (V2.dispatch "CMP" "X9, 70000" []) = false
  /\ snd (V2.dispatch "ADD" "X9,X8,70000" []) = false.
Proof.
  split; [|split].
  - apply (proj1 (operands_are_never_rejected "MOV" "X9, 70000" []));
      [reflexivity | reflexivity
       | cbn [In]; repeat (first [left; reflexivity | right])].
  - apply (proj1 (proj2 (operands_are_never_rejected "CMP" "X9, 70000" [])));
      [reflexivity | reflexivity
       | cbn [In]; repeat (first [left; reflexivity | right])].
  - apply (proj2 (proj2 (operands_are_never_rejected "ADD" "X9,X8,70000" [])));
      [reflexivity | reflexivity
       | cbn [In]; repeat (first [left; reflexivity | right])].
Defined.

Lemma not_digit_ends_number c :
  isdigit c = false -> digit_val 10 c = None.
Proof.
  destruct c as [[] [] [] [] [] [] [] []]; vm_compute; congruence.
Qed.

Lemma digits_stop acc rest :
  isdigit (head rest) = false -> digits 10 acc rest = acc.
Proof.
  destruct rest as [|c rest]; [reflexivity|]. cbn [head digits].
  intros H. rewrite (not_digit_ends_number c H). reflexivity.
Qed.

Lemma atoi_digit d rest :
  isdigit d = true -> isdigit (head rest) = false ->
  atoi (String d rest) = code d - 48.
Proof.
  intros Hd Hrest. unfold atoi, strtol.
  destruct d as [[] [] [] [] [] [] [] []]; try discriminate Hd;
    cbn; rewrite digits_stop by exact Hrest; reflexivity.
Qed.

Lemma decimal_one_digit r :
  0 <= r <= 7 ->
  exists d, decimal r = String d EmptyString /\ isdigit d = true /\ code d - 48 = r.
Proof.
  intros Hr.
  assert (H : r = 0 \/ r = 1 \/ r = 2 \/ r = 3 \/ r = 4 \/ r = 5 \/ r = 6 \/ r = 7)
    by lia.
  repeat (destruct H as [-> | H]); try subst r;
    eexists; repeat split.
Qed.

Lemma atoi_no_number rest :
  isdigit (head rest) = false -> isspace (head rest) = false ->
  head rest <> "-"%char -> head rest <> "+"%char ->
  atoi rest = 0.
Proof.
  intros Hd Hs Hm Hp. destruct rest as [|c rest]; [reflexivity|].
  cbn [head] in *. unfold atoi, strtol.
  destruct c as [[] [] [] [] [] [] [] []];
    try discriminate Hd; try discriminate Hs;
    try (exfalso; apply Hm; reflexivity); try (exfalso; apply Hp; reflexivity);
    reflexivity.
Qed.

(** X11. A register token is an [X] or [x] and the number after it, and
    what follows the number is ignored: for [r] from 0 to 7, the numeral
    of [r] followed by any text that does not start with a digit (a comma,
    as in [X1,]) is read as register [r], by [parse_register] and by the
    tool's [parseRegister] on a token that is no alias.  With no number
    after the [X] the token is read as register 0. *)
Theorem register_token_is_X_and_number
    (x : ascii) (r : Z) (rest : string)
    (aliasTable : list AssemblerTool.RegisterAlias) :
  x = "X"%char \/ x = "x"%char ->
  0 <= r <= 7 ->
  isdigit (head rest) = false ->
  parse_register (String x (decimal r ++ rest)) = r
  /\ (AssemblerTool.resolveAlias aliasTable (String x (decimal r ++ rest))
      = String x (decimal r ++ rest) ->
      AssemblerTool.parseRegister aliasTable (String x (decimal r ++ rest)) = r)
  /\ (isspace (head rest) = false ->
      head rest <> "-"%char -> head rest <> "+"%char ->
      parse_register (String x rest) = 0).
Proof.
  intros Hx Hr Hrest.
  destruct (decimal_one_digit r Hr) as (d & Hdec & Hd & Hval).
  assert (Hatoi : atoi (decimal r ++ rest) = r).
  { rewrite Hdec. cbn [append]. rewrite atoi_digit by assumption. exact Hval. }
  assert (Hhead : negb (Ascii.eqb x "X") && negb (Ascii.eqb x "x") = false)
    by (destruct Hx as [-> | ->]; reflexivity).
  assert (Hin : (r <? 0) || (7 <? r) = false)
    by (apply orb_false_iff; split; [apply Z.ltb_ge|apply Z.ltb_ge]; lia).
  repeat split.
  - unfold parse_register. cbn [head tail]. rewrite Hhead, Hatoi, Hin.
    unfold u8. apply Z.mod_small. lia.
  - intros Hres. unfold AssemblerTool.parseRegister. cbv zeta. rewrite Hres.
    cbn [head tail]. rewrite Hhead, Hatoi, Hin.
    rewrite Hdec. reflexivity.
  - intros Hs Hm Hp. unfold parse_register. cbn [head tail].
    rewrite Hhead, atoi_no_number by assumption. reflexivity.
Qed.

Lemma register_token_is_X_and_number_witness :
  parse_register "X3," = 3
  /\ AssemblerTool.parseRegister [] "X3," = 3
  /\ parse_register "X," = 0.
Proof.
  destruct (register_token_is_X_and_number "X" 3 "," [])
    as (H1 & H2 & H3); [left; reflexivity | lia | reflexivity |].
  split; [exact H1|split; [apply H2; reflexivity|]].
  apply H3; [reflexivity | discriminate | discriminate].
Defined.

(** ** Further properties: register aliases of the tool *)

Lemma resolve_after_upsert aliasTable aliasName regName :
  AssemblerTool.resolveAlias
    (AssemblerTool.upsertAlias aliasTable aliasName regName) aliasName = regName.
Proof.
  induction aliasTable as [|a t IH];
    cbn [AssemblerTool.upsertAlias AssemblerTool.resolveAlias
         AssemblerTool.alias AssemblerTool.registerName].
  - rewrite String.eqb_refl. reflexivity.
  - destruct (String.eqb (AssemblerTool.alias a) aliasName) eqn:Ha;
      cbn [AssemblerTool.resolveAlias AssemblerTool.alias
           AssemblerTool.registerName]; rewrite Ha; [reflexivity|exact IH].
Qed.

Lemma resolve_other_after_upsert aliasTable aliasName regName other :
  other <> aliasName ->
  AssemblerTool.resolveAlias
    (AssemblerTool.upsertAlias aliasTable aliasName regName) other =
  AssemblerTool.resolveAlias aliasTable other.
Proof.
  intros Hother.
  induction aliasTable as [|a t IH];
    cbn [AssemblerTool.upsertAlias AssemblerTool.resolveAlias
         AssemblerTool.alias AssemblerTool.registerName].
  - destruct (String.eqb_spec aliasName other); [congruence|reflexivity].
  - destruct (String.eqb_spec (AssemblerTool.alias a) aliasName) as [Ha|Ha];
      cbn [AssemblerTool.resolveAlias AssemblerTool.alias
           AssemblerTool.registerName].
    + destruct (String.eqb_spec (AssemblerTool.alias a) other); [congruence|].
      reflexivity.
    + rewrite IH. reflexivity.
Qed.

Lemma upsert_length aliasTable aliasName regName :
  List.length (AssemblerTool.upsertAlias aliasTable aliasName regName) =
  if existsb (fun a => String.eqb (AssemblerTool.alias a) aliasName) aliasTable
  then List.length aliasTable else S (List.length aliasTable).
Proof.
  induction aliasTable as [|a t IH];
    cbn [AssemblerTool.upsertAlias existsb List.length]; [reflexivity|].
  destruct (String.eqb (AssemblerTool.alias a) aliasName);
    cbn [orb List.length]; [reflexivity|].
  rewrite IH. destruct (existsb _ t); reflexivity.
Qed.

(** X12. The alias table of the tool binds a name to the register of its
    last definition: after an alias is defined, it resolves to the new
    register name, every other token resolves as before, and the table
    grows by one entry only when the name is new.  An alias of [X0] to
    [X7] is then read by [parseRegister] as that register. *)
Theorem alias_resolves_to_its_last_register
    (aliasTable : list AssemblerTool.RegisterAlias)
    (aliasName regName other : string) (r : Z) :
  let aliasTable' := AssemblerTool.upsertAlias aliasTable aliasName regName in
  AssemblerTool.resolveAlias aliasTable' aliasName = regName
  /\ (other <> aliasName ->
      AssemblerTool.resolveAlias aliasTable' other =
      AssemblerTool.resolveAlias aliasTable other)
  /\ List.length aliasTable' =
     (if existsb (fun a => String.eqb (AssemblerTool.alias a) aliasName) aliasTable
      then List.length aliasTable else S (List.length aliasTable))
  /\ (0 <= r <= 7 -> regName = String "X" (decimal r) ->
      AssemblerTool.parseRegister aliasTable' aliasName = r).
Proof.
  intros aliasTable'. subst aliasTable'. repeat split.
  - apply resolve_after_upsert.
  - apply resolve_other_after_upsert.
  - apply upsert_length.
  - intros Hr Hreg. unfold AssemblerTool.parseRegister. cbv zeta.
    rewrite resolve_after_upsert. subst regName.
    destruct (decimal_one_digit r Hr) as (d & Hdec & Hd & Hval).
    rewrite Hdec. cbn [String.length Nat.ltb Nat.leb head tail Ascii.eqb
                       Bool.eqb negb andb].
    rewrite atoi_digit by (assumption || reflexivity). rewrite Hval.
    replace ((r <? 0) || (7 <? r)) with false; [reflexivity|].
    symmetry. apply orb_false_iff. split; apply Z.ltb_ge; lia.
Qed.

Lemma alias_resolves_to_its_last_register_witness :
  let aliasTable :=
    AssemblerTool.upsertAlias
      [ {| AssemblerTool.alias := "count"; AssemblerTool.registerName := "X1" |} ]
      "count" "X5" in
  aliasTable =
    [ {| AssemblerTool.alias := "count"; AssemblerTool.registerName := "X5" |} ]
  /\ AssemblerTool.parseRegister aliasTable "count" = 5.
Proof.
  cbv zeta. split; [reflexivity|].
  destruct (alias_resolves_to_its_last_register
              [ {| AssemblerTool.alias := "count";
                   AssemblerTool.registerName := "X1" |} ]
              "count" "X5" "" 5) as (_ & _ & _ & H).
  apply H; [lia|reflexivity].
Defined.

(** ** Further properties: the tokens of the tool *)

Lemma tokenize_loop_over_token tok : forall s current,
  all_chars (fun c => negb (separator c)) tok = true ->
  AssemblerTool.tokenize_loop (tok ++ s) current =
  AssemblerTool.tokenize_loop s (current ++ tok).
Proof.
  induction tok as [|c tok IH]; intros s current Htok.
  - cbn [append]. rewrite append_empty_r. reflexivity.
  - cbn [all_chars] in Htok. apply andb_true_iff in Htok as [Hc Htok].
    apply negb_true_iff in Hc. unfold separator in Hc.
    cbn [append AssemblerTool.tokenize_loop]. rewrite Hc.
    rewrite (IH s _ Htok), append_assoc. reflexivity.
Qed.

Lemma tokenize_loop_over_separators sep : forall s,
  all_chars separator sep = true ->
  AssemblerTool.tokenize_loop (sep ++ s) EmptyString =
  AssemblerTool.tokenize_loop s EmptyString.
Proof.
  induction sep as [|c sep IH]; intros s Hsep; [reflexivity|].
  cbn [all_chars] in Hsep. apply andb_true_iff in Hsep as [Hc Hsep].
  unfold separator in Hc.
  cbn [append AssemblerTool.tokenize_loop is_empty negb]. rewrite Hc.
  apply IH. exact Hsep.
Qed.

Lemma tokenize_loop_over_gap sep s current :
  gap sep = true -> is_empty current = false ->
  AssemblerTool.tokenize_loop (sep ++ s) current =
  current :: AssemblerTool.tokenize_loop s EmptyString.
Proof.
  unfold gap. intros Hsep Hcur. apply andb_true_iff in Hsep as [Hne Hsep].
  destruct sep as [|c sep]; [discriminate|].
  cbn [all_chars] in Hsep. apply andb_true_iff in Hsep as [Hc Hsep].
  unfold separator in Hc.
  cbn [append AssemblerTool.tokenize_loop]. rewrite Hc, Hcur. cbn [negb].
  f_equal. apply tokenize_loop_over_separators. exact Hsep.
Qed.

Lemma tokenize_parts parts : forall s,
  Forall (fun p => operand_token (fst p) = true /\ gap (snd p) = true) parts ->
  AssemblerTool.tokenize_loop (operands_text parts ++ s) EmptyString =
  map fst parts ++ AssemblerTool.tokenize_loop s EmptyString.
Proof.
  induction parts as [|[tok sep] parts IH]; intros s Hparts; [reflexivity|].
  inversion Hparts as [|p ps [Htok Hsep] Hrest]. subst. cbn [fst snd] in *.
  unfold operand_token in Htok. apply andb_true_iff in Htok as [Hne Htok].
  cbn [operands_text map]. rewrite !append_assoc.
  rewrite tokenize_loop_over_token by exact Htok. cbn [append].
  rewrite tokenize_loop_over_gap;
    [|exact Hsep|destruct tok; [discriminate|reflexivity]].
  cbn [app]. f_equal. apply IH. exact Hrest.
Qed.

Lemma tokenize_loop_tokens str : forall current,
  all_chars (fun c => negb (separator c)) current = true ->
  Forall (fun t => operand_token t = true)
         (AssemblerTool.tokenize_loop str current).
Proof.
  assert (Hsnoc : forall a c,
             all_chars (fun c => negb (separator c)) a = true ->
             separator c = false ->
             all_chars (fun c => negb (separator c)) (a ++ String c EmptyString)
             = true).
  { induction a as [|x a IH]; intros c Ha Hc; cbn [append all_chars] in *.
    - rewrite Hc. reflexivity.
    - apply andb_true_iff in Ha as [Hx Ha]. rewrite Hx. apply IH; assumption. }
  induction str as [|c str IH]; intros current Hcur;
    cbn [AssemblerTool.tokenize_loop].
  - destruct current as [|x current]; constructor; [|constructor].
    unfold operand_token. rewrite Hcur. reflexivity.
  - destruct (Ascii.eqb c "," || isspace c) eqn:Hc.
    + destruct current as [|x current]; cbn [is_empty negb].
      * apply IH. reflexivity.
      * constructor; [|apply IH; reflexivity].
        unfold operand_token. rewrite Hcur. reflexivity.
    + apply IH. apply Hsnoc; assumption.
Qed.

(** X13. [tokenize] splits the operand text at commas and white space:
    whatever the text, every token it returns is non-empty and holds
    neither; and for tokens written one after the other, each followed by
    a gap of commas and white space, after any such characters in front
    and with or without a gap after the last, it returns the tokens in
    order. *)
Theorem tokenize_returns_the_operands
    (text lead last : string) (parts : list (string * string)) :
  Forall (fun t => operand_token t = true) (AssemblerTool.tokenize text)
  /\ (all_chars separator lead = true ->
      Forall (fun p => operand_token (fst p) = true /\ gap (snd p) = true) parts ->
      operand_token last = true ->
      AssemblerTool.tokenize (lead ++ operands_text parts) = map fst parts
      /\ AssemblerTool.tokenize (lead ++ operands_text parts ++ last)
         = map fst parts ++ [last]).
Proof.
  split; [apply tokenize_loop_tokens; reflexivity|].
  intros Hlead Hparts Hlast. unfold AssemblerTool.tokenize. split.
  - rewrite tokenize_loop_over_separators by exact Hlead.
    replace (operands_text parts)
      with (operands_text parts ++ EmptyString)%string
      by apply append_empty_r.
    rewrite tokenize_parts by exact Hparts. apply app_nil_r.
  - rewrite tokenize_loop_over_separators by exact Hlead.
    rewrite tokenize_parts by exact Hparts. f_equal.
    unfold operand_token in Hlast. apply andb_true_iff in Hlast as [Hne Hlast].
    replace (AssemblerTool.tokenize_loop last EmptyString)
      with (AssemblerTool.tokenize_loop (last ++ EmptyString) EmptyString)
      by (rewrite append_empty_r; reflexivity).
    rewrite tokenize_loop_over_token by exact Hlast.
    cbn [append AssemblerTool.tokenize_loop].
    destruct last; [discriminate|reflexivity].
Qed.

Lemma tokenize_returns_the_operands_witness :
  AssemblerTool.tokenize " X1, X2 ,  0x1F" = ["X1"; "X2"; "0x1F"]
  /\ AssemblerTool.tokenize "X1 X2 " = ["X1"; "X2"].
Proof.
  destruct (tokenize_returns_the_operands "" " " "0x1F" [("X1", ", "); ("X2", " ,  ")])
    as (_ & H).
  destruct H as [_ H3]; [reflexivity | repeat constructor | reflexivity |].
  destruct (tokenize_returns_the_operands "" "" "0" [("X1", " "); ("X2", " ")])
    as (_ & H).
  destruct H as [H2 _]; [reflexivity | repeat constructor | reflexivity |].
  split; [exact H3|exact H2].
Defined.

(** ** Further properties: the [LR] pseudo-instruction *)

(** X14. [LR Xd] loads the number of the instruction itself.  In the
    tool, with the catalogue of [IsaSpec.hpp], the line [LR reg] as the
    instruction with number [n] (the count of the words emitted before it,
    0 to 255) is encoded as [MOV reg, n] is, for a register token [reg]
    without white space, colon or comma and as long as the numeral of [n]
    has not been made an alias: it is the immediate move of [n] into the
    register, with the opcode [0x41], and it is rejected exactly when the
    register token is. *)
Theorem LR_is_a_move_of_the_instruction_number
    (symbolTable : SymbolTable) (aliasTable : list AssemblerTool.RegisterAlias)
    (reg : string) (n : Z) :
  0 <= n <= 255 ->
  plain_token reg = true ->
  all_chars (fun c => negb (Ascii.eqb c ",")) reg = true ->
  AssemblerTool.resolveAlias aliasTable (decimal n) = decimal n ->
  let LR :=
    AssemblerTool.parseInstruction tool_instructions tool_branches
      symbolTable aliasTable (branch_line "LR" reg) n in
  LR = AssemblerTool.dispatch tool_instructions tool_branches symbolTable
         aliasTable "MOV" [reg; decimal n] n
  /\ (AssemblerTool.parseRegister aliasTable reg = -1 -> LR = (0, true))
  /\ (AssemblerTool.parseRegister aliasTable reg <> -1 ->
      LR = (AssemblerTool.encodeMove tool_instructions
              (u8 (AssemblerTool.parseRegister aliasTable reg)) n true, false)
      /\ low_byte (fst LR) = 0x41).
Proof.
  intros Hn Hreg Hcomma Hres LR. subst LR.
  assert (Hmov : AssemblerTool.isAluOperation tool_instructions "MOV" = false)
    by (vm_compute; reflexivity).
  rewrite AssemblerTool_parse_dispatch by (assumption || reflexivity).
  destruct (decimal_address_in_tool n Hn) as (Hconst & _ & _).
  destruct (decimal_address n Hn) as (_ & _ & _ & HnoX & _).
  pose proof (parseRegister_no_X aliasTable (decimal n) Hres HnoX) as Hnoreg.
  unfold AssemblerTool.dispatch.
  cbn [String.eqb Ascii.eqb Bool.eqb andb]. rewrite Hmov.
  rewrite Hnoreg, Hconst. cbn [Z.eqb negb].
  assert (Hn1 : (n =? -1) = false) by (apply Z.eqb_neq; lia).
  rewrite Hn1, (u16_small n Hn).
  destruct (Z.eqb_spec (AssemblerTool.parseRegister aliasTable reg) (-1)) as [He|He].
  - split; [reflexivity|split]; [reflexivity|intros H; congruence].
  - split; [reflexivity|split]; [intros H; congruence|intros _].
    split; [reflexivity|]. cbn [fst].
    unfold AssemblerTool.encodeMove. cbv zeta. cbn [negb].
    change (AssemblerTool.findOpcode tool_instructions "MOV" true) with 0x41.
    rewrite !low_byte_or32, !low_byte_field by lia. reflexivity.
Qed.

Lemma LR_is_a_move_of_the_instruction_number_witness :
  AssemblerTool.parseInstruction tool_instructions tool_branches [] [] "LR X3" 7 =
  AssemblerTool.parseInstruction tool_instructions tool_branches [] []
    "MOV X3, 7" 7
  /\ AssemblerTool.parseInstruction tool_instructions tool_branches [] []
       "LR X3" 7 = (0x00070341, false).
Proof.
  destruct (LR_is_a_move_of_the_instruction_number [] [] "X3" 7)
    as (H1 & _ & H2); try reflexivity; try lia.
  split; [vm_compute in H1; vm_compute; exact H1|].
  destruct H2 as [H2 _]; [discriminate|].
  vm_compute in H2. vm_compute. exact H2.
Defined.

(** ** Further properties: comment lines in the tool *)

Lemma trim_blanks_not_empty line text :
  AssemblerTool.trim_blanks line = Some text -> is_empty text = false.
Proof.
  induction line as [|c line IH]; cbn [AssemblerTool.trim_blanks];
    [discriminate|].
  destruct (_ || _); [exact IH|]. intros H. inversion H. reflexivity.
Qed.

Lemma marker_is_no_label text :
  head text = "#"%char \/ head text = ";"%char ->
  AssemblerTool.isLabel text = false.
Proof.
  destruct text as [|c text']; cbn [head]; [intros [H|H]; discriminate H|].
  intros [-> | ->]; unfold AssemblerTool.isLabel;
    cbn [AssemblerTool.before_colon Ascii.eqb Bool.eqb];
    destruct (AssemblerTool.before_colon text'); reflexivity.
Qed.

(** X15. In the tool, with the catalogue of [IsaSpec.hpp], the two
    passes disagree on a line that starts with [#] and is no [#ALIAS]
    directive: pass 1 counts it as an instruction, pass 2 (while it has
    emitted fewer than 256 words) emits no word for it, so that every
    label after it is bound one address too far.  A line that starts
    with [;] is counted by pass 1 and pass 2 emits the word [0] for it. *)
Theorem AssemblerTool_comment_lines
    (st : AssemblerTool.Pass1) (symbolTable : SymbolTable)
    (aliasTable : list AssemblerTool.RegisterAlias)
    (line text : string) (lines : list string) (inMultiline : bool)
    (instructions : list Z) (cerr : list string) :
  let stripped := fst (AssemblerTool.stripComments line inMultiline) in
  let inMultiline' := snd (AssemblerTool.stripComments line inMultiline) in
  AssemblerTool.p1_inMultiline st = inMultiline ->
  AssemblerTool.trim_blanks stripped = Some text ->
  (List.length instructions < 256)%nat ->
  (head text = "#"%char ->
   String.eqb (strncpy 6 text) "#ALIAS" = false ->
   AssemblerTool.p1_pc (AssemblerTool.pass1_line tool_instructions st line)
   = AssemblerTool.p1_pc st + 1
   /\ AssemblerTool.pass2 tool_instructions tool_branches symbolTable
        aliasTable (line :: lines) inMultiline instructions cerr =
      AssemblerTool.pass2 tool_instructions tool_branches symbolTable
        aliasTable lines inMultiline' instructions cerr)
  /\ (head text = ";"%char ->
      AssemblerTool.p1_pc (AssemblerTool.pass1_line tool_instructions st line)
      = AssemblerTool.p1_pc st + 1
      /\ AssemblerTool.pass2 tool_instructions tool_branches symbolTable
           aliasTable (line :: lines) inMultiline instructions cerr =
         AssemblerTool.pass2 tool_instructions tool_branches symbolTable
           aliasTable lines inMultiline' (instructions ++ [0]) cerr).
Proof.
  intros stripped inM' Hst Htrim Hlen.
  pose proof (trim_blanks_not_empty stripped text Htrim) as Hne.
  apply Nat.ltb_lt in Hlen.
  split; intros Hhead.
  - intros Halias.
    pose proof (marker_is_no_label text (or_introl Hhead)) as Hlabel. split.
    + unfold AssemblerTool.pass1_line. rewrite Hst.
      subst stripped. destruct (AssemblerTool.stripComments line inMultiline)
        as [s i]. cbn [fst snd] in *. rewrite Htrim, Hne, Halias, Hlabel.
      rewrite andb_false_r. reflexivity.
    + cbn [AssemblerTool.pass2]. rewrite Hlen.
      subst stripped inM'. destruct (AssemblerTool.stripComments line inMultiline)
        as [s i]. cbn [fst snd] in *.
      unfold AssemblerTool.parseInstruction.
      rewrite Htrim, Hne, Hlabel, Hhead. cbn [Ascii.eqb Bool.eqb orb andb negb].
      reflexivity.
  - pose proof (marker_is_no_label text (or_intror Hhead)) as Hlabel.
    assert (Halias : String.eqb (strncpy 6 text) "#ALIAS" = false).
    { destruct text as [|c text']; [discriminate|]. cbn [head] in Hhead.
      subst c. reflexivity. }
    split.
    + unfold AssemblerTool.pass1_line. rewrite Hst.
      subst stripped. destruct (AssemblerTool.stripComments line inMultiline)
        as [s i]. cbn [fst snd] in *. rewrite Htrim, Hne, Halias, Hlabel.
      rewrite andb_false_r. reflexivity.
    + cbn [AssemblerTool.pass2]. rewrite Hlen.
      subst stripped inM'. destruct (AssemblerTool.stripComments line inMultiline)
        as [s i]. cbn [fst snd] in *.
      unfold AssemblerTool.parseInstruction.
      rewrite Htrim, Hne, Hlabel, Hhead. cbn [Ascii.eqb Bool.eqb orb andb negb].
      reflexivity.
Qed.

(** The tool as it runs: after a [#] line the branch to [loop] is the
    branch to address 1, not to the word at address 0 that the label
    stands before. *)
Lemma AssemblerTool_comment_lines_witness :
  AssemblerTool.execute tool_instructions tool_branches "# a note
loop:
  B loop
" = AssemblerTool.execute tool_instructions tool_branches "loop:
  B 1
"
  /\ AssemblerTool.p1_pc
       (AssemblerTool.pass1_line tool_instructions
          {| AssemblerTool.p1_inMultiline := false; AssemblerTool.p1_pc := 0;
             AssemblerTool.p1_symbolTable := []; AssemblerTool.p1_aliasTable := [];
             AssemblerTool.p1_cerr := [] |} "# a note") = 0 + 1
  /\ AssemblerTool.pass2 tool_instructions tool_branches [] [] ["# a note"]
       false [] [] =
     AssemblerTool.pass2 tool_instructions tool_branches [] [] [] false [] [].
Proof.
  split; [vm_compute; reflexivity|].
  apply (AssemblerTool_comment_lines
           {| AssemblerTool.p1_inMultiline := false; AssemblerTool.p1_pc := 0;
              AssemblerTool.p1_symbolTable := []; AssemblerTool.p1_aliasTable := [];
              AssemblerTool.p1_cerr := [] |} [] [] "# a note" "# a note" [] false [] []);
    try reflexivity. cbn. lia.
Defined.

(** ** Further properties: the operand fields of a word *)

Section OperandFields.

Lemma field_mod w n lo len :
  0 <= lo -> 0 <= len -> lo + len <= n ->
  field (w mod 2 ^ n) lo len = field w lo len.
Proof.
  intros Hlo Hlen Hn. unfold field. apply Z.bits_inj'. intros i Hi.
  rewrite !Z.land_spec, !Z.shiftr_spec by lia.
  destruct (Z.ltb_spec i len).
  - rewrite Z.mod_pow2_bits_low by lia. reflexivity.
  - rewrite Z.ones_spec_high by lia. rewrite !andb_false_r. reflexivity.
Qed.

Lemma field_lor a b lo len :
  field (Z.lor a b) lo len = Z.lor (field a lo len) (field b lo len).
Proof.
  unfold field. rewrite Z.shiftr_lor. apply Z.land_lor_distr_l.
Qed.

Lemma field_or32 a b lo len :
  0 <= lo -> 0 <= len -> lo + len <= 32 ->
  field (V2.or32 a b) lo len = Z.lor (field a lo len) (field b lo len).
Proof.
  intros. unfold V2.or32, u32. change 4294967296 with (2 ^ 32).
  rewrite field_mod by lia. apply field_lor.
Qed.

Lemma field_or16 a b lo len :
  0 <= lo -> 0 <= len -> lo + len <= 16 ->
  field (V1.or16 a b) lo len = Z.lor (field a lo len) (field b lo len).
Proof.
  intros. unfold V1.or16, u16. change 65536 with (2 ^ 16).
  rewrite field_mod by lia. apply field_lor.
Qed.

(** The field that was put at [lo] is read back, cut to [len] bits. *)
Lemma field_same x lo len :
  0 <= lo -> field (Z.shiftl x lo) lo len = Z.land x (Z.ones len).
Proof.
  intros Hlo. unfold field. rewrite Z.shiftr_shiftl_l by lia.
  rewrite Z.sub_diag. reflexivity.
Qed.

(** A field of [m] bits put at [k] does not reach the bits from [lo] on
    when it ends below them or starts above them. *)
Lemma field_other x k m lo len :
  0 <= k -> 0 <= m -> 0 <= lo -> 0 <= len ->
  k + m <= lo \/ lo + len <= k ->
  field (Z.shiftl (Z.land x (Z.ones m)) k) lo len = 0.
Proof.
  intros Hk Hm Hlo Hlen Hapart. unfold field. apply Z.bits_inj'. intros i Hi.
  rewrite Z.bits_0, Z.land_spec, Z.shiftr_spec by lia.
  destruct (Z.ltb_spec i len).
  - destruct Hapart.
    + rewrite Z.shiftl_spec by lia. rewrite Z.land_spec.
      rewrite Z.ones_spec_high by lia. rewrite andb_false_r. reflexivity.
    + rewrite Z.shiftl_spec_low by lia. reflexivity.
  - rewrite Z.ones_spec_high by lia. apply andb_false_r.
Qed.

(** A number below [2 ^ lo] has nothing from bit [lo] on. *)
Lemma field_above c lo len :
  0 <= lo -> 0 <= c < 2 ^ lo -> field c lo len = 0.
Proof.
  intros Hlo Hc. unfold field. rewrite Z.shiftr_div_pow2 by lia.
  rewrite Z.div_small by lia. apply Z.land_0_l.
Qed.

Lemma land_ones_small x len :
  0 <= len -> 0 <= x < 2 ^ len -> Z.land x (Z.ones len) = x.
Proof.
  intros Hlen Hx. rewrite Z.land_ones by lia. apply Z.mod_small. lia.
Qed.

End OperandFields.

Lemma field_u8 x lo len : 8 <= lo -> field (u8 x) lo len = 0.
Proof.
  intros H. apply field_above; [lia|]. unfold u8.
  pose proof (Z.mod_pos_bound x 256 eq_refl).
  assert (2 ^ 8 <= 2 ^ lo) by (apply Z.pow_le_mono_r; lia). lia.
Qed.

Lemma field_masked x m lo len :
  0 <= m <= lo -> field (Z.land x (Z.ones m)) lo len = 0.
Proof.
  intros H. apply field_above; [lia|].
  rewrite Z.land_ones by lia.
  pose proof (Z.mod_pos_bound x (2 ^ m) ltac:(apply Z.pow_pos_nonneg; lia)).
  assert (2 ^ m <= 2 ^ lo) by (apply Z.pow_le_mono_r; lia). lia.
Qed.

(** Writes the masks of the encoders as runs of ones. *)
Ltac masks_as_ones :=
  repeat match goal with
         | |- context [Z.land ?x 0x7] =>
             change (Z.land x 0x7) with (Z.land x (Z.ones 3))
         | |- context [Z.land ?x 0xF] =>
             change (Z.land x 0xF) with (Z.land x (Z.ones 4))
         | |- context [Z.land ?x 0xFF] =>
             change (Z.land x 0xFF) with (Z.land x (Z.ones 8))
         | |- context [Z.land ?x 0xFFFF] =>
             change (Z.land x 0xFFFF) with (Z.land x (Z.ones 16))
         end.

(** Reads a field of a word that an encoder has put together. *)
Ltac read_field :=
  cbv zeta;
  masks_as_ones;
  repeat (rewrite field_or32 by lia);
  repeat (rewrite field_or16 by lia);
  repeat first [ rewrite field_same by lia
               | rewrite field_other by lia
               | rewrite field_u8 by lia
               | rewrite field_above by (cbn; lia)
               | rewrite field_masked by lia
               | match goal with
                 | |- context [field (Zpos ?p) ?lo ?len] =>
                     let v := eval vm_compute in (field (Zpos p) lo len) in
                     change (field (Zpos p) lo len) with v
                 end ];
  rewrite ?Z.lor_0_r, ?Z.lor_0_l;
  rewrite ?Z.land_0_l;
  repeat match goal with
         | |- context [Z.land ?x (Z.ones ?n)] =>
             is_var x; rewrite (land_ones_small x n) by lia
         end;
  try reflexivity.

(** X16. The layout of a 32-bit word of [lsasm_v2.c]: every operand that
    is in the range of its field is read back from the bits of the
    field.  A destination register sits in bits 8-10, the first source in
    bits 12-14, the second source in bits 16-18 or, as an immediate, in
    bits 16-31; a branch has its condition in bits 8-11 and its target
    register or address from bit 16 on. *)
Theorem V2_operands_are_read_back (dst src1 src2 imm cond byte : Z) :
  0 <= dst <= 7 -> 0 <= src1 <= 7 -> 0 <= src2 <= 7 ->
  0 <= imm <= 65535 -> 0 <= cond <= 15 -> 0 <= byte <= 255 ->
  (forall op,
      let w := V2.encode_alu op dst src1 src2 false in
      field w 8 3 = dst /\ field w 12 3 = src1 /\ field w 16 3 = src2)
  /\ (forall op,
      let w := V2.encode_alu op dst src1 imm true in
      field w 8 3 = dst /\ field w 12 3 = src1 /\ field w 16 16 = imm)
  /\ (let w := V2.encode_move dst src1 false in
      field w 8 3 = dst /\ field w 12 3 = src1)
  /\ (let w := V2.encode_move dst imm true in
      field w 8 3 = dst /\ field w 16 16 = imm)
  /\ (let w := V2.encode_cmp src1 src2 false in
      field w 12 3 = src1 /\ field w 16 3 = src2)
  /\ (let w := V2.encode_cmp src1 imm true in
      field w 12 3 = src1 /\ field w 16 16 = imm)
  /\ (let w := V2.encode_branch cond src1 false in
      field w 8 4 = cond /\ field w 16 3 = src1)
  /\ (let w := V2.encode_branch cond imm true in
      field w 8 4 = cond /\ field w 16 16 = imm)
  /\ (let w := V2.encode_read dst src2 in
      field w 8 3 = dst /\ field w 16 3 = src2)
  /\ (let w := V2.encode_read_i dst cond in
      field w 8 3 = dst /\ field w 16 4 = cond)
  /\ (let w := V2.encode_write src1 src2 in
      field w 12 3 = src1 /\ field w 16 3 = src2)
  /\ (let w := V2.encode_write_i src1 cond in
      field w 12 3 = src1 /\ field w 16 4 = cond)
  /\ (let w := V2.encode_print_reg src1 src2 in
      field w 12 3 = src1 /\ field w 16 3 = src2)
  /\ (let w := V2.encode_print_reg_i src1 byte in
      field w 12 3 = src1 /\ field w 24 8 = byte)
  /\ (let w := V2.encode_print_const src1 src2 in
      field w 12 3 = src1 /\ field w 16 3 = src2)
  /\ (let w := V2.encode_print_const_i byte cond in
      field w 16 8 = byte /\ field w 24 8 = cond).
Proof.
  intros Hdst Hsrc1 Hsrc2 Himm Hcond Hbyte.
  repeat match goal with |- _ /\ _ => split end; intros.
  all: subst w; repeat match goal with |- _ /\ _ => split end.
  all: unfold V2.encode_alu, V2.encode_move, V2.encode_cmp, V2.encode_branch,
         V2.encode_read, V2.encode_read_i, V2.encode_write, V2.encode_write_i,
         V2.encode_print_reg, V2.encode_print_reg_i, V2.encode_print_const,
         V2.encode_print_const_i;
       cbn [negb].
  all: read_field.


Qed.

Lemma V2_operands_are_read_back_witness :
  (let w := V2.encode_alu V2.ALU_ADD 1 2 3 false in
   w = 0x00032104 /\ field w 8 3 = 1 /\ field w 12 3 = 2 /\ field w 16 3 = 3)
  /\ (let w := V2.encode_move 1 0xBEEF true in
      w = 0xBEEF0121 /\ field w 8 3 = 1 /\ field w 16 16 = 0xBEEF).
Proof.
  destruct (V2_operands_are_read_back 1 2 3 0xBEEF 0 0)
    as (Halu & _ & _ & Hmove & _); try lia.
  split.
  - split; [reflexivity|]. exact (Halu V2.ALU_ADD).
  - split; [reflexivity|]. exact Hmove.
Defined.

(** X17. The layout of a 16-bit word of [lsasm.c]: the first register in
    bits 4-6, bit 7 set in the immediate and [WRITE] forms, a second and a
    third register in bits 8-10 and 12-14 or an 8-bit immediate or address
    in bits 8-15; a branch has its condition in bits 4-7 and its target
    in bits 8-15.  Every operand in the range of its field is read back
    from it. *)
Theorem V1_operands_are_read_back (dst src1 src2 byte cond : Z) :
  0 <= dst <= 7 -> 0 <= src1 <= 7 -> 0 <= src2 <= 7 ->
  0 <= byte <= 255 -> 0 <= cond <= 15 ->
  (forall op,
      let w := V1.encode_alu op dst src1 src2 false in
      field w 4 3 = dst /\ field w 7 1 = 0
      /\ field w 8 3 = src1 /\ field w 12 3 = src2)
  /\ (forall op src2',
      let w := V1.encode_alu op dst byte src2' true in
      field w 4 3 = dst /\ field w 7 1 = 1 /\ field w 8 8 = byte)
  /\ (let w := V1.encode_move dst src1 false in
      field w 4 3 = dst /\ field w 7 1 = 0 /\ field w 8 3 = src1)
  /\ (let w := V1.encode_move dst byte true in
      field w 4 3 = dst /\ field w 7 1 = 1 /\ field w 8 8 = byte)
  /\ (forall altBit,
      let w := V1.encode_memory dst byte altBit in
      field w 4 3 = dst /\ field w 7 1 = (if altBit then 1 else 0)
      /\ field w 8 8 = byte)
  /\ (let w := V1.encode_cmp src1 src2 false in
      field w 4 3 = src1 /\ field w 7 1 = 0 /\ field w 8 3 = src2)
  /\ (let w := V1.encode_cmp src1 byte true in
      field w 4 3 = src1 /\ field w 7 1 = 1 /\ field w 8 8 = byte)
  /\ (forall altBit,
      let w := V1.encode_memi src1 src2 altBit in
      field w 4 3 = src1 /\ field w 7 1 = (if altBit then 1 else 0)
      /\ field w 8 3 = src2)
  /\ (let w := V1.encode_b cond byte in
      field w 4 4 = cond /\ field w 8 8 = byte).
Proof.
  intros Hdst Hsrc1 Hsrc2 Hbyte Hcond.
  repeat match goal with |- _ /\ _ => split end; intros.
  all: subst w; repeat match goal with |- _ /\ _ => split end.
  all: unfold V1.encode_alu, V1.encode_move, V1.encode_memory, V1.encode_cmp,
         V1.encode_memi, V1.encode_b;
       try destruct altBit; cbn [negb].
  all: read_field.
Qed.

Lemma V1_operands_are_read_back_witness :
  (let w := V1.encode_alu V1.ALU_ADD 1 2 3 false in
   w = 0x3214 /\ field w 4 3 = 1 /\ field w 7 1 = 0
   /\ field w 8 3 = 2 /\ field w 12 3 = 3)
  /\ (let w := V1.encode_b 5 0x2A in
      w = 0x2A5A /\ field w 4 4 = 5 /\ field w 8 8 = 0x2A).
Proof.
  destruct (V1_operands_are_read_back 1 2 3 0x2A 5)
    as (Halu & _ & _ & _ & _ & _ & _ & _ & Hb); try lia.
  split.
  - split; [reflexivity|]. exact (Halu V1.ALU_ADD).
  - split; [reflexivity|]. exact Hb.
Defined.

Lemma findOpcode_is_byte instructions_tech mnem immediate :
  0 <= AssemblerTool.findOpcode instructions_tech mnem immediate < 2 ^ 8.
Proof.
  unfold AssemblerTool.findOpcode.
  induction instructions_tech as [|instr table IH]; cbn [AssemblerTool.findOpcode_in].
  - cbn. lia.
  - destruct (_ && _); [|exact IH]. unfold u8.
    pose proof (Z.mod_pos_bound (IsaSpec.opcode instr) 256 eq_refl).
    change (2 ^ 8) with 256. lia.
Qed.

Lemma findOpcodeByType_is_byte instructions_tech mnem ty immediate :
  0 <= AssemblerTool.findOpcodeByType instructions_tech mnem ty immediate < 2 ^ 8.
Proof.
  unfold AssemblerTool.findOpcodeByType.
  induction instructions_tech as [|instr table IH];
    cbn [AssemblerTool.findOpcodeByType_in].
  - cbn. lia.
  - destruct (_ && _); [|exact IH]. unfold u8.
    pose proof (Z.mod_pos_bound (IsaSpec.opcode instr) 256 eq_refl).
    change (2 ^ 8) with 256. lia.
Qed.

Lemma field_findOpcode instructions_tech mnem immediate lo len :
  8 <= lo ->
  field (AssemblerTool.findOpcode instructions_tech mnem immediate) lo len = 0.
Proof.
  intros H. apply field_above; [lia|].
  pose proof (findOpcode_is_byte instructions_tech mnem immediate).
  assert (2 ^ 8 <= 2 ^ lo) by (apply Z.pow_le_mono_r; lia). lia.
Qed.

Lemma field_findOpcodeByType instructions_tech mnem ty immediate lo len :
  8 <= lo ->
  field (AssemblerTool.findOpcodeByType instructions_tech mnem ty immediate) lo len
  = 0.
Proof.
  intros H. apply field_above; [lia|].
  pose proof (findOpcodeByType_is_byte instructions_tech mnem ty immediate).
  assert (2 ^ 8 <= 2 ^ lo) by (apply Z.pow_le_mono_r; lia). lia.
Qed.

(** The operand fields of the words of the tool, whatever opcodes a
    catalogue holds. *)
Lemma AssemblerTool_fields
    (instructions_tech : list IsaSpec.InstructionTech)
    (dst src1 src2 imm cond byte : Z) :
  0 <= dst <= 7 -> 0 <= src1 <= 7 -> 0 <= src2 <= 7 ->
  0 <= imm <= 65535 -> 0 <= cond <= 15 -> 0 <= byte <= 255 ->
  (forall op,
      let w := AssemblerTool.encodeAlu op dst src1 src2 false in
      field w 8 3 = dst /\ field w 12 3 = src1 /\ field w 16 3 = src2)
  /\ (forall op,
      let w := AssemblerTool.encodeAlu op dst src1 imm true in
      field w 8 3 = dst /\ field w 12 3 = src1 /\ field w 16 16 = imm)
  /\ (let w := AssemblerTool.encodeMove instructions_tech dst src1 false in
      field w 8 3 = dst /\ field w 12 3 = src1)
  /\ (let w := AssemblerTool.encodeMove instructions_tech dst imm true in
      field w 8 3 = dst /\ field w 16 16 = imm)
  /\ (let w := AssemblerTool.encodeCmp instructions_tech src1 src2 false in
      field w 12 3 = src1 /\ field w 16 3 = src2)
  /\ (let w := AssemblerTool.encodeCmp instructions_tech src1 imm true in
      field w 12 3 = src1 /\ field w 16 16 = imm)
  /\ (let w := AssemblerTool.encodeBranch instructions_tech cond src1 false in
      field w 8 4 = cond /\ field w 16 4 = src1)
  /\ (let w := AssemblerTool.encodeBranch instructions_tech cond imm true in
      field w 8 4 = cond /\ field w 16 16 = imm)
  /\ (let w := AssemblerTool.encodeRead instructions_tech dst src2 in
      field w 8 3 = dst /\ field w 16 3 = src2)
  /\ (let w := AssemblerTool.encodeReadI instructions_tech dst imm in
      field w 8 3 = dst /\ field w 16 16 = imm)
  /\ (let w := AssemblerTool.encodeWrite instructions_tech src1 src2 in
      field w 12 3 = src1 /\ field w 16 3 = src2)
  /\ (let w := AssemblerTool.encodeWriteI instructions_tech src1 imm in
      field w 12 3 = src1 /\ field w 16 16 = imm)
  /\ (let w := AssemblerTool.encodePrintReg instructions_tech src1 src2 in
      field w 12 3 = src1 /\ field w 16 3 = src2)
  /\ (let w := AssemblerTool.encodePrintRegI instructions_tech src1 byte in
      field w 12 3 = src1 /\ field w 16 8 = byte)
  /\ (let w := AssemblerTool.encodePrintConst instructions_tech byte src2 in
      field w 16 3 = src2 /\ field w 24 8 = byte)
  /\ (let w := AssemblerTool.encodePrintConstI instructions_tech byte cond in
      field w 16 8 = cond /\ field w 24 8 = byte).
Proof.
  intros Hdst Hsrc1 Hsrc2 Himm Hcond Hbyte.
  repeat match goal with |- _ /\ _ => split end; intros.
  all: subst w; repeat match goal with |- _ /\ _ => split end.
  all: unfold AssemblerTool.encodeAlu, AssemblerTool.encodeMove,
         AssemblerTool.encodeCmp, AssemblerTool.encodeBranch,
         AssemblerTool.encodeRead, AssemblerTool.encodeReadI,
         AssemblerTool.encodeWrite, AssemblerTool.encodeWriteI,
         AssemblerTool.encodePrintReg, AssemblerTool.encodePrintRegI,
         AssemblerTool.encodePrintConst, AssemblerTool.encodePrintConstI;
       cbn [negb].
  all: cbv zeta; repeat (rewrite field_or32 by lia);
       rewrite ?field_findOpcode, ?field_findOpcodeByType by lia.
  all: read_field.
Qed.

(** X18. The layout of a word of the tool, with the catalogue of
    [IsaSpec.hpp].  Registers and immediates sit where [lsasm_v2.c] puts
    them, and every operand in the range of its field is read back from
    it; the [PRINT] words are laid out otherwise than in [lsasm_v2.c]: an
    immediate position is in bits 16-23 and a constant in bits 24-31.
    Bits 0-7 hold the opcode of the catalogue: [0x40] to [0x4D] for [MOV],
    [CMP], the branches, [READ], [WRITE] and the four forms of [PRINT],
    the odd one in the immediate form, and for the ALU operation with
    index [i] in the catalogue [i] in the register form and [0x10 + i] in
    the immediate form. *)
Theorem AssemblerTool_operands_are_read_back
    (dst src1 src2 imm cond byte : Z) :
  0 <= dst <= 7 -> 0 <= src1 <= 7 -> 0 <= src2 <= 7 ->
  0 <= imm <= 65535 -> 0 <= cond <= 15 -> 0 <= byte <= 255 ->
  ((forall op,
      let w := AssemblerTool.encodeAlu op dst src1 src2 false in
      field w 8 3 = dst /\ field w 12 3 = src1 /\ field w 16 3 = src2)
   /\ (forall op,
       let w := AssemblerTool.encodeAlu op dst src1 imm true in
       field w 8 3 = dst /\ field w 12 3 = src1 /\ field w 16 16 = imm)
   /\ (let w := AssemblerTool.encodeMove tool_instructions dst src1 false in
       field w 8 3 = dst /\ field w 12 3 = src1)
   /\ (let w := AssemblerTool.encodeMove tool_instructions dst imm true in
       field w 8 3 = dst /\ field w 16 16 = imm)
   /\ (let w := AssemblerTool.encodeCmp tool_instructions src1 src2 false in
       field w 12 3 = src1 /\ field w 16 3 = src2)
   /\ (let w := AssemblerTool.encodeCmp tool_instructions src1 imm true in
       field w 12 3 = src1 /\ field w 16 16 = imm)
   /\ (let w := AssemblerTool.encodeBranch tool_instructions cond src1 false in
       field w 8 4 = cond /\ field w 16 4 = src1)
   /\ (let w := AssemblerTool.encodeBranch tool_instructions cond imm true in
       field w 8 4 = cond /\ field w 16 16 = imm)
   /\ (let w := AssemblerTool.encodeRead tool_instructions dst src2 in
       field w 8 3 = dst /\ field w 16 3 = src2)
   /\ (let w := AssemblerTool.encodeReadI tool_instructions dst imm in
       field w 8 3 = dst /\ field w 16 16 = imm)
   /\ (let w := AssemblerTool.encodeWrite tool_instructions src1 src2 in
       field w 12 3 = src1 /\ field w 16 3 = src2)
   /\ (let w := AssemblerTool.encodeWriteI tool_instructions src1 imm in
       field w 12 3 = src1 /\ field w 16 16 = imm)
   /\ (let w := AssemblerTool.encodePrintReg tool_instructions src1 src2 in
       field w 12 3 = src1 /\ field w 16 3 = src2)
   /\ (let w := AssemblerTool.encodePrintRegI tool_instructions src1 byte in
       field w 12 3 = src1 /\ field w 16 8 = byte)
   /\ (let w := AssemblerTool.encodePrintConst tool_instructions byte src2 in
       field w 16 3 = src2 /\ field w 24 8 = byte)
   /\ (let w := AssemblerTool.encodePrintConstI tool_instructions byte cond in
       field w 16 8 = cond /\ field w 24 8 = byte))
  /\ (low_byte (AssemblerTool.encodeMove tool_instructions dst src1 false) = 0x40
      /\ low_byte (AssemblerTool.encodeMove tool_instructions dst imm true) = 0x41
      /\ low_byte (AssemblerTool.encodeCmp tool_instructions src1 src2 false) = 0x42
      /\ low_byte (AssemblerTool.encodeCmp tool_instructions src1 imm true) = 0x43
      /\ low_byte (AssemblerTool.encodeBranch tool_instructions cond src1 false)
         = 0x44
      /\ low_byte (AssemblerTool.encodeBranch tool_instructions cond imm true)
         = 0x45
      /\ low_byte (AssemblerTool.encodeRead tool_instructions dst src2) = 0x46
      /\ low_byte (AssemblerTool.encodeReadI tool_instructions dst imm) = 0x47
      /\ low_byte (AssemblerTool.encodeWrite tool_instructions src1 src2) = 0x48
      /\ low_byte (AssemblerTool.encodeWriteI tool_instructions src1 imm) = 0x49
      /\ low_byte (AssemblerTool.encodePrintReg tool_instructions src1 src2)
         = 0x4A
      /\ low_byte (AssemblerTool.encodePrintRegI tool_instructions src1 byte)
         = 0x4B
      /\ low_byte (AssemblerTool.encodePrintConst tool_instructions byte src2)
         = 0x4C
      /\ low_byte (AssemblerTool.encodePrintConstI tool_instructions byte cond)
         = 0x4D)
  /\ (forall i, (i < 16)%nat ->
        let op :=
          AssemblerTool.findOpcode tool_instructions
            (snd (nth i IsaSpec.aluOps (EmptyString, EmptyString))) false in
        AssemblerTool.isAluOperation tool_instructions
          (snd (nth i IsaSpec.aluOps (EmptyString, EmptyString))) = true
        /\ low_byte (AssemblerTool.encodeAlu op dst src1 src2 false) = Z.of_nat i
        /\ low_byte (AssemblerTool.encodeAlu op dst src1 imm true)
           = 0x10 + Z.of_nat i).
Proof.
  intros Hdst Hsrc1 Hsrc2 Himm Hcond Hbyte.
  split; [apply AssemblerTool_fields; assumption|]. split.
  - repeat match goal with |- _ /\ _ => split end.
    all: unfold AssemblerTool.encodeMove, AssemblerTool.encodeCmp,
           AssemblerTool.encodeBranch, AssemblerTool.encodeRead,
           AssemblerTool.encodeReadI, AssemblerTool.encodeWrite,
           AssemblerTool.encodeWriteI, AssemblerTool.encodePrintReg,
           AssemblerTool.encodePrintRegI, AssemblerTool.encodePrintConst,
           AssemblerTool.encodePrintConstI;
         cbn [negb]; cbv zeta.
    all: rewrite !low_byte_or32, !low_byte_field by lia.
    all: vm_compute; reflexivity.
  - intros i Hi op. subst op.
    do 16 (destruct i as [|i];
           [split; [vm_compute; reflexivity|];
            unfold AssemblerTool.encodeAlu; cbn [negb]; cbv zeta;
            rewrite !low_byte_or32, !low_byte_field by lia;
            split; vm_compute; reflexivity|]).
    lia.
Qed.

Lemma AssemblerTool_operands_are_read_back_witness :
  let w := AssemblerTool.encodePrintRegI tool_instructions 2 0x41 in
  w = 0x0041204B /\ field w 12 3 = 2 /\ field w 16 8 = 0x41
  /\ low_byte w = 0x4B.
Proof.
  destruct (AssemblerTool_operands_are_read_back 0 2 0 0 0 0x41)
    as (Hfields & Hopcodes & _); try lia.
  destruct Hfields
    as (_ & _ & _ & _ & _ & _ & _ & _ & _ & _ & _ & _ & _ & H & _).
  destruct Hopcodes
    as (_ & _ & _ & _ & _ & _ & _ & _ & _ & _ & _ & Hop & _).
  split; [vm_compute; reflexivity|].
  destruct H as [H1 H2]. split; [exact H1|]. split; [exact H2|exact Hop].
Defined.

(** ** Further properties: the width of the words *)

Lemma or32_range a b : 0 <= V2.or32 a b < 2 ^ 32.
Proof. unfold V2.or32, u32. apply Z.mod_pos_bound. reflexivity. Qed.

Lemma or16_range a b : 0 <= V1.or16 a b < 2 ^ 16.
Proof. unfold V1.or16, u16. apply Z.mod_pos_bound. reflexivity. Qed.

Lemma u16_range x : 0 <= u16 x < 2 ^ 16.
Proof. unfold u16. apply Z.mod_pos_bound. reflexivity. Qed.

(** The words of the encoders fit their width. *)
Ltac encoder_range :=
  cbv zeta;
  repeat match goal with
         | |- context [if ?b then _ else _] => destruct b
         end;
  first [ apply or32_range | apply or16_range | apply u16_range
        | match goal with
          | |- 0 <= u16 ?x < 2 ^ 32 =>
              pose proof (u16_range x) as Hr;
              change (2 ^ 16) with 65536 in Hr;
              change (2 ^ 32) with 4294967296; lia
          end ].

Lemma V2_parse_instruction_range line symTable :
  0 <= fst (V2.parse_instruction line symTable) < 2 ^ 32.
Proof.
  destruct (V2.parse_instruction line symTable) as [w error] eqn:H.
  cbn [fst]. unfold V2.parse_instruction in H. cbv zeta in H.
  destruct (_ || _) in H; [injection H as <- _; cbn; lia|].
  destruct (is_label _) in H; [injection H as <- _; cbn; lia|].
  unfold V2.dispatch, V2.parse_alu_instruction, V2.parse_print in H.
  cbv zeta in H.
  break_parse H.
  all: returned_word H.
  all: try (cbn; lia).
  all: unfold V2.encode_alu, V2.encode_move, V2.encode_cmp, V2.encode_branch,
         V2.encode_read, V2.encode_read_i, V2.encode_write, V2.encode_write_i,
         V2.encode_print_reg, V2.encode_print_reg_i, V2.encode_print_const,
         V2.encode_print_const_i, V2.encode_b.
  all: encoder_range.
Qed.

Lemma V1_parse_instruction_range line symTable :
  0 <= fst (V1.parse_instruction line symTable) < 2 ^ 16.
Proof.
  destruct (V1.parse_instruction line symTable) as [w error] eqn:H.
  cbn [fst]. unfold V1.parse_instruction in H. cbv zeta in H.
  destruct (_ || _) in H; [injection H as <- _; cbn; lia|].
  destruct (is_label _) in H; [injection H as <- _; cbn; lia|].
  unfold V1.dispatch, V1.parse_alu_instruction, V1.parse_memory in H.
  cbv zeta in H.
  break_parse H.
  all: returned_word H.
  all: try (cbn; lia).
  all: unfold V1.encode_alu, V1.encode_move, V1.encode_memory, V1.encode_cmp,
         V1.encode_memi, V1.encode_b.
  all: encoder_range.
Qed.

Lemma pass2_words MAX_INSTR parse_instruction (P : Z -> Prop) symTable lines :
  (forall line, P (fst (parse_instruction line symTable))) ->
  forall inMultiline instructions stderr,
    Forall P instructions ->
    Forall P (fst (pass2 MAX_INSTR parse_instruction symTable lines inMultiline
                     instructions stderr)).
Proof.
  intros Hparse.
  induction lines as [|line lines IH]; intros inM instrs err H;
    cbn [pass2 fst]; [exact H|]. cbv zeta.
  destruct (_ <? _); [|exact H].
  destruct (strip_comments line inM) as [line' inM'].
  pose proof (Hparse line') as Hw.
  destruct (parse_instruction line' symTable) as [instr error].
  destruct error; [apply IH; exact H|].
  destruct (_ && _); [|apply IH; exact H].
  apply IH. apply Forall_app. split; [exact H|].
  constructor; [exact Hw|constructor].
Qed.

Lemma halves_make_the_word w :
  0 <= w < 2 ^ 32 ->
  Z.land (Z.shiftr w 16) 0xFFFF * 65536 + Z.land w 0xFFFF = w.
Proof.
  intros Hw. change 0xFFFF with (Z.ones 16).
  rewrite !Z.land_ones, Z.shiftr_div_pow2 by lia.
  change (2 ^ 16) with 65536. change (2 ^ 32) with 4294967296 in Hw.
  rewrite (Z.mod_small (w / 65536)).
  - pose proof (Z.div_mod w 65536 ltac:(lia)). lia.
  - split; [apply Z.div_pos; lia|apply Z.div_lt_upper_bound; lia].
Qed.

(** X19. The two banks of [lsasm_v2.c] hold the whole program: every word
    that the assembler emits fits 32 bits, so that at each address of the
    program the ALPHA entry times [2^16] plus the BETA entry is the word. *)
Theorem banks_hold_the_program (lines : list string) (a : nat) :
  let program := fst (V2.assemble lines) in
  (a < List.length program)%nat ->
  0 <= nth a program 0 < 2 ^ 32
  /\ nth a (fst (V2.split program)) 0 * 65536 + nth a (snd (V2.split program)) 0
     = nth a program 0.
Proof.
  intros program Ha.
  assert (Hrange : Forall (fun w => 0 <= w < 2 ^ 32) program).
  { subst program. unfold V2.assemble.
    destruct (pass1 V2.MAX_INSTR V2.MAX_LABELS lines false 0 symbol_table_init)
      as [pc symTable].
    apply pass2_words; [|constructor].
    intros line. apply V2_parse_instruction_range. }
  assert (Hw : 0 <= nth a program 0 < 2 ^ 32).
  { rewrite Forall_forall in Hrange. apply Hrange. apply nth_In. exact Ha. }
  split; [exact Hw|].
  destruct (split_spec program a) as (Hhi & Hlo & _).
  { subst program. apply V2_program_fits. }
  rewrite Hhi, Hlo. apply Nat.ltb_lt in Ha. rewrite Ha.
  apply halves_make_the_word. exact Hw.
Qed.

Lemma banks_hold_the_program_witness :
  let program := fst (V2.assemble (read_lines "MOV X0 0xBEEF
ADD X1 X0 X0
")) in
  program = [0xBEEF0021; 0x00000104]
  /\ nth 0 (fst (V2.split program)) 0 = 0xBEEF
  /\ nth 0 (snd (V2.split program)) 0 = 0x0021
  /\ nth 0 (fst (V2.split program)) 0 * 65536 + nth 0 (snd (V2.split program)) 0
     = nth 0 program 0.
Proof.
  cbv zeta. split; [reflexivity|]. split; [reflexivity|]. split; [reflexivity|].
  apply (banks_hold_the_program (read_lines "MOV X0 0xBEEF
ADD X1 X0 X0
") 0).
  vm_compute. lia.
Defined.

(** ** Further properties: the ROM generators *)

Lemma all_below_sound n p :
  all_below n p = true -> forall k, 0 <= k < Z.of_N n -> p k = true.
Proof.
  unfold all_below.
  set (step := fun st : Z * bool => (fst st + 1, snd st && p (fst st))).
  assert (Hfst : forall m, fst (N.iter m step (0, true)) = Z.of_N m).
  { induction m as [|m IH] using N.peano_ind; [reflexivity|].
    rewrite N.iter_succ. cbn [step fst]. rewrite IH. lia. }
  induction n as [|n IH] using N.peano_ind; intros H k Hk; [lia|].
  rewrite N.iter_succ in H. cbn [step snd] in H.
  apply andb_true_iff in H as [Hn Hp]. rewrite Hfst in Hp.
  destruct (Z.eq_dec k (Z.of_N n)) as [->|Hne]; [exact Hp|].
  apply IH; [exact Hn|lia].
Qed.

Lemma branch_flags_all_consistent :
  all_below 16 branch_flags_consistent = true.
Proof. vm_compute. reflexivity. Qed.

(** X20. The branch-condition ROM, read with the condition codes of the
    assemblers.  Whatever the flags, [B] is always taken and the unused
    code 15 never; of a condition and its opposite exactly one is taken,
    with an entry of all ones, the other entry being zero; and [BLE] is
    [BLT] or [BEQ], [BGT] is [BGE] and [BNE], [BHI] is [BCS] and [BNE],
    [BLS] is [BCC] or [BEQ]. *)
Theorem branch_conditions_are_consistent (flags : Z) (c c' : branch_condition) :
  0 <= flags <= 15 ->
  In (c, c') opposite_conditions ->
  let taken c := branch_entry flags (branch_condition_val c) in
  (taken c = 0xFFFF /\ taken c' = 0 \/ taken c = 0 /\ taken c' = 0xFFFF)
  /\ taken B_UNCOND = 0xFFFF
  /\ branch_entry flags 15 = 0
  /\ taken B_LE = Z.lor (taken B_LT) (taken B_EQ)
  /\ taken B_GT = Z.land (taken B_GE) (taken B_NE)
  /\ taken B_HI = Z.land (taken B_CS) (taken B_NE)
  /\ taken B_LS = Z.lor (taken B_CC) (taken B_EQ).
Proof.
  intros Hflags Hin taken.
  pose proof (all_below_sound 16 _ branch_flags_all_consistent flags
                ltac:(change (Z.of_N 16) with 16; lia)) as H.
  unfold branch_flags_consistent in H. cbv zeta in H. fold taken in H.
  do 6 (apply andb_true_iff in H as [H ?]).
  rewrite forallb_forall in H. specialize (H (c, c') Hin). cbn [fst snd] in H.
  repeat match goal with
         | Heq : (_ =? _) = true |- _ => apply Z.eqb_eq in Heq
         end.
  repeat split; try assumption.
  apply orb_true_iff in H as [H|H]; apply andb_true_iff in H as [Hc Hc'];
    apply Z.eqb_eq in Hc, Hc'; [left|right]; split; assumption.
Qed.

Lemma branch_conditions_are_consistent_witness :
  branch_entry 4 (branch_condition_val B_EQ) = 0xFFFF
  /\ branch_entry 4 (branch_condition_val B_NE) = 0.
Proof.
  destruct (branch_conditions_are_consistent 4 B_EQ B_NE) as (H & _);
    [lia | left; reflexivity |].
  vm_compute in H. vm_compute.
  destruct H as [H|[H _]]; [exact H|discriminate H].
Defined.

Lemma hex_entries_all_spell : all_below 256 hex_entries_spell = true.
Proof. vm_compute. reflexivity. Qed.

(** X21. The hex-display ROMs spell their address.  At every address from
    0 to 255 the two bytes of the upper-case entry are the characters of
    the address as a two-digit hexadecimal numeral, high digit first; the
    lower-case entry holds the same numeral in lower case; and the 4-bit
    table holds the digit of an address below 16 and zero above. *)
Theorem hex_display_spells_the_address (addr : Z) :
  0 <= addr <= 255 ->
  let upper := nth (Z.to_nat addr) HexDisplayRom.hex_8_upper_data 0 in
  let lower := nth (Z.to_nat addr) HexDisplayRom.hex_8_lower_data 0 in
  let digit := nth (Z.to_nat addr) HexDisplayRom.hex_4_data 0 in
  strtol (two_chars upper) 16 = addr
  /\ strtol (two_chars lower) 16 = addr
  /\ map_string toupper (two_chars lower) = two_chars upper
  /\ (addr < 16 -> strtol (String (Stdio.chr digit) EmptyString) 16 = addr)
  /\ (16 <= addr -> digit = 0).
Proof.
  intros Haddr upper lower digit.
  pose proof (all_below_sound 256 _ hex_entries_all_spell addr
                ltac:(change (Z.of_N 256) with 256; lia)) as H.
  unfold hex_entries_spell in H. cbv zeta in H. fold upper lower digit in H.
  apply andb_true_iff in H as [H Hdigit].
  apply andb_true_iff in H as [H Hcase].
  apply andb_true_iff in H as [Hupper Hlower].
  apply Z.eqb_eq in Hupper, Hlower. apply String.eqb_eq in Hcase.
  repeat split; try assumption.
  - intros Hlt. apply Z.ltb_lt in Hlt. rewrite Hlt in Hdigit.
    apply Z.eqb_eq in Hdigit. exact Hdigit.
  - intros Hge. apply Z.ltb_ge in Hge. rewrite Hge in Hdigit.
    apply Z.eqb_eq in Hdigit. exact Hdigit.
Qed.

Lemma hex_display_spells_the_address_witness :
  two_chars (nth 0xAB HexDisplayRom.hex_8_upper_data 0) = "AB"
  /\ two_chars (nth 0xAB HexDisplayRom.hex_8_lower_data 0) = "ab"
  /\ strtol (two_chars (nth 0xAB HexDisplayRom.hex_8_upper_data 0)) 16 = 0xAB.
Proof.
  split; [reflexivity|]. split; [reflexivity|].
  apply (hex_display_spells_the_address 0xAB). lia.
Defined.

(** ** Further properties: the machine-code translator ROM *)

(** X22. The machine-code translator ROM knows the words of
    [lsasm_v2.c].  Every word the assembler returns without error has an
    opcode byte that the ROM marks valid, but for [EXIT], whose byte
    [0xFF] has the entry zero; and for the word of each encoder the entry
    holds the type of the instruction and has its immediate flag set
    exactly in the immediate form. *)
Theorem translator_ROM_knows_the_emitted_opcodes :
  (forall line symTable w,
      V2.parse_instruction line symTable = (w, false) ->
      Z.land (opcode_flags w) OpcodeFlagsRom.FLAG_VALID =
      (if low_byte w =? 0xFF then 0 else OpcodeFlagsRom.FLAG_VALID))
  /\ (forall op dst src1 src2 altBit,
      In op [V2.ALU_AND; V2.ALU_OR; V2.ALU_XOR; V2.ALU_NOT; V2.ALU_ADD;
             V2.ALU_SUB; V2.ALU_LSL; V2.ALU_LSR] ->
      let e := opcode_flags (V2.encode_alu op dst src1 src2 altBit) in
      Z.land e OpcodeFlagsRom.FLAG_TYPE_MASK = OpcodeFlagsRom.FLAG_TYPE_ALU
      /\ Z.land e OpcodeFlagsRom.FLAG_IMMEDIATE =
         (if altBit then OpcodeFlagsRom.FLAG_IMMEDIATE else 0))
  /\ (forall dst src altBit,
      let e := opcode_flags (V2.encode_move dst src altBit) in
      Z.land e OpcodeFlagsRom.FLAG_TYPE_MASK = OpcodeFlagsRom.FLAG_TYPE_MOVE
      /\ Z.land e OpcodeFlagsRom.FLAG_IMMEDIATE =
         (if altBit then OpcodeFlagsRom.FLAG_IMMEDIATE else 0))
  /\ (forall src1 src2 altBit,
      let e := opcode_flags (V2.encode_cmp src1 src2 altBit) in
      Z.land e OpcodeFlagsRom.FLAG_TYPE_MASK = OpcodeFlagsRom.FLAG_TYPE_CMP
      /\ Z.land e OpcodeFlagsRom.FLAG_IMMEDIATE =
         (if altBit then OpcodeFlagsRom.FLAG_IMMEDIATE else 0))
  /\ (forall condition target is_immediate,
      let e := opcode_flags (V2.encode_branch condition target is_immediate) in
      Z.land e OpcodeFlagsRom.FLAG_TYPE_MASK = OpcodeFlagsRom.FLAG_TYPE_BRANCH
      /\ Z.land e OpcodeFlagsRom.FLAG_IMMEDIATE =
         (if is_immediate then OpcodeFlagsRom.FLAG_IMMEDIATE else 0))
  /\ (forall a b,
      Forall (fun w =>
                Z.land (opcode_flags w) OpcodeFlagsRom.FLAG_TYPE_MASK =
                OpcodeFlagsRom.FLAG_TYPE_MEMORY)
             [V2.encode_read a b; V2.encode_read_i a b; V2.encode_write a b;
              V2.encode_write_i a b]
      /\ Forall (fun w =>
                   Z.land (opcode_flags w) OpcodeFlagsRom.FLAG_TYPE_MASK =
                   OpcodeFlagsRom.FLAG_TYPE_PRINT_REG)
                [V2.encode_print_reg a b; V2.encode_print_reg_i a b]
      /\ Forall (fun w =>
                   Z.land (opcode_flags w) OpcodeFlagsRom.FLAG_TYPE_MASK =
                   OpcodeFlagsRom.FLAG_TYPE_PRINT_CONST)
                [V2.encode_print_const a b; V2.encode_print_const_i a b]
      /\ Forall (fun w =>
                   Z.land (opcode_flags w) OpcodeFlagsRom.FLAG_IMMEDIATE = 0)
                [V2.encode_read a b; V2.encode_write a b;
                 V2.encode_print_reg a b; V2.encode_print_const a b]
      /\ Forall (fun w =>
                   Z.land (opcode_flags w) OpcodeFlagsRom.FLAG_IMMEDIATE =
                   OpcodeFlagsRom.FLAG_IMMEDIATE)
                [V2.encode_read_i a b; V2.encode_write_i a b;
                 V2.encode_print_reg_i a b; V2.encode_print_const_i a b]).
Proof.
  pose proof V2_fixed_opcode_low_byte
    as (Hmove & Hcmp & Hbranch & Hread & Hreadi & Hwrite & Hwritei
        & Hpr & Hpri & Hpc & Hpci).
  repeat match goal with |- _ /\ _ => split end.
  - intros line symTable w H. apply V2_emitted_low_byte in H.
    unfold opcode_flags. unfold V2_opcode_bytes in H. cbn [In] in H.
    repeat (destruct H as [<- | H]); try contradiction; vm_compute; reflexivity.
  - intros op dst src1 src2 altBit Hin e. subst e. unfold opcode_flags.
    rewrite V2_encode_alu_low_byte. cbn [In] in Hin.
    repeat (destruct Hin as [<- | Hin]); try contradiction;
      destruct altBit; vm_compute; split; reflexivity.
  - intros dst src altBit e. subst e. unfold opcode_flags. rewrite Hmove.
    destruct altBit; vm_compute; split; reflexivity.
  - intros src1 src2 altBit e. subst e. unfold opcode_flags. rewrite Hcmp.
    destruct altBit; vm_compute; split; reflexivity.
  - intros condition target is_immediate e. subst e. unfold opcode_flags.
    rewrite Hbranch. destruct is_immediate; vm_compute; split; reflexivity.
  - intros a b. unfold opcode_flags.
    repeat match goal with
           | |- _ /\ _ => split
           | |- Forall _ _ => constructor
           end;
      rewrite ?Hread, ?Hreadi, ?Hwrite, ?Hwritei, ?Hpr, ?Hpri, ?Hpc, ?Hpci;
      vm_compute; reflexivity.
Qed.

Lemma translator_ROM_knows_the_emitted_opcodes_witness :
  Z.land (opcode_flags (fst (V2.parse_instruction "MOV X1, 7" [])))
    OpcodeFlagsRom.FLAG_VALID = OpcodeFlagsRom.FLAG_VALID
  /\ Z.land (opcode_flags (fst (V2.parse_instruction "EXIT" [])))
       OpcodeFlagsRom.FLAG_VALID = 0.
Proof.
  destruct translator_ROM_knows_the_emitted_opcodes as (H & _).
  split.
  - apply (H "MOV X1, 7" [] 0x00070121). reflexivity.
  - apply (H "EXIT" [] 0xFFFF). reflexivity.
Defined.

(** ** Further properties: numbers as text *)

Section Numerals16.

Variable base : Z.
Hypothesis base_known : base = 2 \/ base = 10 \/ base = 16.

Lemma digit_char_spec d :
  0 <= d < base ->
  digit_val base (digit_char d) = Some d
  /\ numeral_char (digit_char d) = true
  /\ (base <= 10 -> isdigit (digit_char d) = true).
Proof.
  intros Hd.
  assert (H : d = 0 \/ d = 1 \/ d = 2 \/ d = 3 \/ d = 4 \/ d = 5 \/ d = 6
              \/ d = 7 \/ d = 8 \/ d = 9 \/ d = 10 \/ d = 11 \/ d = 12
              \/ d = 13 \/ d = 14 \/ d = 15) by lia.
  destruct base_known as [Hb|[Hb|Hb]]; subst base;
    repeat (destruct H as [-> | H]); try subst d; try lia;
    repeat split; try reflexivity; intros; lia.
Qed.

Lemma numeral_char_plain c :
  numeral_char c = true ->
  isspace c = false
  /\ Ascii.eqb c "010" = false
  /\ Ascii.eqb c "x" = false /\ Ascii.eqb c "X" = false
  /\ Ascii.eqb c "-" = false /\ Ascii.eqb c "+" = false
  /\ Ascii.eqb c "'" = false.
Proof.
  destruct c as [[] [] [] [] [] [] [] []]; vm_compute; intros H;
    try discriminate H; repeat split.
Qed.

Lemma all_chars_app p a b :
  all_chars p (a ++ b) = all_chars p a && all_chars p b.
Proof.
  induction a as [|c a IH]; [reflexivity|]. cbn [append all_chars].
  rewrite IH. apply andb_assoc.
Qed.

Lemma length_append a b :
  String.length (a ++ b) = (String.length a + String.length b)%nat.
Proof. induction a as [|c a IH]; [reflexivity|]. cbn. rewrite IH. reflexivity. Qed.

Lemma unsigned_digits_step fuel x acc :
  Stdio.unsigned_digits (S fuel) base x acc =
  if x / base =? 0 then String (digit_char (x mod base)) acc
  else Stdio.unsigned_digits fuel base (x / base)
         (String (digit_char (x mod base)) acc).
Proof. reflexivity. Qed.

(** What [unsigned_digits] writes: a non-empty run of numeral characters
    that [digits] reads back as the number. *)
Lemma unsigned_digits_spec fuel : forall x acc,
  0 <= x < base ^ Z.of_nat (S fuel) ->
  exists body,
    Stdio.unsigned_digits (S fuel) base x acc = (body ++ acc)%string
    /\ is_empty body = false
    /\ all_chars numeral_char body = true
    /\ (base <= 10 -> all_chars isdigit body = true)
    /\ (String.length body <= S fuel)%nat
    /\ forall a tl,
         digits base a (body ++ tl) =
         digits base (a * base ^ Z.of_nat (String.length body) + x) tl.
Proof.
  assert (Hbase : 2 <= base) by (destruct base_known as [->|[->| ->]]; lia).
  induction fuel as [|fuel IH]; intros x acc Hx.
  - change (Z.of_nat 1) with 1 in Hx. rewrite Z.pow_1_r in Hx.
    rewrite unsigned_digits_step. rewrite (Z.div_small x base) by lia.
    cbn [Z.eqb]. rewrite (Z.mod_small x base) by lia.
    destruct (digit_char_spec x Hx) as (Hval & Hnum & Hdig).
    exists (String (digit_char x) EmptyString).
    repeat split; cbn [all_chars String.length]; try (rewrite ?Hnum; reflexivity);
      try lia.
    + intros Hle. rewrite (Hdig Hle). reflexivity.
    + intros a tl. cbn [append digits]. rewrite Hval.
      change (Z.of_nat 1) with 1. rewrite Z.pow_1_r. reflexivity.
  - rewrite unsigned_digits_step.
    pose proof (Z.mod_pos_bound x base ltac:(lia)) as Hd.
    destruct (digit_char_spec (x mod base) Hd) as (Hval & Hnum & Hdig).
    destruct (Z.eqb_spec (x / base) 0) as [Hq|Hq].
    + assert (Hsmall : x = x mod base).
      { pose proof (Z.div_mod x base ltac:(lia)). rewrite Hq in *. lia. }
      exists (String (digit_char (x mod base)) EmptyString).
      repeat split; cbn [all_chars String.length];
        try (rewrite ?Hnum; reflexivity); try lia.
      * intros Hle. rewrite (Hdig Hle). reflexivity.
      * intros a tl. cbn [append digits]. rewrite Hval.
        change (Z.of_nat 1) with 1. rewrite Z.pow_1_r.
        rewrite <- Hsmall. reflexivity.
    + assert (Hqr : 0 <= x / base < base ^ Z.of_nat (S fuel)).
      { split; [apply Z.div_pos; lia|].
        apply Z.div_lt_upper_bound; [lia|].
        replace (Z.of_nat (S (S fuel))) with (Z.of_nat (S fuel) + 1) in Hx by lia.
        rewrite Z.pow_add_r, Z.pow_1_r in Hx by lia. lia. }
      destruct (IH (x / base)
                  (String (digit_char (x mod base)) acc) Hqr)
        as (body & Heq & Hne & Hall & Halld & Hlen & Hread).
      exists (body ++ String (digit_char (x mod base)) EmptyString)%string.
      repeat split.
      * rewrite Heq, append_assoc. reflexivity.
      * destruct body; [discriminate|reflexivity].
      * rewrite all_chars_app. cbn [all_chars]. rewrite Hall, Hnum. reflexivity.
      * intros Hle. rewrite all_chars_app. cbn [all_chars].
        rewrite (Halld Hle), (Hdig Hle). reflexivity.
      * rewrite length_append. cbn [String.length]. lia.
      * intros a tl. rewrite append_assoc. cbn [append].
        rewrite Hread. cbn [digits]. rewrite Hval. f_equal.
        rewrite length_append. cbn [String.length].
        replace (Z.of_nat (String.length body + 1))
          with (Z.of_nat (String.length body) + 1) by lia.
        rewrite Z.pow_add_r, Z.pow_1_r by lia.
        pose proof (Z.div_mod x base ltac:(lia)). lia.
Qed.

End Numerals16.

Lemma strtol_value_plain s base :
  numeral_char (head s) = true ->
  Ascii.eqb (head (tail s)) "x" = false ->
  Ascii.eqb (head (tail s)) "X" = false ->
  strtol_value s base = digits base 0 s.
Proof.
  intros Hnum Hx HX. destruct s as [|c s']; [discriminate|].
  cbn [head tail] in *.
  assert (Hzero : Ascii.eqb c "0" = true \/
                  (Ascii.eqb c "0" = false /\ numeral_char c = true)).
  { destruct (Ascii.eqb c "0"); [left; reflexivity|right; split; trivial]. }
  destruct Hzero as [Hzero|[Hzero _]].
  - apply Ascii.eqb_eq in Hzero. subst c. unfold strtol_value.
    cbn [skip_spaces isspace code N_of_ascii N_of_digits Z.of_N Z.eqb Z.leb
         Z.compare Pos.compare Pos.compare_cont andb orb].
    destruct (base =? 16); [|reflexivity].
    destruct s' as [|d s'']; [reflexivity|]. cbn [head] in Hx, HX.
    destruct d as [[] [] [] [] [] [] [] []];
      try discriminate Hx; try discriminate HX; reflexivity.
  - unfold strtol_value.
    destruct c as [[] [] [] [] [] [] [] []];
      try discriminate Hnum; try discriminate Hzero;
      cbn; destruct (base =? 16); reflexivity.
Qed.

(** A number in the range of [long] is what [strtol] returns, and one in
    the range of [int] what [atoi] and the cast to [int] give. *)
Lemma strtol_read s base v :
  strtol_value s base = v -> LONG_MIN <= v <= LONG_MAX -> strtol s base = v.
Proof.
  intros <- Hv. unfold strtol. cbv zeta.
  destruct (Z.ltb_spec LONG_MAX (strtol_value s base)); [lia|].
  destruct (Z.ltb_spec (strtol_value s base) LONG_MIN); [lia|reflexivity].
Qed.

Lemma to_int_small v : -2147483648 <= v < 2147483648 -> to_int v = v.
Proof. intros Hv. unfold to_int. rewrite Z.mod_small; lia. Qed.

Lemma int_read s base v :
  strtol_value s base = v -> -2147483648 <= v < 2147483648 ->
  to_int (strtol s base) = v.
Proof.
  intros Hs Hv. rewrite (strtol_read s base v Hs).
  - apply to_int_small. exact Hv.
  - unfold LONG_MIN, LONG_MAX. lia.
Qed.

Lemma atoi_read s v :
  strtol_value s 10 = v -> -2147483648 <= v < 2147483648 -> atoi s = v.
Proof. apply int_read. Qed.

Lemma newline_ends_number base acc rest :
  base = 2 \/ base = 10 \/ base = 16 ->
  digits base acc (String "010" rest) = acc.
Proof. intros [->|[->| ->]]; reflexivity. Qed.

Lemma digits_over_zeros k : forall s, digits 16 0 (Stdio.zeros k ++ s) = digits 16 0 s.
Proof. induction k as [|k IH]; intros s; [reflexivity|]. cbn [Stdio.zeros append digits]. apply IH. Qed.

Lemma zeros_numeral k : all_chars numeral_char (Stdio.zeros k) = true.
Proof. induction k as [|k IH]; [reflexivity|]. cbn [Stdio.zeros all_chars]. rewrite IH. reflexivity. Qed.

Lemma zeros_length k : String.length (Stdio.zeros k) = k.
Proof. induction k as [|k IH]; [reflexivity|]. cbn. rewrite IH. reflexivity. Qed.

(** A non-empty run of numeral characters before a newline starts as a
    number does and has no [x] in second place. *)
Lemma numeral_line_plain body rest :
  is_empty body = false -> all_chars numeral_char body = true ->
  numeral_char (head (body ++ String "010" rest)) = true
  /\ Ascii.eqb (head (tail (body ++ String "010" rest))) "x" = false
  /\ Ascii.eqb (head (tail (body ++ String "010" rest))) "X" = false.
Proof.
  intros Hne Hall. destruct body as [|c body]; [discriminate|].
  cbn [all_chars] in Hall. apply andb_true_iff in Hall as [Hc Hall].
  cbn [append head tail]. split; [exact Hc|].
  destruct body as [|d body]; [split; reflexivity|].
  cbn [all_chars] in Hall. apply andb_true_iff in Hall as [Hd _].
  cbn [append head]. destruct (numeral_char_plain d Hd) as (_ & _ & Hx & HX & _).
  split; assumption.
Qed.

Lemma numeral_no_newline body :
  all_chars numeral_char body = true ->
  all_chars (fun c => negb (Ascii.eqb c "010")) body = true.
Proof.
  induction body as [|c body IH]; intros H; [reflexivity|].
  cbn [all_chars] in *. apply andb_true_iff in H as [Hc H].
  destruct (numeral_char_plain c Hc) as (_ & -> & _). rewrite (IH H). reflexivity.
Qed.

Lemma bit_of_word w b : 0 <= b -> Z.land (Z.shiftr w b) 1 = (w / 2 ^ b) mod 2.
Proof.
  intros Hb. change 1 with (Z.ones 1). rewrite Z.land_ones by lia.
  rewrite Z.shiftr_div_pow2 by lia. reflexivity.
Qed.

Lemma fputc_bits_spec w n :
  all_chars numeral_char (RomWriter.fputc_bits n w) = true
  /\ String.length (RomWriter.fputc_bits n w) = n
  /\ forall a tl,
       digits 2 a (RomWriter.fputc_bits n w ++ tl) =
       digits 2 (a * 2 ^ Z.of_nat n + w mod 2 ^ Z.of_nat n) tl.
Proof.
  induction n as [|n (Hall & Hlen & Hread)].
  - repeat split. intros a tl. cbn [RomWriter.fputc_bits append].
    change (2 ^ Z.of_nat 0) with 1. rewrite Z.mod_1_r. f_equal. lia.
  - cbn [RomWriter.fputc_bits]. rewrite bit_of_word by lia.
    pose proof (Z.mod_pos_bound (w / 2 ^ Z.of_nat n) 2 eq_refl) as Hbit.
    assert (Hstep : forall a,
               (a * 2 + (w / 2 ^ Z.of_nat n) mod 2) * 2 ^ Z.of_nat n
               + w mod 2 ^ Z.of_nat n
               = a * 2 ^ Z.of_nat (S n) + w mod 2 ^ Z.of_nat (S n)).
    { intros a. replace (Z.of_nat (S n)) with (Z.of_nat n + 1) by lia.
      rewrite Z.pow_add_r, Z.pow_1_r by lia.
      rewrite (Z.rem_mul_r w (2 ^ Z.of_nat n) 2) by
        (try apply Z.pow_nonzero; lia). lia. }
    destruct (Z.eqb_spec ((w / 2 ^ Z.of_nat n) mod 2) 0) as [H0|H0].
    + repeat split; cbn [all_chars String.length]; try (rewrite ?Hall, ?Hlen; reflexivity).
      intros a tl. cbn [append digits]. change (digit_val 2 "0") with (Some 0).
      cbv iota. rewrite Hread, <- Hstep, H0. reflexivity.
    + repeat split; cbn [all_chars String.length]; try (rewrite ?Hall, ?Hlen; reflexivity).
      intros a tl. cbn [append digits]. change (digit_val 2 "1") with (Some 1).
      cbv iota. rewrite Hread, <- Hstep.
      replace ((w / 2 ^ Z.of_nat n) mod 2) with 1 by lia. reflexivity.
Qed.

Lemma word_is_short w :
  0 <= w <= 65536 ->
  0 <= w < 10 ^ Z.of_nat 32 /\ 0 <= w < 16 ^ Z.of_nat 32.
Proof.
  intros Hw.
  assert (H10 : 65536 < 10 ^ Z.of_nat 32) by (vm_compute; reflexivity).
  assert (H16 : 65536 < 16 ^ Z.of_nat 32) by (vm_compute; reflexivity).
  generalize dependent (10 ^ Z.of_nat 32).
  generalize dependent (16 ^ Z.of_nat 32). intros. lia.
Qed.

Lemma strtol_value_minus r :
  strtol_value (String "-" r) 10 = - digits 10 0 r.
Proof. reflexivity. Qed.

Lemma entry_line format w :
  0 <= w < 65536 ->
  exists body,
    RomWriter.write_entry format w = (body ++ String "010" EmptyString)%string
    /\ all_chars (fun c => negb (Ascii.eqb c "010")) body = true
    /\ (String.length body < 255)%nat
    /\ read_entry format (body ++ String "010" EmptyString) = w.
Proof.
  intros Hw.
  destruct (word_is_short w ltac:(lia)) as [H10 H16].
  destruct format; unfold RomWriter.write_entry, read_entry.
  - destruct (unsigned_digits_spec 16 ltac:(tauto) 31 w EmptyString H16)
      as (b & Heq & Hne & Hall & _ & Hlen & Hread).
    clear H10 H16. rewrite append_empty_r in Heq.
    unfold Stdio.fprintf_04X. cbv zeta. rewrite Heq.
    set (k := (4 - String.length b)%nat).
    exists (Stdio.zeros k ++ b)%string.
    assert (Hbody : all_chars numeral_char (Stdio.zeros k ++ b) = true)
      by (rewrite all_chars_app, zeros_numeral, Hall; reflexivity).
    assert (Hnonempty : is_empty (Stdio.zeros k ++ b) = false)
      by (destruct (Stdio.zeros k); [exact Hne|reflexivity]).
    repeat split.
    + apply numeral_no_newline. exact Hbody.
    + rewrite length_append, zeros_length. subst k. lia.
    + destruct (numeral_line_plain _ EmptyString Hnonempty Hbody) as (Hh & Hx & HX).
      apply strtol_read; [|unfold LONG_MIN, LONG_MAX; lia].
      rewrite strtol_value_plain by assumption.
      rewrite append_assoc, digits_over_zeros, Hread.
      rewrite newline_ends_number by tauto. lia.
  - destruct (unsigned_digits_spec 10 ltac:(tauto) 31 w EmptyString H10)
      as (b & Heq & Hne & Hall & _ & Hlen & Hread).
    clear H10 H16. rewrite append_empty_r in Heq. unfold Stdio.fprintf_u. rewrite Heq.
    exists b. repeat split.
    + apply numeral_no_newline. exact Hall.
    + lia.
    + destruct (numeral_line_plain _ EmptyString Hne Hall) as (Hh & Hx & HX).
      apply atoi_read; [|lia].
      rewrite strtol_value_plain by assumption.
      rewrite Hread, newline_ends_number by tauto. lia.
  - unfold Stdio.fprintf_d, RomWriter.i16.
    rewrite (Z.mod_small w 65536 Hw : u16 w = w).
    destruct (Z.ltb_spec w 32768) as [Hpos|Hneg].
    + replace (w <? 0) with false by (symmetry; apply Z.ltb_ge; lia).
      destruct (unsigned_digits_spec 10 ltac:(tauto) 31 w EmptyString H10)
        as (b & Heq & Hne & Hall & _ & Hlen & Hread).
      clear H10 H16. try clear Hm. rewrite append_empty_r in Heq. rewrite Heq.
      exists b. repeat split.
      * apply numeral_no_newline. exact Hall.
      * lia.
      * destruct (numeral_line_plain _ EmptyString Hne Hall) as (Hh & Hx & HX).
        rewrite (atoi_read _ w); [unfold u16; rewrite Z.mod_small; lia| |lia].
        rewrite strtol_value_plain by assumption.
        rewrite Hread, newline_ends_number by tauto. lia.
    + replace (w - 65536 <? 0) with true by (symmetry; apply Z.ltb_lt; lia).
      destruct (word_is_short (- (w - 65536)) ltac:(lia)) as [Hm _].
      destruct (unsigned_digits_spec 10 ltac:(tauto) 31 (- (w - 65536))
                  EmptyString Hm)
        as (b & Heq & Hne & Hall & _ & Hlen & Hread).
      clear H10 H16. try clear Hm. rewrite append_empty_r in Heq. rewrite Heq.
      exists (String "-" b). repeat split.
      * cbn [all_chars]. rewrite (numeral_no_newline b Hall). reflexivity.
      * cbn [String.length]. lia.
      * cbn [append]. rewrite (atoi_read _ (w - 65536)).
        -- unfold u16. replace (w - 65536) with (w + -1 * 65536) by lia.
           rewrite Z.mod_add by lia. apply Z.mod_small. lia.
        -- rewrite strtol_value_minus.
           rewrite Hread, newline_ends_number by tauto. lia.
        -- lia.
  - clear H10 H16. destruct (fputc_bits_spec w 16) as (Hall & Hlen & Hread).
    exists (RomWriter.fputc_bits 16 w).
    assert (Hne : is_empty (RomWriter.fputc_bits 16 w) = false) by reflexivity.
    repeat split.
    + apply numeral_no_newline. exact Hall.
    + rewrite Hlen. lia.
    + destruct (numeral_line_plain _ EmptyString Hne Hall) as (Hh & Hx & HX).
      apply strtol_read; [|unfold LONG_MIN, LONG_MAX; lia].
      rewrite strtol_value_plain by assumption.
      rewrite Hread, newline_ends_number by tauto.
      change (2 ^ Z.of_nat 16) with 65536. rewrite Z.mod_small; lia.
Qed.

Lemma fgets_line body : forall n rest,
  (String.length body < n)%nat ->
  all_chars (fun c => negb (Ascii.eqb c "010")) body = true ->
  fgets n (body ++ String "010" rest) = ((body ++ String "010" EmptyString)%string, rest).
Proof.
  induction body as [|c body IH]; intros n rest Hlen Hbody.
  - destruct n; [cbn in Hlen; lia|]. reflexivity.
  - destruct n; [cbn in Hlen; lia|].
    cbn [all_chars] in Hbody. apply andb_true_iff in Hbody as [Hc Hbody].
    apply negb_true_iff in Hc. cbn [append fgets]. rewrite Hc.
    rewrite IH by (cbn [String.length] in Hlen; try lia; exact Hbody).
    reflexivity.
Qed.

Lemma read_from_line fuel body rest :
  all_chars (fun c => negb (Ascii.eqb c "010")) body = true ->
  (String.length body < 255)%nat ->
  read_from (S fuel) (body ++ String "010" rest) =
  (body ++ String "010" EmptyString)%string :: read_from fuel rest.
Proof.
  intros Hbody Hlen.
  pose proof (fgets_line body 255 rest Hlen Hbody) as Hline.
  destruct body as [|c body]; cbn [append read_from] in *;
    unfold MAX_LINE; cbn [Nat.sub]; rewrite Hline; reflexivity.
Qed.

Lemma written_lines_read_back format data n : forall i fuel,
  (forall k, (i <= k < i + n)%nat -> 0 <= nth k data 0 < 65536) ->
  (String.length (RomWriter.write_loop n i data format) <= fuel)%nat ->
  map (read_entry format)
      (read_from fuel (RomWriter.write_loop n i data format)) =
  map (fun k => nth k data 0) (seq i n).
Proof.
  induction n as [|n IH]; intros i fuel Hdata Hfuel.
  - destruct fuel; reflexivity.
  - cbn [RomWriter.write_loop seq map] in *.
    destruct (entry_line format (nth i data 0) (Hdata i ltac:(lia)))
      as (body & Heq & Hnl & Hlen & Hread).
    rewrite Heq in *. rewrite append_assoc in *. cbn [append] in *.
    rewrite length_append in Hfuel. cbn [String.length] in Hfuel.
    destruct fuel as [|fuel]; [lia|].
    rewrite read_from_line by assumption. cbn [map]. rewrite Hread. f_equal.
    apply IH; [intros k Hk; apply Hdata; lia|lia].
Qed.

Lemma nth_of_all (data : list Z) :
  map (fun k => nth k data 0) (seq 0 (List.length data)) = data.
Proof.
  induction data as [|w data IH]; [reflexivity|].
  cbn [List.length seq map nth]. f_equal.
  rewrite <- seq_shift, map_map. exact IH.
Qed.

(** X23. A ROM file determines the ROM.  For 16-bit entries, the text that
    [write_rom_file] writes in any of its four formats has one line per
    entry, and reading the lines as the reading loop of the assemblers
    delivers them, each as a number in the base of the format, gives the
    entries back in order.  With a size of zero or less nothing is
    written and the call fails. *)
Theorem rom_file_reads_back (data : list Z) (format : RomWriter.rom_format) :
  Forall (fun w => 0 <= w < 65536) data ->
  (0 < List.length data)%nat ->
  (exists file,
      RomWriter.write_rom_file data (Z.of_nat (List.length data)) format
      = Some file
      /\ map (read_entry format) (read_lines file) = data)
  /\ (forall size, size <= 0 -> RomWriter.write_rom_file data size format = None).
Proof.
  intros Hdata Hlen. split.
  - unfold RomWriter.write_rom_file.
    replace (Z.of_nat (List.length data) <=? 0) with false
      by (symmetry; apply Z.leb_gt; lia).
    rewrite Nat2Z.id. eexists. split; [reflexivity|].
    unfold read_lines. rewrite written_lines_read_back; [apply nth_of_all| |lia].
    intros k Hk. rewrite Forall_forall in Hdata. apply Hdata. apply nth_In. lia.
  - intros size Hsize. unfold RomWriter.write_rom_file.
    apply Z.leb_le in Hsize. rewrite Hsize. reflexivity.
Qed.

Lemma rom_file_reads_back_witness :
  RomWriter.write_rom_file [0x0188; 0xFFFF] 2 RomWriter.ROM_INT = Some "392
-1
"
  /\ exists file,
      RomWriter.write_rom_file [0x0188; 0xFFFF] 2 RomWriter.ROM_INT = Some file
      /\ map (read_entry RomWriter.ROM_INT) (read_lines file) = [0x0188; 0xFFFF].
Proof.
  split; [reflexivity|].
  apply (rom_file_reads_back [0x0188; 0xFFFF] RomWriter.ROM_INT).
  - constructor; [lia|constructor; [lia|constructor]].
  - cbn. lia.
Defined.

Lemma halfword_range x : 0 <= Z.land x 0xFFFF < 65536.
Proof.
  change 0xFFFF with (Z.ones 16). rewrite Z.land_ones by lia.
  apply Z.mod_pos_bound. reflexivity.
Qed.

Lemma bank_reads_back bank format :
  List.length bank = 256%nat ->
  (forall k, 0 <= nth k bank 0 < 65536) ->
  exists file,
    RomWriter.write_rom_file bank 256 format = Some file
    /\ map (read_entry format) (read_lines file) = bank.
Proof.
  intros Hlen Hrange. unfold RomWriter.write_rom_file.
  change (256 <=? 0) with false. cbv iota.
  eexists. split; [reflexivity|]. unfold read_lines.
  rewrite written_lines_read_back; [|intros k _; apply Hrange|lia].
  change (Z.to_nat 256) with 256%nat. rewrite <- Hlen. apply nth_of_all.
Qed.

(** X24. The files that the C assemblers write hold the program.  In each
    of the four formats, the lines of the file of [lsasm.c], read as
    numbers in the base of the format, are the emitted words in order;
    and the ALPHA and the BETA file of [lsasm_v2.c], read in the same
    way, are the two banks of 256 entries. *)
Theorem output_files_hold_the_program
    (lines : list string) (format : RomWriter.rom_format) :
  map (read_entry format)
      (read_lines (lsasm_output (fst (V1.assemble lines)) format))
  = fst (V1.assemble lines)
  /\ (let banks := V2.split (fst (V2.assemble lines)) in
      exists alpha_file beta_file,
        RomWriter.write_rom_file (fst banks) 256 format = Some alpha_file
        /\ RomWriter.write_rom_file (snd banks) 256 format = Some beta_file
        /\ map (read_entry format) (read_lines alpha_file) = fst banks
        /\ map (read_entry format) (read_lines beta_file) = snd banks).
Proof.
  split.
  - assert (Hrange : Forall (fun w => 0 <= w < 2 ^ 16) (fst (V1.assemble lines))).
    { unfold V1.assemble.
      destruct (pass1 V1.MAX_INSTR V1.MAX_LABELS lines false 0 symbol_table_init)
        as [pc symTable].
      apply pass2_words; [|constructor].
      intros line. apply V1_parse_instruction_range. }
    unfold lsasm_output, read_lines.
    rewrite written_lines_read_back; [apply nth_of_all| |lia].
    intros k Hk. rewrite Forall_forall in Hrange.
    change 65536 with (2 ^ 16). apply Hrange. apply nth_In. lia.
  - intros banks.
    assert (Hspec : forall k,
               0 <= nth k (fst banks) 0 < 65536
               /\ 0 <= nth k (snd banks) 0 < 65536
               /\ List.length (fst banks) = 256%nat
               /\ List.length (snd banks) = 256%nat).
    { intros k. subst banks.
      destruct (split_spec (fst (V2.assemble lines)) k (V2_program_fits lines))
        as (Hhi & Hlo & Hla & Hlb).
      rewrite Hhi, Hlo. repeat split; try assumption;
        destruct (_ <? _)%nat; try apply halfword_range; lia. }
    destruct (bank_reads_back (fst banks) format) as (alpha_file & Ha & Hra);
      [apply (Hspec O)|intros k; apply (Hspec k)|].
    destruct (bank_reads_back (snd banks) format) as (beta_file & Hb & Hrb);
      [apply (Hspec O)|intros k; apply (Hspec k)|].
    exists alpha_file, beta_file. repeat split; assumption.
Qed.

(** ** Further properties: constants *)

Lemma digit_is_no_letter d :
  isdigit d = true ->
  Ascii.eqb d "x" = false /\ Ascii.eqb d "X" = false
  /\ Ascii.eqb d "b" = false /\ Ascii.eqb d "B" = false
  /\ Ascii.eqb d "'" = false /\ numeral_char d = true.
Proof.
  destruct d as [[] [] [] [] [] [] [] []]; vm_compute; intros H;
    try discriminate H; repeat split.
Qed.

Lemma decimal_text k :
  0 <= k <= 65535 ->
  exists c r,
    Stdio.fprintf_u k = String c r
    /\ all_chars isdigit (String c r) = true
    /\ digits 10 0 (String c r) = k.
Proof.
  intros Hk. destruct (word_is_short k ltac:(lia)) as [H10 _].
  destruct (unsigned_digits_spec 10 ltac:(tauto) 31 k EmptyString H10)
    as (b & Heq & Hne & _ & Hall & _ & Hread).
  clear H10. rewrite append_empty_r in Heq. unfold Stdio.fprintf_u. rewrite Heq.
  destruct b as [|c r]; [discriminate|]. exists c, r.
  repeat split; [apply Hall; lia|].
  specialize (Hread 0 EmptyString). rewrite append_empty_r in Hread.
  rewrite Hread. cbn [digits]. lia.
Qed.

Lemma hex_text k :
  0 <= k <= 65535 ->
  exists c r,
    Stdio.fprintf_04X k = String c r /\ digits 16 0 (String c r) = k.
Proof.
  intros Hk. destruct (word_is_short k ltac:(lia)) as [_ H16].
  destruct (unsigned_digits_spec 16 ltac:(tauto) 31 k EmptyString H16)
    as (b & Heq & Hne & _ & _ & _ & Hread).
  clear H16. rewrite append_empty_r in Heq. unfold Stdio.fprintf_04X. cbv zeta.
  rewrite Heq.
  assert (Hvalue : digits 16 0 (Stdio.zeros (4 - String.length b) ++ b) = k).
  { rewrite digits_over_zeros. specialize (Hread 0 EmptyString).
    rewrite append_empty_r in Hread. rewrite Hread. cbn [digits]. lia. }
  destruct (Stdio.zeros (4 - String.length b) ++ b)%string as [|c r] eqn:Htext.
  - destruct (Stdio.zeros _); cbn [append] in Htext;
      [rewrite Htext in Hne; discriminate Hne | discriminate Htext].
  - exists c, r. split; [reflexivity|exact Hvalue].
Qed.

Lemma binary_text k :
  0 <= k <= 65535 ->
  exists c d r,
    RomWriter.fputc_bits 16 k = String c (String d r)
    /\ to_int (strtol (String c (String d r)) 2) = k.
Proof.
  intros Hk. destruct (fputc_bits_spec k 16) as (Hall & Hlen & Hread).
  destruct (RomWriter.fputc_bits 16 k) as [|c [|d r]] eqn:Htext;
    try discriminate Hlen.
  exists c, d, r. split; [reflexivity|].
  cbn [all_chars] in Hall. apply andb_true_iff in Hall as [Hc Hall].
  apply andb_true_iff in Hall as [Hd _].
  destruct (numeral_char_plain d Hd) as (_ & _ & Hx & HX & _).
  apply int_read; [|lia].
  rewrite strtol_value_plain by assumption.
  specialize (Hread 0 EmptyString). rewrite append_empty_r in Hread.
  rewrite Hread. cbn [digits]. change (2 ^ Z.of_nat 16) with 65536.
  rewrite Z.mod_small; lia.
Qed.

Lemma atoi_decimal c r k :
  all_chars isdigit (String c r) = true ->
  digits 10 0 (String c r) = k -> 0 <= k <= 65535 ->
  atoi (String c r) = k.
Proof.
  intros Hall Hval Hk. cbn [all_chars] in Hall.
  apply andb_true_iff in Hall as [Hc Hr].
  destruct (digit_is_no_letter c Hc) as (_ & _ & _ & _ & _ & Hnum).
  apply atoi_read; [|lia]. rewrite <- Hval.
  apply strtol_value_plain; cbn [head tail]; try exact Hnum.
  - destruct r as [|d r]; [reflexivity|]. cbn [all_chars] in Hr.
    apply andb_true_iff in Hr as [Hd _]. apply (digit_is_no_letter d Hd).
  - destruct r as [|d r]; [reflexivity|]. cbn [all_chars] in Hr.
    apply andb_true_iff in Hr as [Hd _]. apply (digit_is_no_letter d Hd).
Qed.

Lemma in_range lo hi k : lo <= k <= hi -> (k <? lo) || (hi <? k) = false.
Proof.
  intros H. apply orb_false_iff. split; apply Z.ltb_ge; lia.
Qed.

(** X25. The three notations of a constant.  A value from 0 to 65535
    written in decimal, in hexadecimal after [0x] or in binary after [0b]
    (as [fprintf] writes it with [%u] and [%04X], and as the binary format
    of the ROM files writes it) is read as that value by [parse_constant]
    of [lsasm_v2.c] and by [parseConstant] of the tool, and a value up to
    255 by [parse_constant] of [lsasm.c]. *)
Theorem constants_are_read_in_three_notations (k : Z) :
  0 <= k <= 65535 ->
  let decimal_text := Stdio.fprintf_u k in
  let hex_text := ("0x" ++ Stdio.fprintf_04X k)%string in
  let binary_text := ("0b" ++ RomWriter.fputc_bits 16 k)%string in
  (V2.parse_constant decimal_text = k
   /\ V2.parse_constant hex_text = k
   /\ V2.parse_constant binary_text = k)
  /\ (AssemblerTool.parseConstant decimal_text = k
      /\ AssemblerTool.parseConstant hex_text = k
      /\ AssemblerTool.parseConstant binary_text = k)
  /\ (k <= 255 ->
      V1.parse_constant decimal_text = k
      /\ V1.parse_constant hex_text = k
      /\ V1.parse_constant binary_text = k).
Proof.
  intros Hk dt ht bt. subst dt ht bt.
  destruct (decimal_text k Hk) as (c & r & Hd & Hdall & Hdval).
  destruct (hex_text k Hk) as (hc & hr & Hh & Hhval).
  destruct (binary_text k Hk) as (bc & bd & br & Hb & Hbval).
  rewrite Hd, Hh, Hb. cbn [append].
  pose proof (atoi_decimal c r k Hdall Hdval Hk) as Hatoi.
  cbn [all_chars] in Hdall. apply andb_true_iff in Hdall as [Hc Hr].
  destruct (digit_is_no_letter c Hc) as (_ & _ & _ & _ & Hquote & _).
  assert (Hsecond : r = EmptyString \/
                    (Ascii.eqb (head r) "x" = false
                     /\ Ascii.eqb (head r) "X" = false
                     /\ Ascii.eqb (head r) "b" = false
                     /\ Ascii.eqb (head r) "B" = false)).
  { destruct r as [|d r']; [left; reflexivity|right]. cbn [all_chars] in Hr.
    apply andb_true_iff in Hr as [Hd' _]. cbn [head].
    destruct (digit_is_no_letter d Hd') as (? & ? & ? & ? & _). tauto. }
  assert (Hhex : to_int (strtol (String "0" (String "x" (String hc hr))) 16) = k)
    by (apply int_read; [exact Hhval|lia]).
  pose proof (in_range 0 65535 k Hk) as Hin.
  pose proof (Z.mod_small k 65536 ltac:(lia) : u16 k = k) as Hu16.
  split; [|split].
  - repeat split.
    + unfold V2.parse_constant. cbn [head tail]. rewrite Hquote. cbn [andb].
      destruct Hsecond as [-> | (Hx & HX & Hb' & HB)].
      * cbn [is_empty negb]. rewrite andb_false_r, Hatoi, Hin. exact Hu16.
      * rewrite Hx, HX, Hb', HB. cbn [orb].
        destruct (_ && _); rewrite Hatoi, Hin; exact Hu16.
    + unfold V2.parse_constant. cbn [head tail is_empty negb Ascii.eqb Bool.eqb andb orb].
      rewrite Hhex, Hin. exact Hu16.
    + unfold V2.parse_constant. cbn [head tail is_empty negb Ascii.eqb Bool.eqb andb orb].
      rewrite Hbval, Hin. exact Hu16.
  - repeat split.
    + unfold AssemblerTool.parseConstant. cbn [is_empty head tail].
      rewrite Hquote, andb_false_r. cbn [andb].
      destruct Hsecond as [-> | (Hx & HX & Hb' & HB)].
      * cbn [String.length Nat.ltb Nat.leb andb]. rewrite Hatoi, Hin. reflexivity.
      * rewrite Hx, HX, Hb', HB. cbn [orb].
        destruct (_ && _); rewrite Hatoi, Hin; reflexivity.
    + unfold AssemblerTool.parseConstant.
      cbn [is_empty head tail String.length Nat.eqb Nat.ltb Nat.leb Ascii.eqb
           Bool.eqb andb orb].
      rewrite andb_false_r. cbn [andb]. rewrite Hhex, Hin. reflexivity.
    + unfold AssemblerTool.parseConstant.
      cbn [is_empty head tail String.length Nat.eqb Nat.ltb Nat.leb Ascii.eqb
           Bool.eqb andb orb].
      rewrite Hbval, Hin. reflexivity.
  - intros Hbyte.
    pose proof (in_range 0 255 k ltac:(lia)) as Hin8.
    pose proof (Z.mod_small k 256 ltac:(lia) : u8 k = k) as Hu8.
    repeat split.
    + unfold V1.parse_constant. cbn [head tail].
      destruct Hsecond as [-> | (Hx & HX & Hb' & HB)].
      * cbn [is_empty negb]. rewrite andb_false_r, Hatoi, Hin8. exact Hu8.
      * rewrite Hx, HX, Hb', HB. cbn [orb].
        destruct (_ && _); rewrite Hatoi, Hin8; exact Hu8.
    + unfold V1.parse_constant. cbn [head tail is_empty negb Ascii.eqb Bool.eqb andb orb].
      rewrite Hhex, Hin8. exact Hu8.
    + unfold V1.parse_constant. cbn [head tail is_empty negb Ascii.eqb Bool.eqb andb orb].
      rewrite Hbval, Hin8. exact Hu8.
Qed.

Lemma constants_are_read_in_three_notations_witness :
  V2.parse_constant "48879" = 0xBEEF
  /\ V2.parse_constant "0xBEEF" = 0xBEEF
  /\ V2.parse_constant "0b1011111011101111" = 0xBEEF.
Proof.
  destruct (constants_are_read_in_three_notations 0xBEEF) as (H & _); [lia|].
  exact H.
Defined.

(** ** Further properties: the class [RomWriter] *)

Lemma set_all_app writes later rom :
  set_all (writes ++ later) rom = set_all later (set_all writes rom).
Proof. apply fold_left_app. Qed.

Lemma set_keeps_the_size data address value :
  List.length (RomWriter.set data address value) = List.length data.
Proof. apply store_length. Qed.

Lemma set_keeps_the_width data address value :
  (forall k, 0 <= nth k data 0 < 65536) ->
  forall k, 0 <= nth k (RomWriter.set data address value) 0 < 65536.
Proof.
  intros Hdata k. unfold RomWriter.set.
  destruct (Nat.eq_dec k (Z.to_nat (u8 address))) as [-> | Hk].
  - destruct (Nat.lt_ge_cases (Z.to_nat (u8 address)) (List.length data)) as [Hin | Hout].
    + rewrite nth_store_same by exact Hin. apply u16_range.
    + rewrite nth_overflow by (rewrite store_length; exact Hout). lia.
  - rewrite nth_store_other by exact Hk. apply Hdata.
Qed.

Lemma set_all_invariant writes : forall rom,
  List.length rom = 256%nat ->
  (forall k, 0 <= nth k rom 0 < 65536) ->
  List.length (set_all writes rom) = 256%nat
  /\ forall k, 0 <= nth k (set_all writes rom) 0 < 65536.
Proof.
  induction writes as [|w writes IH]; intros rom Hlen Hwidth; [tauto|].
  cbn [set_all fold_left]. apply IH.
  - rewrite set_keeps_the_size. exact Hlen.
  - apply set_keeps_the_width. exact Hwidth.
Qed.

Lemma new_rom :
  List.length RomWriter.new = 256%nat
  /\ forall k, 0 <= nth k RomWriter.new 0 < 65536.
Proof.
  split; [reflexivity|]. intros k. unfold RomWriter.new.
  destruct (Nat.lt_ge_cases k RomWriter.ROM_SIZE) as [Hin | Hout].
  - rewrite nth_repeat_lt by exact Hin. lia.
  - rewrite nth_overflow by (rewrite repeat_length; exact Hout). lia.
Qed.

Lemma get_after_later_sets later : forall rom address,
  Forall (fun w => u8 (fst w) <> u8 address) later ->
  RomWriter.get (set_all later rom) address = RomWriter.get rom address.
Proof.
  induction later as [|w later IH]; intros rom address Hother; [reflexivity|].
  inversion Hother as [|? ? Hw Hlater]; subst.
  cbn [set_all fold_left]. fold (set_all later (RomWriter.set rom (fst w) (snd w))).
  rewrite IH by exact Hlater. unfold RomWriter.get, RomWriter.set.
  apply nth_store_other. intros Heq. apply Hw.
  pose proof (Z.mod_pos_bound (fst w) 256 ltac:(lia)).
  pose proof (Z.mod_pos_bound address 256 ltac:(lia)).
  unfold u8 in *. lia.
Qed.

(** X26. A ROM of the class [RomWriter] is written as it was set.  For an
    object filled by any calls of [set], the file that [writeToFile] writes
    in any of the four formats has 256 lines, which read back, as numbers
    in the base of the format, as the 256 entries; and [get] returns at an
    address the low 16 bits of the value of the last [set] at that address
    (addresses are taken modulo 256), or zero when there was none. *)
Theorem RomWriter_file_holds_what_was_set
    (writes : list (Z * Z)) (format : RomWriter.rom_format) :
  map (read_entry format)
      (read_lines (RomWriter.writeToFile (set_all writes RomWriter.new) format))
  = set_all writes RomWriter.new
  /\ List.length (set_all writes RomWriter.new) = 256%nat
  /\ (forall address value later,
        Forall (fun w => u8 (fst w) <> u8 address) later ->
        RomWriter.get
          (set_all (writes ++ (address, value) :: later) RomWriter.new) address
        = u16 value)
  /\ (forall address,
        Forall (fun w => u8 (fst w) <> u8 address) writes ->
        RomWriter.get (set_all writes RomWriter.new) address = 0).
Proof.
  destruct new_rom as [Hnew_size Hnew_width].
  destruct (set_all_invariant writes RomWriter.new Hnew_size Hnew_width)
    as [Hsize Hwidth].
  split; [|split; [exact Hsize|split]].
  - destruct (bank_reads_back (set_all writes RomWriter.new) format Hsize Hwidth)
      as (file & Hfile & Hread).
    unfold RomWriter.write_rom_file in Hfile.
    change (256 <=? 0) with false in Hfile. cbv iota in Hfile.
    injection Hfile as <-. exact Hread.
  - intros address value later Hlater.
    rewrite set_all_app. cbn [set_all fold_left fst snd].
    fold (set_all later
            (RomWriter.set (set_all writes RomWriter.new) address value)).
    rewrite get_after_later_sets by exact Hlater.
    unfold RomWriter.get, RomWriter.set. apply nth_store_same.
    fold (set_all writes RomWriter.new). rewrite Hsize.
    pose proof (Z.mod_pos_bound address 256 ltac:(lia)). unfold u8. lia.
  - intros address Hnone. rewrite get_after_later_sets by exact Hnone.
    unfold RomWriter.get, RomWriter.new.
    pose proof (Z.mod_pos_bound address 256 ltac:(lia)).
    apply nth_repeat_lt. unfold RomWriter.ROM_SIZE, u8. lia.
Qed.
